(** * RedisService: a resilient session-state and pub/sub layer

    Shallow embedding of [src/backend/services/redisService.js].

    The service object ([this.*]) and everything it talks to (the remote
    Redis server, the network that may fail a command, the wall clock and
    the console) are gathered in one [World].  Every [async] method of the
    class becomes a computation in a state-and-exception monad over that
    world: [await]ed client commands are the points where the environment
    can raise, and [try { ... } catch (error) { ... }] is [try_catch].

    Conventions
    - arguments have the types the methods expect: ids, keys and channels
      are strings, a participant is a record with an [id], a TTL is a
      whole number of seconds; times are integer milliseconds
      ([Date.now()]).  One method is also given at an argument outside its
      type: [addParticipant_any] takes a participant that may be [null];
    - the emoji prefixes of the console messages are dropped;
    - [JSON.stringify] / [JSON.parse] are external: they are taken as a
      codec interface and may raise;
    - the [fallbackStore] is the single JS [Map] of the class, keyed by the
      rendered template strings, holding session entries and participant
      arrays;
    - the server is modelled by the documented effect of the commands the
      service issues (SETEX, GET, DEL, HSET, EXPIRE, HDEL, HGETALL,
      PUBLISH, PING) on a keyspace with absolute deadlines;
    - the client library raises [connect] and [ready] inside a successful
      [client.connect()] and [end] inside [client.disconnect()], so the
      handlers [init] registered run inside these calls; a [subscribe]
      awaited on a client that was never connected does not settle. *)

From stdpp Require Import gmap strings list fin_maps pretty.

Open Scope string_scope.
Open Scope Z_scope.

(** ** Errors and outcomes *)

(** A JS [Error] object; only its [message] is ever read by the service. *)
Record Err := Error { message : string }.

Inductive outcome (A : Type) : Type :=
| Ok (a : A)
| Throw (e : Err).
Arguments Ok {A} a.
Arguments Throw {A} e.

(** ** The codec interface ([JSON.stringify], [JSON.parse]) *)

(** [None] stands for a raised exception ([TypeError] on a value that does
    not serialise, [SyntaxError] on malformed text). *)
Class JSON (A : Type) := {
  JSON_stringify : A → option string;
  JSON_parse : string → option A
}.

(** ** Connection settings: [reconnectStrategy] *)

(** What a reconnect strategy hands back to the client library: [false]
    (give up) or the number of milliseconds to wait. *)
Inductive Reconnect := Stop | RetryAfter (ms : Z).

Module Backoff.

(** [reconnectStrategy: (retries) => { if (retries > this.maxRetries)
    return false; return Math.min(retries * 100, 3000); }] *)
Definition reconnectStrategy (maxRetries retries : Z) : Reconnect :=
  if maxRetries <? retries then Stop
  else RetryAfter (Z.min (retries * 100) 3000).

(** [this.maxRetries = 5] in the constructor. *)
Definition default_maxRetries : Z := 5.

(** [connectTimeout: 60000] *)
Definition connectTimeout : Z := 60000.

End Backoff.

(** ** Data model *)

Section Service.

(** [Val] is the opaque session state handed to [setSessionState]; it is
    also the type of the free-form fields of a participant and of the
    payload of an event. *)
Context {Val : Type}.

(** [{ id, ...fields }] *)
Record Participant := mkParticipant { id : string; fields : Val }.

(** [{ event, data, timestamp }] *)
Record Envelope := mkEnvelope {
  event : string;
  data : Val;
  timestamp : string
}.

(** Values held by [this.fallbackStore]: [{ data, expires }] objects under
    [session:*] keys, arrays of participants under [participants:*].
    [JustNull] is the array [[null]], which [addParticipant] leaves behind
    when it is handed [null] for a participant; no other array with a
    [null] in it can arise, since [filter] raises on the [null]. *)
Inductive Stored :=
| SessionEntry (sdata : Val) (expires : Z)
| ParticipantList (ps : list Participant)
| JustNull.

(** State of one client object created by [redis.createClient]. *)
Inductive Socket := Idle | Opened | Closed.

(** *** The remote server *)

Inductive RValue :=
| RString (s : string)
| RHash (h : gmap string string).

(** A key of the server with its absolute expiry time, if any. *)
Record REntry := mkREntry { rvalue : RValue; rexpire : option Z }.

Inductive Level := Info | Problem.

(** *** The world *)

Record World := mkWorld {
  (* fields of the RedisService instance *)
  client : option Socket;
  publisher : option Socket;
  subscriber : option Socket;
  isConnected : bool;
  retryCount : Z;
  maxRetries : Z;
  fallbackStore : gmap string Stored;
  (* the environment *)
  redis : gmap string REntry;
  subscriptions : list (string * nat);
  delivered : list (nat * Envelope);
  pong : string;
  faults : list (option Err);
  now : Z;
  console : list (Level * string)
}.

Definition set_client (c : option Socket) (w : World) : World :=
  mkWorld c (publisher w) (subscriber w) (isConnected w) (retryCount w)
    (maxRetries w) (fallbackStore w) (redis w) (subscriptions w)
    (delivered w) (pong w) (faults w) (now w) (console w).
Definition set_publisher (c : option Socket) (w : World) : World :=
  mkWorld (client w) c (subscriber w) (isConnected w) (retryCount w)
    (maxRetries w) (fallbackStore w) (redis w) (subscriptions w)
    (delivered w) (pong w) (faults w) (now w) (console w).
Definition set_subscriber (c : option Socket) (w : World) : World :=
  mkWorld (client w) (publisher w) c (isConnected w) (retryCount w)
    (maxRetries w) (fallbackStore w) (redis w) (subscriptions w)
    (delivered w) (pong w) (faults w) (now w) (console w).
Definition set_isConnected (b : bool) (w : World) : World :=
  mkWorld (client w) (publisher w) (subscriber w) b (retryCount w)
    (maxRetries w) (fallbackStore w) (redis w) (subscriptions w)
    (delivered w) (pong w) (faults w) (now w) (console w).
Definition set_retryCount (n : Z) (w : World) : World :=
  mkWorld (client w) (publisher w) (subscriber w) (isConnected w) n
    (maxRetries w) (fallbackStore w) (redis w) (subscriptions w)
    (delivered w) (pong w) (faults w) (now w) (console w).
Definition set_fallbackStore (m : gmap string Stored) (w : World) : World :=
  mkWorld (client w) (publisher w) (subscriber w) (isConnected w)
    (retryCount w) (maxRetries w) m (redis w) (subscriptions w)
    (delivered w) (pong w) (faults w) (now w) (console w).
Definition set_redis (r : gmap string REntry) (w : World) : World :=
  mkWorld (client w) (publisher w) (subscriber w) (isConnected w)
    (retryCount w) (maxRetries w) (fallbackStore w) r (subscriptions w)
    (delivered w) (pong w) (faults w) (now w) (console w).
Definition set_subscriptions (s : list (string * nat)) (w : World) : World :=
  mkWorld (client w) (publisher w) (subscriber w) (isConnected w)
    (retryCount w) (maxRetries w) (fallbackStore w) (redis w) s
    (delivered w) (pong w) (faults w) (now w) (console w).
Definition set_delivered (d : list (nat * Envelope)) (w : World) : World :=
  mkWorld (client w) (publisher w) (subscriber w) (isConnected w)
    (retryCount w) (maxRetries w) (fallbackStore w) (redis w)
    (subscriptions w) d (pong w) (faults w) (now w) (console w).
Definition set_faults (f : list (option Err)) (w : World) : World :=
  mkWorld (client w) (publisher w) (subscriber w) (isConnected w)
    (retryCount w) (maxRetries w) (fallbackStore w) (redis w)
    (subscriptions w) (delivered w) (pong w) f (now w) (console w).
Definition set_now (t : Z) (w : World) : World :=
  mkWorld (client w) (publisher w) (subscriber w) (isConnected w)
    (retryCount w) (maxRetries w) (fallbackStore w) (redis w)
    (subscriptions w) (delivered w) (pong w) (faults w) t (console w).
Definition set_console (c : list (Level * string)) (w : World) : World :=
  mkWorld (client w) (publisher w) (subscriber w) (isConnected w)
    (retryCount w) (maxRetries w) (fallbackStore w) (redis w)
    (subscriptions w) (delivered w) (pong w) (faults w) (now w) c.

(** ** The monad of service methods *)

Definition M (A : Type) : Type := World → outcome A * World.

Definition ret {A} (a : A) : M A := λ w, (Ok a, w).

Definition bind {A B} (m : M A) (k : A → M B) : M B :=
  λ w, match m w with
       | (Ok a, w') => k a w'
       | (Throw e, w') => (Throw e, w')
       end.

Definition throw {A} (e : Err) : M A := λ w, (Throw e, w).

(** [try { body } catch (error) { handler(error) }]: the handler runs in
    the world the body left behind. *)
Definition try_catch {A} (body : M A) (handler : Err → M A) : M A :=
  λ w, match body w with
       | (Ok a, w') => (Ok a, w')
       | (Throw e, w') => handler e w'
       end.

Definition read {A} (f : World → A) : M A := λ w, (Ok (f w), w).
Definition update (f : World → World) : M unit := λ w, (Ok tt, f w).

(** [JSON.stringify(x)] / [JSON.parse(s)] as computations. *)
Definition stringify {A} `{JSON A} (a : A) : M string :=
  match JSON_stringify a with
  | Some s => ret s
  | None => throw (Error "Converting circular structure to JSON")
  end.

Definition parse {A} `{JSON A} (s : string) : M A :=
  match JSON_parse s with
  | Some a => ret a
  | None => throw (Error "Unexpected token in JSON")
  end.

End Service.

Arguments Participant : clear implicits.
Arguments Envelope : clear implicits.
Arguments Stored : clear implicits.
Arguments World : clear implicits.
Arguments M : clear implicits.

(** stdpp's [x ← m; k] and [m;; k] notations are used for [bind]. *)
#[global] Instance M_ret {Val} : MRet (M Val) := @ret Val.
#[global] Instance M_bind {Val} : MBind (M Val) := λ A B k m, @bind Val A B m k.

(** ** The remote backend and the client library *)

Section Operations.

Context {Val : Type}.
Context `{JSON_Val : JSON Val}.
Context `{JSON_Participant : JSON (Participant Val)}.
Context `{JSON_Envelope : JSON (Envelope Val)}.

(** [new Date(ms).toISOString()] *)
Context (toISOString : Z → string).

#[local] Abbreviation World := (World Val).
#[local] Abbreviation M := (M Val).
#[local] Abbreviation Participant := (Participant Val).
#[local] Abbreviation Envelope := (Envelope Val).
#[local] Abbreviation Stored := (Stored Val).

(** [console.log] and [console.error] *)
Definition console_log (msg : string) : M unit :=
  update (λ w, set_console (console w ++ [(Info, msg)]) w).
Definition console_error (msg : string) : M unit :=
  update (λ w, set_console (console w ++ [(Problem, msg)]) w).

(** *** Command semantics of the server

    Keys expire at an absolute time; an expired key is not seen by any
    command.  A command applied to a key of the other kind is refused. *)

Definition live (t : Z) (e : REntry) : bool :=
  match rexpire e with
  | Some deadline => t <? deadline
  | None => true
  end.

Definition redis_lookup (w : World) (key : string) : option REntry :=
  match redis w !! key with
  | Some e => if live (now w) e then Some e else None
  | None => None
  end.

Definition WRONGTYPE : Err :=
  Error "WRONGTYPE Operation against a key holding the wrong kind of value".

Definition cmd_setEx (key : string) (seconds : Z) (value : string) : M unit :=
  λ w, if seconds <=? 0 then (Throw (Error "ERR invalid expire time in 'setex' command"), w)
       else (Ok tt, set_redis
               (<[key := mkREntry (RString value) (Some (now w + seconds * 1000))]> (redis w)) w).

Definition cmd_get (key : string) : M (option string) :=
  λ w, match redis_lookup w key with
       | None => (Ok None, w)
       | Some (mkREntry (RString s) _) => (Ok (Some s), w)
       | Some (mkREntry (RHash _) _) => (Throw WRONGTYPE, w)
       end.

Definition cmd_del (key : string) : M unit :=
  update (λ w, set_redis (delete key (redis w)) w).

Definition cmd_hSet (key field value : string) : M unit :=
  λ w, match redis_lookup w key with
       | None =>
           (Ok tt, set_redis (<[key := mkREntry (RHash {[field := value]}) None]> (redis w)) w)
       | Some (mkREntry (RHash h) ex) =>
           (Ok tt, set_redis (<[key := mkREntry (RHash (<[field := value]> h)) ex]> (redis w)) w)
       | Some (mkREntry (RString _) _) => (Throw WRONGTYPE, w)
       end.

Definition cmd_expire (key : string) (seconds : Z) : M unit :=
  λ w, match redis_lookup w key with
       | None => (Ok tt, w)
       | Some (mkREntry v _) =>
           if seconds <=? 0 then (Ok tt, set_redis (delete key (redis w)) w)
           else (Ok tt, set_redis
                   (<[key := mkREntry v (Some (now w + seconds * 1000))]> (redis w)) w)
       end.

Definition cmd_hDel (key field : string) : M unit :=
  λ w, match redis_lookup w key with
       | None => (Ok tt, w)
       | Some (mkREntry (RHash h) ex) =>
           match h !! field with
           | None => (Ok tt, w)
           | Some _ =>
               let h' := delete field h in
               if decide (h' = ∅) then (Ok tt, set_redis (delete key (redis w)) w)
               else (Ok tt, set_redis (<[key := mkREntry (RHash h') ex]> (redis w)) w)
           end
       | Some (mkREntry (RString _) _) => (Throw WRONGTYPE, w)
       end.

(** The reply of HGETALL as the JS object's entries. *)
Definition cmd_hGetAll (key : string) : M (list (string * string)) :=
  λ w, match redis_lookup w key with
       | None => (Ok [], w)
       | Some (mkREntry (RHash h) _) => (Ok (map_to_list h), w)
       | Some (mkREntry (RString _) _) => (Throw WRONGTYPE, w)
       end.

Definition cmd_ping : M string := read pong.

(** The listener that [subscribeToEvents] hands to [subscribe]:
    [(message) => { try { callback(JSON.parse(message)) } catch (error)
    { console.error(...) } }].  Callbacks are named by a number and each
    invocation is recorded in [delivered]. *)
Definition listener (callback : nat) (msg : string) : M unit :=
  try_catch
    (parsed ← parse (A:=Envelope) msg;
     update (λ w, set_delivered (delivered w ++ [(callback, parsed)]) w))
    (λ error, console_error ("Redis message parse error: " +:+ message error)).

Fixpoint deliver (subs : list (string * nat)) (channel msg : string) : M unit :=
  match subs with
  | [] => mret tt
  | (ch, callback) :: rest =>
      (if decide (ch = channel) then listener callback msg else mret tt);;
      deliver rest channel msg
  end.

Definition cmd_publish (channel msg : string) : M unit :=
  subs ← read subscriptions;
  deliver subs channel msg.


(** *** Awaited client calls

    Each awaited call asks the environment first: the next entry of
    [faults], if there is one and it holds an error, makes the call raise
    that error and leaves the server untouched. *)
Definition await {A} (cmd : M A) : M A :=
  λ w, match faults w with
       | Some e :: rest => (Throw e, set_faults rest w)
       | None :: rest => cmd (set_faults rest w)
       | [] => cmd w
       end.

(** Reading a method off [this.client] (etc.) when the field is [null]. *)
Definition deref (field : World → option Socket) (method : string) : M unit :=
  o ← read field;
  match o with
  | Some _ => mret tt
  | None => throw (Error ("Cannot read properties of null (reading '" +:+ method +:+ "')"))
  end.

(** [await this.client.setEx(key, seconds, value)] and its siblings. *)
Definition client_setEx (key : string) (seconds : Z) (value : string) : M unit :=
  await (cmd_setEx key seconds value).
Definition client_get (key : string) : M (option string) := await (cmd_get key).
Definition client_del (key : string) : M unit := await (cmd_del key).
Definition client_hSet (key field value : string) : M unit :=
  await (cmd_hSet key field value).
Definition client_expire (key : string) (seconds : Z) : M unit :=
  await (cmd_expire key seconds).
Definition client_hDel (key field : string) : M unit := await (cmd_hDel key field).
Definition client_hGetAll (key : string) : M (list (string * string)) :=
  await (cmd_hGetAll key).
Definition client_ping : M string := await cmd_ping.
Definition publisher_publish (channel msg : string) : M unit :=
  await (cmd_publish channel msg).

(** [await subscriber.subscribe(channel, listener)] on the client that
    [this.subscriber.duplicate()] returned.  Nothing ever connects that
    client, so the command waits in its queue and is not sent: the promise
    does not settle, and what follows the [await] does not run.  The
    result says whether the promise settled. *)
Definition duplicate_subscribe (channel : string) (callback : nat) : M bool :=
  mret false.

(** [await c.connect()] and [await c.disconnect()] on the publisher or the
    subscriber, given by its setter: [init] registers no [connect] or [end]
    handler on these two. *)
Definition socket_connect (set : option Socket → World → World) : M unit :=
  await (update (set (Some Opened))).
Definition socket_disconnect (set : option Socket → World → World) : M unit :=
  await (update (set (Some Closed))).

(** ** The service *)

(** *** Constructor and connection events *)

(** The fields the constructor assigns, in an environment [env] whose
    service part is overwritten. *)
Definition construct (env : World) : World :=
  mkWorld None None None false 0 Backoff.default_maxRetries ∅
    (redis env) (subscriptions env) (delivered env) (pong env)
    (faults env) (now env) (console env).

(** The [reconnectStrategy] closure reads [this.maxRetries]. *)
Definition reconnectStrategy (w : World) (retries : Z) : Reconnect :=
  Backoff.reconnectStrategy (maxRetries w) retries.

Definition enableFallbackMode : M unit :=
  console_log "Redis fallback mode enabled - using in-memory storage";;
  update (set_isConnected false).

(** [this.client.on('error', ...)] *)
Definition on_client_error (err : Err) : M unit :=
  console_error ("Redis Client Error: " +:+ message err);;
  update (set_isConnected false);;
  enableFallbackMode.

(** [this.client.on('connect', ...)] *)
Definition on_client_connect : M unit :=
  console_log "Redis client connected";;
  update (set_isConnected true);;
  update (set_retryCount 0).

(** [this.client.on('end', ...)] *)
Definition on_client_end : M unit :=
  console_log "Redis client connection ended";;
  update (set_isConnected false);;
  enableFallbackMode.

(** [this.client.on('ready', ...)] *)
Definition on_client_ready : M unit := console_log "Redis client ready".

(** [await this.client.connect()]: when the socket opens, the client emits
    [connect] and [ready] before the promise resolves, so the two handlers
    of [init] have run by then. *)
Definition client_connect : M unit :=
  await (update (set_client (Some Opened));; on_client_connect;; on_client_ready).

(** [await this.client.disconnect()]: the client emits [end] inside the
    call, so the handler of [init] has run when the promise resolves. *)
Definition client_disconnect : M unit :=
  await (update (set_client (Some Closed));; on_client_end).

(** The closure [reconnectStrategy] as the client library calls it: it
    logs and answers. *)
Definition reconnectStrategy_call (retries : Z) : M Reconnect :=
  limit ← read maxRetries;
  if limit <? retries then
    console_error "Redis max retries exceeded";;
    mret Stop
  else
    console_log ("Redis retry attempt " +:+ pretty retries +:+ "/" +:+ pretty limit);;
    mret (RetryAfter (Z.min (retries * 100) 3000)).

(** What the client library does with the strategy once an attempt to
    reach the server has failed, by the contract of the [reconnectStrategy]
    option: it hands the strategy the number of the attempt; on a number it
    waits that many milliseconds and tries the socket again, on [false] it
    gives up for good.  A try that succeeds ends the loop like
    [client.connect()]; one that fails is attempt [retries + 1].  The
    result is [Some true] when the client is connected again, [Some false]
    when the library gave up, and [None] when [fuel] passes did not
    decide. *)
Fixpoint reconnecting (fuel : nat) (retries : Z) : M (option bool) :=
  match fuel with
  | O => mret None
  | S fuel =>
      verdict ← reconnectStrategy_call retries;
      match verdict with
      | Stop => mret (Some false)
      | RetryAfter ms =>
          update (λ w, set_now (now w + ms) w);;
          failure ← try_catch (client_connect;; mret None) (λ e, mret (Some e));
          match failure with
          | None => mret (Some true)
          | Some _ => reconnecting fuel (retries + 1)
          end
      end
  end.

(** [await Promise.all([a, b, c])]: the three calls are started, and the
    first failure, if there is one, is raised. *)
Definition attempt (m : M unit) : M (option Err) :=
  try_catch (m;; mret None) (λ e, mret (Some e)).

Definition Promise_all3 (a b c : M unit) : M unit :=
  ra ← attempt a;
  rb ← attempt b;
  rc ← attempt c;
  match ra, rb, rc with
  | Some e, _, _ => throw e
  | None, Some e, _ => throw e
  | None, None, Some e => throw e
  | None, None, None => mret tt
  end.

(** [init]: the three clients are created and connected.  The handlers it
    registers are the [on_client_*] above.  The [connect] and [ready]
    events of a successful [client.connect()] arrive inside the call;
    later events (a connection lost or regained) are delivered by the
    environment (see [Call] below). *)
Definition init : M unit :=
  try_catch
    (console_log "Initializing Redis connection...";;
     update (set_client (Some Idle));;
     update (set_publisher (Some Idle));;
     update (set_subscriber (Some Idle));;
     Promise_all3 client_connect (socket_connect set_publisher)
       (socket_connect set_subscriber);;
     console_log "All Redis connections established")
    (λ error,
       console_error ("Redis initialization failed: " +:+ message error);;
       update (set_isConnected false);;
       enableFallbackMode).

(** *** Keys *)

(** [`session:${sessionId}`] *)
Definition session_key (sessionId : string) : string := "session:" +:+ sessionId.

(** [`participants:${sessionId}`] *)
Definition participants_key (sessionId : string) : string :=
  "participants:" +:+ sessionId.

(** *** The fallback store ([Map] methods) *)

Definition fallback_get (key : string) : M (option Stored) :=
  read (λ w, fallbackStore w !! key).
Definition fallback_set (key : string) (v : Stored) : M unit :=
  update (λ w, set_fallbackStore (<[key := v]> (fallbackStore w)) w).
Definition fallback_delete (key : string) : M unit :=
  update (λ w, set_fallbackStore (delete key (fallbackStore w)) w).
Definition fallback_clear : M unit := update (set_fallbackStore ∅).

(** [Date.now()] *)
Definition Date_now : M Z := read now.

(** *** Session state *)

(** The block that appears twice in [setSessionState]:
    [this.fallbackStore.set(`session:${sessionId}`,
       { data: state, expires: Date.now() + expireSeconds * 1000 })]. *)
Definition store_session_fallback (sessionId : string) (state : Val)
    (expireSeconds : Z) : M unit :=
  t ← Date_now;
  fallback_set (session_key sessionId) (SessionEntry state (t + expireSeconds * 1000)).

(** The default of the [expireSeconds] parameter. *)
Definition default_expireSeconds : Z := 3600.

Definition setSessionState (sessionId : string) (state : Val)
    (expireSeconds : Z) : M bool :=
  try_catch
    (connected ← read isConnected;
     if negb connected then
       store_session_fallback sessionId state expireSeconds;;
       console_log ("[Fallback] Session state stored: " +:+ sessionId);;
       mret true
     else
       let key := session_key sessionId in
       deref client "setEx";;
       s ← stringify state;
       client_setEx key expireSeconds s;;
       console_log ("Session state saved: " +:+ sessionId);;
       mret true)
    (λ error,
       console_error ("Redis setSessionState error: " +:+ message error);;
       store_session_fallback sessionId state expireSeconds;;
       mret true).

(** [stored && stored.expires > Date.now()]: an array has no [expires], and
    [undefined > n] is false. *)
Definition fresh (stored : option Stored) (t : Z) : option Val :=
  match stored with
  | Some (SessionEntry d ex) => if t <? ex then Some d else None
  | Some (ParticipantList _) => None
  | Some JustNull => None
  | None => None
  end.

(** The result is [None] for JS [null]. *)
Definition getSessionState (sessionId : string) : M (option Val) :=
  try_catch
    (connected ← read isConnected;
     if negb connected then
       stored ← fallback_get (session_key sessionId);
       t ← Date_now;
       match fresh stored t with
       | Some d => mret (Some d)
       | None =>
           fallback_delete (session_key sessionId);;
           mret None
       end
     else
       let key := session_key sessionId in
       deref client "get";;
       state ← client_get key;
       match state with
       | Some s =>
           if decide (s = "") then mret None
           else v ← parse (A:=Val) s; mret (Some v)
       | None => mret None
       end)
    (λ error,
       console_error ("Redis getSessionState error: " +:+ message error);;
       stored ← fallback_get (session_key sessionId);
       t ← Date_now;
       match fresh stored t with
       | Some d => mret (Some d)
       | None => mret None
       end).

Definition deleteSessionState (sessionId : string) : M bool :=
  try_catch
    (connected ← read isConnected;
     if negb connected then
       fallback_delete (session_key sessionId);;
       console_log ("[Fallback] Session state deleted: " +:+ sessionId);;
       mret true
     else
       let key := session_key sessionId in
       deref client "del";;
       client_del key;;
       console_log ("Session state deleted: " +:+ sessionId);;
       mret true)
    (λ error,
       console_error ("Redis deleteSessionState error: " +:+ message error);;
       fallback_delete (session_key sessionId);;
       mret true).

(** *** Participants *)

(** [const stored = this.fallbackStore.get(key) || []] followed by a call of
    [stored.filter]: only an array has that method, and its callback reads
    [p.id] of every element, which raises on a [null] element. *)
Definition as_array (stored : option Stored) : M (list Participant) :=
  match stored with
  | None => mret []
  | Some (ParticipantList ps) => mret ps
  | Some JustNull => throw (Error "Cannot read properties of null (reading 'id')")
  | Some (SessionEntry _ _) => throw (Error "stored.filter is not a function")
  end.

(** [stored.filter(p => p.id !== participantId)] *)
Definition without (participantId : string) (ps : list Participant) : list Participant :=
  filter (λ p, id p ≠ participantId) ps.

(** The block that appears twice in [addParticipant]. *)
Definition add_participant_fallback (sessionId : string) (participant : Participant)
    : M unit :=
  let key := participants_key sessionId in
  stored ← fallback_get key;
  ps ← as_array stored;
  let updated := (without (id participant) ps ++ [participant])%list in
  fallback_set key (ParticipantList updated).

Definition addParticipant (sessionId : string) (participant : Participant) : M bool :=
  try_catch
    (connected ← read isConnected;
     if negb connected then
       add_participant_fallback sessionId participant;;
       console_log ("[Fallback] Participant added: " +:+ id participant
                      +:+ " to " +:+ sessionId);;
       mret true
     else
       let key := participants_key sessionId in
       deref client "hSet";;
       s ← stringify participant;
       client_hSet key (id participant) s;;
       deref client "expire";;
       client_expire key 3600;;
       console_log ("Participant added: " +:+ id participant +:+ " to " +:+ sessionId);;
       mret true)
    (λ error,
       console_error ("Redis addParticipant error: " +:+ message error);;
       add_participant_fallback sessionId participant;;
       mret true).

(** *** [addParticipant] at an argument that may be [null]

    The method is typed by its use: [participant] is an object with an
    [id].  JavaScript lets a caller pass [null] ([None] here) all the
    same. *)

(** [participant.id] *)
Definition id_of (participant : option Participant) : M string :=
  match participant with
  | Some p => mret (id p)
  | None => throw (Error "Cannot read properties of null (reading 'id')")
  end.

(** [JSON.stringify(participant)]; [JSON.stringify(null)] is ["null"]. *)
Definition stringify_any (participant : option Participant) : M string :=
  match participant with
  | Some p => stringify p
  | None => mret "null"
  end.

(** The fallback block: the callback of [filter] reads [p.id], then
    [participant.id], once per element, so an empty array is filtered
    without reading either; [push] stores whatever was passed. *)
Definition add_any_fallback (sessionId : string) (participant : option Participant)
    : M unit :=
  let key := participants_key sessionId in
  stored ← fallback_get key;
  ps ← as_array stored;
  match participant, ps with
  | Some p, _ => fallback_set key (ParticipantList (without (id p) ps ++ [p])%list)
  | None, [] => fallback_set key JustNull
  | None, _ :: _ => throw (Error "Cannot read properties of null (reading 'id')")
  end.

Definition addParticipant_any (sessionId : string) (participant : option Participant)
    : M bool :=
  try_catch
    (connected ← read isConnected;
     if negb connected then
       add_any_fallback sessionId participant;;
       i ← id_of participant;
       console_log ("[Fallback] Participant added: " +:+ i +:+ " to " +:+ sessionId);;
       mret true
     else
       let key := participants_key sessionId in
       deref client "hSet";;
       i ← id_of participant;
       s ← stringify_any participant;
       client_hSet key i s;;
       deref client "expire";;
       client_expire key 3600;;
       i' ← id_of participant;
       console_log ("Participant added: " +:+ i' +:+ " to " +:+ sessionId);;
       mret true)
    (λ error,
       console_error ("Redis addParticipant error: " +:+ message error);;
       add_any_fallback sessionId participant;;
       mret true).

(** The block that appears twice in [removeParticipant]. *)
Definition remove_participant_fallback (sessionId participantId : string) : M unit :=
  let key := participants_key sessionId in
  stored ← fallback_get key;
  ps ← as_array stored;
  let updated := without participantId ps in
  fallback_set key (ParticipantList updated).

Definition removeParticipant (sessionId participantId : string) : M bool :=
  try_catch
    (connected ← read isConnected;
     if negb connected then
       remove_participant_fallback sessionId participantId;;
       console_log ("[Fallback] Participant removed: " +:+ participantId
                      +:+ " from " +:+ sessionId);;
       mret true
     else
       let key := participants_key sessionId in
       deref client "hDel";;
       client_hDel key participantId;;
       console_log ("Participant removed: " +:+ participantId
                      +:+ " from " +:+ sessionId);;
       mret true)
    (λ error,
       console_error ("Redis removeParticipant error: " +:+ message error);;
       remove_participant_fallback sessionId participantId;;
       mret true).

(** [this.fallbackStore.get(`participants:${sessionId}`) || []]: whatever
    the map holds under the key is handed out as it is. *)
Definition participants_fallback (sessionId : string) : M Stored :=
  stored ← fallback_get (participants_key sessionId);
  match stored with
  | Some v => mret v
  | None => mret (ParticipantList [])
  end.

(** [values.map(p => JSON.parse(p))] *)
Fixpoint parse_all (values : list string) : M (list Participant) :=
  match values with
  | [] => mret []
  | v :: rest =>
      p ← parse (A:=Participant) v;
      ps ← parse_all rest;
      mret (p :: ps)
  end.

Definition getParticipants (sessionId : string) : M Stored :=
  try_catch
    (connected ← read isConnected;
     if negb connected then participants_fallback sessionId
     else
       let key := participants_key sessionId in
       deref client "hGetAll";;
       participants ← client_hGetAll key;
       ps ← parse_all (participants.*2);
       mret (ParticipantList ps))
    (λ error,
       console_error ("Redis getParticipants error: " +:+ message error);;
       participants_fallback sessionId).

(** *** Events *)

Definition publishEvent (channel event : string) (data : Val) : M bool :=
  try_catch
    (connected ← read isConnected;
     if negb connected then
       console_log ("[Fallback] Event would be published to " +:+ channel
                      +:+ ": " +:+ event);;
       mret true
     else
       t ← Date_now;
       msg ← stringify (mkEnvelope event data (toISOString t));
       deref publisher "publish";;
       publisher_publish channel msg;;
       console_log ("Event published to " +:+ channel +:+ ": " +:+ event);;
       mret true)
    (λ error,
       console_error ("Redis publishEvent error: " +:+ message error);;
       console_log ("[Fallback] Event would be published to " +:+ channel
                      +:+ ": " +:+ event);;
       mret true).

(** What [subscribeToEvents] resolves to: the literal [true], [null], or
    the duplicated subscriber client (named by the callback it serves);
    [Pending] when the promise it returned never settles. *)
Inductive Subscription := JsTrue | JsNull | Handle (callback : nat) | Pending.

Definition subscribeToEvents (channel : string) (callback : nat) : M Subscription :=
  try_catch
    (connected ← read isConnected;
     if negb connected then
       console_log ("[Fallback] Would subscribe to channel: " +:+ channel);;
       mret JsTrue
     else
       deref subscriber "duplicate";;
       settled ← duplicate_subscribe channel callback;
       if settled : bool then
         console_log ("Subscribed to channel: " +:+ channel);;
         mret (Handle callback)
       else mret Pending)
    (λ error,
       console_error ("Redis subscribeToEvents error: " +:+ message error);;
       console_log ("[Fallback] Would subscribe to channel: " +:+ channel);;
       mret JsNull).

(** *** Health and shutdown *)

Record Health := mkHealth {
  status : string;
  mode : string;
  connected : bool;
  error : option string
}.

Definition healthCheck : M Health :=
  try_catch
    (c ← read isConnected;
     if negb c then mret (mkHealth "fallback" "in-memory" false None)
     else
       deref client "ping";;
       result ← client_ping;
       c' ← read isConnected;
       mret (mkHealth (if decide (result = "PONG") then "connected" else "error")
               "redis" c' None))
    (λ e, mret (mkHealth "fallback" "in-memory" false (Some (message e)))).

(** [if (this.x) await this.x.disconnect();] *)
Definition close_if_present (field : World → option Socket) (close : M unit)
    : M unit :=
  o ← read field;
  match o with
  | Some _ => close
  | None => mret tt
  end.

Definition disconnect : M unit :=
  try_catch
    (close_if_present client client_disconnect;;
     close_if_present publisher (socket_disconnect set_publisher);;
     close_if_present subscriber (socket_disconnect set_subscriber);;
     console_log "Redis connections closed")
    (λ e, console_error ("Error closing Redis connections: " +:+ message e));;
  fallback_clear.

(** ** Histories

    A history is a sequence of calls made by the application interleaved
    with what the environment does: connection events delivered to the
    handlers, time passing, and the network deciding which of the coming
    commands fail. *)

Inductive Call :=
| CallInit
| CallSetSessionState (sessionId : string) (state : Val) (expireSeconds : Z)
| CallGetSessionState (sessionId : string)
| CallDeleteSessionState (sessionId : string)
| CallAddParticipant (sessionId : string) (participant : Participant)
| CallRemoveParticipant (sessionId participantId : string)
| CallGetParticipants (sessionId : string)
| CallPublishEvent (channel event : string) (data : Val)
| CallSubscribeToEvents (channel : string) (callback : nat)
| CallHealthCheck
| CallDisconnect
| ClientError (err : Err)
| ClientConnect
| ClientEnd
| Tick (ms : Z)
| Network (upcoming : list (option Err)).

(** The world after a computation, whatever it returned. *)
Definition after {A} (m : M A) (w : World) : World := (m w).2.

(** What a computation returned. *)
Definition result {A} (m : M A) (w : World) : outcome A := (m w).1.

Definition exec (c : Call) (w : World) : World :=
  match c with
  | CallInit => after init w
  | CallSetSessionState k v ttl => after (setSessionState k v ttl) w
  | CallGetSessionState k => after (getSessionState k) w
  | CallDeleteSessionState k => after (deleteSessionState k) w
  | CallAddParticipant s p => after (addParticipant s p) w
  | CallRemoveParticipant s pid => after (removeParticipant s pid) w
  | CallGetParticipants s => after (getParticipants s) w
  | CallPublishEvent ch ev d => after (publishEvent ch ev d) w
  | CallSubscribeToEvents ch cb => after (subscribeToEvents ch cb) w
  | CallHealthCheck => after healthCheck w
  | CallDisconnect => after disconnect w
  | ClientError e => after (on_client_error e) w
  | ClientConnect => after on_client_connect w
  | ClientEnd => after on_client_end w
  | Tick ms => set_now (now w + ms) w
  | Network fs => set_faults fs w
  end.

Definition run (history : list Call) (w : World) : World :=
  foldl (λ w c, exec c w) w history.

(** ** Predicates used by the statements *)

(** Shape invariant of the fallback store: a participants key holds an
    array. *)
Definition store_wf (m : gmap string Stored) : Prop :=
  ∀ sessionId v, m !! participants_key sessionId = Some v →
                 ∃ ps, v = ParticipantList ps.

(** A value that survives serialisation; the text is not empty. *)
Definition roundtrips {A} `{JSON A} (a : A) : Prop :=
  ∃ s, JSON_stringify a = Some s ∧ s ≠ "" ∧ JSON_parse s = Some a.

(** The network fails none of the coming commands. *)
Definition healthy (w : World) : Prop := Forall (λ f, f = None) (faults w).

(** The service is connected and its commands reach the server. *)
Definition remote_mode (w : World) : Prop :=
  isConnected w = true ∧ is_Some (client w) ∧ healthy w.

(** What the server holds for a session's participants was written by
    [addParticipant]: a hash whose field [f] holds a record of id [f]. *)
Definition remote_participants_wf (w : World) (sessionId : string) : Prop :=
  ∀ e, redis w !! participants_key sessionId = Some e →
       ∃ h, rvalue e = RHash h ∧
            ∀ f v, h !! f = Some v → ∃ p : Participant, JSON_parse v = Some p ∧ id p = f.

(** No record of that id is held for the session, in either store. *)
Definition absent (w : World) (sessionId participantId : string) : Prop :=
  (∀ ps, fallbackStore w !! participants_key sessionId = Some (ParticipantList ps) →
         Forall (λ p, id p ≠ participantId) ps) ∧
  (∀ h ex, redis w !! participants_key sessionId = Some (mkREntry (RHash h) ex) →
           h !! participantId = None).

(** A call that is none of the three ways a record of id [participantId]
    leaves the fallback collection of [sessionId]. *)
Definition keeps (sessionId participantId : string) (c : Call) : Prop :=
  match c with
  | CallRemoveParticipant s pid => ¬ (s = sessionId ∧ pid = participantId)
  | CallAddParticipant s p => ¬ (s = sessionId ∧ id p = participantId)
  | CallDisconnect => False
  | _ => True
  end.

(** The live hash the server holds under a key (empty if there is none). *)
Definition live_hash (w : World) (key : string) : gmap string string :=
  match redis_lookup w key with
  | Some (mkREntry (RHash h) _) => h
  | _ => ∅
  end.

(** The array the fallback store holds for a session (empty if none). *)
Definition fallback_participants (w : World) (sessionId : string) : list Participant :=
  match fallbackStore w !! participants_key sessionId with
  | Some (ParticipantList ps) => ps
  | _ => []
  end.

(** What [getParticipants] hands out from the fallback store. *)
Definition fallback_view (w : World) (sessionId : string) : Stored :=
  match fallbackStore w !! participants_key sessionId with
  | Some v => v
  | None => ParticipantList []
  end.

(** [values.map(p => JSON.parse(p))] without the world: [None] if one of
    the texts is malformed. *)
Fixpoint parse_list (values : list string) : option (list Participant) :=
  match values with
  | [] => Some []
  | v :: rest =>
      match JSON_parse v, parse_list rest with
      | Some p, Some ps => Some (p :: ps)
      | _, _ => None
      end
  end.

(** The value [getParticipants] resolves to, read off the world. *)
Definition participants_view (w : World) (sessionId : string) : Stored :=
  if negb (isConnected w) then fallback_view w sessionId
  else
    match client w, faults w with
    | None, _ => fallback_view w sessionId
    | Some _, Some _ :: _ => fallback_view w sessionId
    | Some _, _ =>
        match redis_lookup w (participants_key sessionId) with
        | None => ParticipantList []
        | Some (mkREntry (RHash h) _) =>
            match parse_list (map_to_list h).*2 with
            | Some ps => ParticipantList ps
            | None => fallback_view w sessionId
            end
        | Some (mkREntry (RString _) _) => fallback_view w sessionId
        end
    end.

(** A hash entry read back as a record of the id its field names. *)
Definition reads_as (fv : string * string) (p : Participant) : Prop :=
  JSON_parse fv.2 = Some p ∧ id p = fv.1.

(** The server holds no string under the key. *)
Definition not_a_string (w : World) (key : string) : Prop :=
  ∀ e, redis w !! key = Some e → ∃ h, rvalue e = RHash h.

(** A present client object has been closed. *)
Definition closed_or_absent (o : option Socket) : Prop :=
  o = None ∨ o = Some Closed.

(** ** A small program logic

    [spec I m φ throws]: started in a world satisfying the invariant [I],
    [m] either returns a value satisfying [φ] or, only if [throws] is
    [true], raises; the invariant holds afterwards in both cases. *)
Definition spec {A} (I : World → Prop) (m : M A) (φ : A → Prop) (throws : bool) : Prop :=
  ∀ w, I w →
       match m w with
       | (Ok a, w') => φ a ∧ I w'
       | (Throw _, w') => throws = true ∧ I w'
       end.

(** A property of the two stores, as a property of the world. *)
Definition world_inv (P : gmap string Stored → gmap string REntry → Prop)
    (w : World) : Prop :=
  P (fallbackStore w) (redis w).

(** A property of the fallback store alone. *)
Definition store_inv (P : gmap string Stored → Prop) : World → Prop :=
  world_inv (λ m _, P m).

(** What [addParticipant] asks of an invariant: its fallback block and its
    two commands keep it. *)
Definition add_keeps (I : World → Prop) (s : string) (p : Participant) : Prop :=
  (∀ b, spec I (add_participant_fallback s p) (λ _, True) b) ∧
  (∀ v, spec I (client_hSet (participants_key s) (id p) v) (λ _, True) true) ∧
  spec I (client_expire (participants_key s) 3600) (λ _, True) true.

(** The same for [removeParticipant]. *)
Definition remove_keeps (I : World → Prop) (s pid : string) : Prop :=
  (∀ b, spec I (remove_participant_fallback s pid) (λ _, True) b) ∧
  spec I (client_hDel (participants_key s) pid) (λ _, True) true.

(** What a step of a history asks of a property of the two stores. *)
Definition step_keeps (P : gmap string Stored → gmap string REntry → Prop)
    (c : Call) : Prop :=
  match c with
  | CallAddParticipant s p => add_keeps (world_inv P) s p
  | CallRemoveParticipant s pid => remove_keeps (world_inv P) s pid
  | CallDisconnect => ∀ m r, P m r → P ∅ r
  | _ => True
  end.

(** The invariant of the service. *)
Definition Inv : World → Prop := store_inv store_wf.

(** The fallback store holds the record in the session's array. *)
Definition holds_in (m : gmap string Stored) (sessionId : string)
    (p : Participant) : Prop :=
  ∃ ps, m !! participants_key sessionId = Some (ParticipantList ps) ∧ p ∈ ps.

(** The store is well shaped and holds the record for the session. *)
Definition held (sessionId : string) (p : Participant)
    (m : gmap string Stored) : Prop :=
  store_wf m ∧ holds_in m sessionId p.

(** What [removeParticipant] may not change for [getParticipants] to
    return the same value. *)
Definition untouched_view (w w' : World) (s : string) : Prop :=
  isConnected w' = isConnected w ∧ client w' = client w ∧ redis w' = redis w ∧
  now w' = now w ∧ fallback_view w' s = fallback_view w s.

(** A computation that leaves the fallback store alone. *)
Definition frames {A} (m : M A) : Prop :=
  ∀ w, fallbackStore (m w).2 = fallbackStore w.

(** A computation that leaves both stores alone. *)
Definition silent {A} (m : M A) : Prop :=
  ∀ w, fallbackStore (m w).2 = fallbackStore w ∧ redis (m w).2 = redis w.

(** A call that does not add a record of id [participantId] to
    [sessionId]. *)
Definition not_adding (sessionId participantId : string) (c : Call) : Prop :=
  match c with
  | CallAddParticipant s p => ¬ (s = sessionId ∧ id p = participantId)
  | _ => True
  end.

(** The two stores are well shaped and hold no record of that id for the
    session. *)
Definition unadded (sessionId participantId : string)
    (m : gmap string Stored) (r : gmap string REntry) : Prop :=
  store_wf m ∧
  (∀ ps, m !! participants_key sessionId = Some (ParticipantList ps) →
         Forall (λ p, id p ≠ participantId) ps) ∧
  (∀ h ex, r !! participants_key sessionId = Some (mkREntry (RHash h) ex) →
           h !! participantId = None).

(** ** Components of the world, for the properties of whole histories *)

(** What the service knows about its connection. *)
Definition link (w : World)
    : bool * option Socket * option Socket * option Socket * Z * Z :=
  (isConnected w, client w, publisher w, subscriber w, retryCount w, maxRetries w).

(** What only the environment decides: the clock and the probe reply. *)
Definition ambient (w : World) : Z * string := (now w, pong w).

(** Everything beyond the process: the keys of the server, the
    subscriptions, the callbacks invoked so far and the network schedule. *)
Definition wire (w : World)
    : gmap string REntry * list (string * nat) * list (nat * Envelope)
      * list (option Err) :=
  (redis w, subscriptions w, delivered w, faults w).

(** A computation that leaves a component [f] of the world alone. *)
Definition preserves {A B} (f : World → B) (m : M A) : Prop :=
  ∀ w, f (m w).2 = f w.

(** A component that reads neither the console, nor the network schedule,
    nor the two stores, nor the subscriptions and deliveries. *)
Definition beside_data {B} (f : World → B) : Prop :=
  (∀ x w, f (set_console x w) = f w) ∧
  (∀ x w, f (set_faults x w) = f w) ∧
  (∀ x w, f (set_redis x w) = f w) ∧
  (∀ x w, f (set_fallbackStore x w) = f w) ∧
  (∀ x w, f (set_subscriptions x w) = f w) ∧
  (∀ x w, f (set_delivered x w) = f w).

(** The ten methods a caller of the service uses for data and events. *)
Definition is_data_call (c : Call) : Prop :=
  match c with
  | CallSetSessionState _ _ _ | CallGetSessionState _ | CallDeleteSessionState _
  | CallAddParticipant _ _ | CallRemoveParticipant _ _ | CallGetParticipants _
  | CallPublishEvent _ _ _ | CallSubscribeToEvents _ _ | CallHealthCheck => True
  | _ => False
  end.

(** The value [getSessionState] resolves to, read off the world. *)
Definition session_view (w : World) (sessionId : string) : option Val :=
  let local := fresh (fallbackStore w !! session_key sessionId) (now w) in
  if negb (isConnected w) then local
  else
    match client w, faults w with
    | None, _ => local
    | Some _, Some _ :: _ => local
    | Some _, _ =>
        match redis_lookup w (session_key sessionId) with
        | None => None
        | Some (mkREntry (RString s) _) =>
            if decide (s = "") then None
            else match JSON_parse s with
                 | Some v => Some v
                 | None => local
                 end
        | Some (mkREntry (RHash _) _) => local
        end
    end.

(** The ids of every array of the fallback store are pairwise distinct. *)
Definition unique_ids (m : gmap string Stored) : Prop :=
  store_wf m ∧
  ∀ s ps, m !! participants_key s = Some (ParticipantList ps) → NoDup (id <$> ps).

(** The two stores agree with given values at one key. *)
Definition pinned (key : string) (a : option Stored) (b : option REntry)
    (m : gmap string Stored) (r : gmap string REntry) : Prop :=
  m !! key = a ∧ r !! key = b.

(** A data call other than [addParticipant] and [removeParticipant] on the
    session. *)
Definition leaves_participants (sessionId : string) (c : Call) : Prop :=
  is_data_call c ∧
  match c with
  | CallAddParticipant s _ | CallRemoveParticipant s _ => s ≠ sessionId
  | _ => True
  end.

(** A data call other than the three session-state methods on the session. *)
Definition leaves_session (sessionId : string) (c : Call) : Prop :=
  is_data_call c ∧
  match c with
  | CallSetSessionState k _ _ | CallGetSessionState k | CallDeleteSessionState k =>
      k ≠ sessionId
  | _ => True
  end.

(** The same in a fallback store that has the shape the service gives it. *)
Definition wf_pinned (key : string) (a : option Stored) (b : option REntry)
    (m : gmap string Stored) (r : gmap string REntry) : Prop :=
  store_wf m ∧ pinned key a b m r.

(** How many of the three client objects exist: the number of closes
    [disconnect] has to make. *)
Definition clients_present (w : World) : nat :=
  length (omap (λ o : option Socket, o) [client w; publisher w; subscriber w]).


End Operations.

(** ** A concrete instance

    Session state is a flag; a participant is serialised as a one-letter
    tag for its flag followed by its id, an envelope as the tag, the event
    name, a [@] and the timestamp. *)

Module Sample.

#[export] Instance JSON_bool : JSON bool := {|
  JSON_stringify (b : bool) := Some (if b then "true" else "false");
  JSON_parse s :=
    if decide (s = "true") then Some true
    else if decide (s = "false") then Some false
    else None
|}.

Definition tag (b : bool) : string := if b then "T" else "F".

Definition untag (s : string) : option (bool * string) :=
  match s with
  | String c rest =>
      if decide (String c "" = "T") then Some (true, rest)
      else if decide (String c "" = "F") then Some (false, rest)
      else None
  | EmptyString => None
  end.

#[export] Instance JSON_participant : JSON (Participant bool) := {|
  JSON_stringify (p : Participant bool) := Some (tag (fields p) +:+ id p);
  JSON_parse s :=
    match untag s with
    | Some (b, rest) => Some (mkParticipant rest b)
    | None => None
    end
|}.

(** Splits a string at its first [@]. *)
Fixpoint split_at (s : string) : option (string * string) :=
  match s with
  | EmptyString => None
  | String c rest =>
      if decide (String c "" = "@") then Some (EmptyString, rest)
      else match split_at rest with
           | Some (l, r) => Some (String c l, r)
           | None => None
           end
  end.

#[export] Instance JSON_envelope : JSON (Envelope bool) := {|
  JSON_stringify (e : Envelope bool) := Some (tag (data e) +:+ event e +:+ "@" +:+ timestamp e);
  JSON_parse s :=
    match untag s with
    | Some (b, rest) =>
        match split_at rest with
        | Some (ev, ts) => Some (mkEnvelope ev b ts)
        | None => None
        end
    | None => None
    end
|}.

(** A stand-in for [toISOString]: the decimal rendering of the clock. *)
Definition clock_string (t : Z) : string := pretty t.

(** An environment with an empty server, no subscriber, a healthy network,
    and the clock at one second. *)
Definition quiet : World bool :=
  mkWorld None None None false 0 0 ∅ ∅ [] [] "PONG" [] 1000 [].

(** A freshly constructed service: disconnected, empty fallback store. *)
Definition offline : World bool := construct quiet.

(** The same service once its three clients are connected. *)
Definition online : World bool :=
  set_isConnected true
    (set_client (Some Opened)
       (set_publisher (Some Opened)
          (set_subscriber (Some Opened) offline))).

Definition alice : Participant bool := mkParticipant "p1" true.
Definition alice' : Participant bool := mkParticipant "p1" false.
Definition bob : Participant bool := mkParticipant "p2" true.

(** A connected service whose next command fails. *)
Definition flaky : World bool := set_faults [Some (Error "ECONNRESET")] online.

(** A disconnected service holding [bob] for session [s]. *)
Definition with_bob : World bool :=
  set_fallbackStore (<[participants_key "s" := ParticipantList [bob]]> ∅) offline.

(** A connected service whose fallback store holds an entry for [abc] that
    expired half a second ago, and whose next command fails. *)
Definition stale : World bool :=
  set_fallbackStore (<[session_key "abc" := SessionEntry true 500]> ∅) flaky.

(** A day of activity that neither removes nor replaces [p1] in session
    [s] and does not shut the service down. *)
Definition busy_day : list (Call (Val:=bool)) :=
  [ CallInit;
    Tick 86400000;
    CallAddParticipant "s" bob;
    CallAddParticipant "t" alice';
    CallRemoveParticipant "s" "p2";
    CallRemoveParticipant "t" "p1";
    CallSetSessionState "s" true 1;
    Tick 5000;
    CallGetSessionState "s";
    CallDeleteSessionState "s";
    ClientConnect;
    Network [Some (Error "ECONNRESET"); None; Some (Error "ETIMEDOUT")];
    CallAddParticipant "s" bob;
    CallGetParticipants "s";
    CallRemoveParticipant "s" "p2";
    CallPublishEvent "room" "joined" true;
    CallSubscribeToEvents "room" 7;
    CallHealthCheck;
    ClientError (Error "Socket closed unexpectedly");
    ClientEnd ].

(** A connected service whose next two commands fail. *)
Definition outage : World bool :=
  set_faults [Some (Error "ECONNRESET"); Some (Error "ETIMEDOUT")] online.

(** A connected service whose next command succeeds and whose second
    fails. *)
Definition half_open : World bool :=
  set_faults [None; Some (Error "ETIMEDOUT")] online.

(** A service with its three clients in place whose flag has dropped. *)
Definition dropped : World bool := set_isConnected false online.

(** A connected service with three subscriptions, two of them on [room]. *)
Definition listening : World bool :=
  set_subscriptions [("room", 7%nat); ("lobby", 8%nat); ("room", 9%nat)] online.

(** A history without [init] and without a [connect] event. *)
Definition no_link : list (Call (Val:=bool)) :=
  [ CallSetSessionState "abc" true 10;
    CallAddParticipant "s" alice;
    CallPublishEvent "room" "joined" true;
    CallSubscribeToEvents "room" 7;
    Network [None; Some (Error "ETIMEDOUT")];
    CallGetSessionState "abc";
    ClientError (Error "Socket closed unexpectedly");
    Tick 60000;
    CallHealthCheck;
    ClientEnd;
    CallDisconnect ].

(** Calls that neither add to nor remove from the participants of [s], nor
    name the session state of [abc]. *)
Definition elsewhere : list (Call (Val:=bool)) :=
  [ CallAddParticipant "t" alice;
    CallSetSessionState "s" true 10;
    CallRemoveParticipant "t" "p2";
    CallGetParticipants "s";
    CallGetSessionState "s";
    CallPublishEvent "room" "joined" true;
    CallSubscribeToEvents "room" 7;
    CallDeleteSessionState "t";
    CallHealthCheck ].

(** A disconnected service holding [bob] and [alice] for session [s]. *)
Definition with_pair : World bool :=
  set_fallbackStore (<[participants_key "s" := ParticipantList [bob; alice]]> ∅) offline.

(** A connected service whose server holds [alice] and [bob] for session
    [s], in a hash that expires at five seconds. *)
Definition seated : World bool :=
  set_redis
    (<[participants_key "s" :=
         mkREntry (RHash (<["p1" := "Tp1"]> (<["p2" := "Tp2"]> ∅))) (Some 5000)]> ∅)
    online.

(** The same with the next command succeeding and the one after it
    failing. *)
Definition seated_half_open : World bool :=
  set_faults [None; Some (Error "ETIMEDOUT")] seated.

(** A service in fallback mode whose five coming connection attempts
    fail. *)
Definition unreachable : World bool :=
  set_faults (replicate 5 (Some (Error "ECONNREFUSED"))) offline.

(** A service whose [init] could not connect: the three client objects
    exist, none is open, and closing the first fails. *)
Definition never_opened : World bool :=
  set_faults [Some (Error "The client is closed")]
    (set_client (Some Idle) (set_publisher (Some Idle) (set_subscriber (Some Idle) offline))).

(** *** A second instance: values that do not survive serialisation

    A [Date] is written as its ISO text and read back as a string. *)
Inductive Js := JsString (s : string) | JsDate (iso : string).

Definition js_text (v : Js) : string :=
  match v with JsString s | JsDate s => s end.

#[export] Instance JSON_js : JSON Js := {|
  JSON_stringify (v : Js) := Some ("'" +:+ js_text v);
  JSON_parse s :=
    match s with
    | String _ rest => Some (JsString rest)
    | EmptyString => None
    end
|}.

#[export] Instance JSON_participant_js : JSON (Participant Js) := {|
  JSON_stringify (p : Participant Js) := Some (id p +:+ "@" +:+ js_text (fields p));
  JSON_parse s :=
    match split_at s with
    | Some (i, rest) => Some (mkParticipant i (JsString rest))
    | None => None
    end
|}.

(** A connected service over these values, with an empty server. *)
Definition online_js : World Js :=
  set_isConnected true
    (set_client (Some Opened)
       (set_publisher (Some Opened)
          (set_subscriber (Some Opened)
             (construct (mkWorld None None None false 0 0 ∅ ∅ [] [] "PONG" [] 1000 []))))).

Definition new_year : Js := JsDate "2024-01-01T00:00:00.000Z".
Definition joined_early : Participant Js := mkParticipant "p1" new_year.
Definition joined_late : Participant Js :=
  mkParticipant "p1" (JsDate "2024-06-30T12:00:00.000Z").

End Sample.


(** * Properties *)

Section Properties.

Context {Val : Type}.
Context `{JSON_Val : JSON Val}.
Context `{JSON_Participant : JSON (Participant Val)}.
Context `{JSON_Envelope : JSON (Envelope Val)}.
Context (toISOString : Z → string).

#[local] Abbreviation World := (World Val).
#[local] Abbreviation M := (M Val).
#[local] Abbreviation Participant := (Participant Val).
#[local] Abbreviation Stored := (Stored Val).
#[local] Abbreviation Inv := (@Inv Val).

(** ** Keys never collide *)

Lemma session_key_not_participants a b : session_key a ≠ participants_key b.
Proof. unfold session_key, participants_key. simpl. discriminate. Qed.

Lemma participants_key_inj a b : participants_key a = participants_key b → a = b.
Proof. unfold participants_key. intros Heq. by simplify_eq/=. Qed.

Lemma session_key_inj a b : session_key a = session_key b → a = b.
Proof. unfold session_key. intros Heq. by simplify_eq/=. Qed.

(** ** Rules of the program logic *)

Lemma spec_ret {A} (I : World → Prop) (a : A) (φ : A → Prop) b :
  φ a → spec I (mret a) φ b.
Proof. intros Ha w Hw. cbn. auto. Qed.

Lemma spec_bind {A B} (I : World → Prop) (m : M A) (k : A → M B) ψ φ b :
  spec I m ψ b → (∀ a, ψ a → spec I (k a) φ b) → spec I (m ≫= k) φ b.
Proof.
  intros Hm Hk w Hw. unfold mbind, M_bind, bind.
  specialize (Hm w Hw). destruct (m w) as [[a|e] w'].
  - destruct Hm as [Ha Hw']. by apply Hk.
  - done.
Qed.

Lemma spec_try_catch {A} (I : World → Prop) (body : M A) handler φ b :
  spec I body φ true → (∀ e, spec I (handler e) φ b) →
  spec I (try_catch body handler) φ b.
Proof.
  intros Hb Hh w Hw. unfold try_catch.
  specialize (Hb w Hw). destruct (body w) as [[a|e] w'].
  - done.
  - destruct Hb as [_ Hw']. by apply Hh.
Qed.

Lemma spec_after {A} (I : World → Prop) (m : M A) φ b w :
  spec I m φ b → I w → I (after m w).
Proof.
  intros Hm Hw. specialize (Hm w Hw). unfold after.
  destruct (m w) as [[a|e] w']; apply Hm.
Qed.

Lemma spec_result {A} (I : World → Prop) (m : M A) φ w :
  spec I m φ false → I w → ∃ a, result m w = Ok a ∧ φ a.
Proof.
  intros Hm Hw. specialize (Hm w Hw). unfold result.
  destruct (m w) as [[a|e] w']; destruct Hm as [Ha _]; [|done].
  exists a. by split.
Qed.

(** ** Computations that leave the fallback store alone *)

(** Unfolds the monad and the primitive computations. *)
Ltac unfold_m :=
  cbv beta iota zeta delta [mbind M_bind bind mret M_ret ret read update throw
    try_catch fallback_get fallback_set fallback_delete fallback_clear as_array
    Date_now console_log console_error store_session_fallback
    add_participant_fallback remove_participant_fallback participants_fallback
    fst snd after result].

Ltac red_m := cbn [negb]; cbv beta iota zeta.

Ltac proj_m :=
  cbn [client publisher subscriber isConnected retryCount maxRetries fallbackStore
       redis subscriptions delivered pong faults now console
       set_client set_publisher set_subscriber set_isConnected set_retryCount
       set_fallbackStore set_redis set_subscriptions set_delivered set_faults
       set_now set_console].

Ltac frame_tac :=
  intros w; cbv beta delta [await console_log console_error update read
    cmd_setEx cmd_get cmd_del cmd_hSet cmd_expire cmd_hDel cmd_hGetAll cmd_ping
    deref throw mbind M_bind bind mret M_ret ret
    stringify parse Date_now];
  repeat (case_match || case_decide); simplify_eq/=; try done.

Lemma silent_deref f n : silent (Val:=Val) (deref f n).
Proof. frame_tac. Qed.
Lemma silent_stringify {A} `{JSON A} (a : A) : silent (stringify (Val:=Val) a).
Proof. frame_tac. Qed.
Lemma silent_parse {A} `{JSON A} s : silent (parse (Val:=Val) (A:=A) s).
Proof. frame_tac. Qed.
Lemma silent_client_get k : silent (Val:=Val) (client_get k).
Proof. unfold client_get. frame_tac. Qed.
Lemma silent_client_hGetAll k : silent (Val:=Val) (client_hGetAll k).
Proof. unfold client_hGetAll. frame_tac. Qed.
Lemma silent_client_ping : silent (Val:=Val) client_ping.
Proof. unfold client_ping. frame_tac. Qed.
Lemma silent_duplicate_subscribe c cb : silent (Val:=Val) (duplicate_subscribe c cb).
Proof. by intros w. Qed.

(** The commands that write to a participants key of the server leave the
    fallback store alone. *)
Lemma frames_client_hSet k f v : frames (Val:=Val) (client_hSet k f v).
Proof. unfold client_hSet. frame_tac. Qed.
Lemma frames_client_expire k t : frames (Val:=Val) (client_expire k t).
Proof. unfold client_expire. frame_tac. Qed.
Lemma frames_client_hDel k f : frames (Val:=Val) (client_hDel k f).
Proof.
  unfold client_hDel. frame_tac.
  all: destruct (decide (delete f h = ∅)); reflexivity.
Qed.

Lemma silent_parse_all vs : silent (Val:=Val) (parse_all vs).
Proof.
  intros w. revert w. induction vs as [|v vs IH]; intros w; [done|].
  cbn [parse_all]. unfold parse. unfold_m.
  destruct (JSON_parse v) as [p|]; [|done].
  specialize (IH w). by destruct (parse_all vs w) as [[ps|e] w'].
Qed.

Lemma silent_deliver subs channel msg : silent (Val:=Val) (deliver subs channel msg).
Proof.
  induction subs as [|[ch cb] subs IH]; intros w; [done|].
  cbn [deliver]. unfold listener, parse. unfold_m.
  case_decide; [destruct (JSON_parse msg) as [env|]|];
    match goal with
    | |- context [deliver subs channel msg ?w'] => destruct (IH w') as [Hf Hr]
    end;
    (split; [etrans; [exact Hf|done] | etrans; [exact Hr|done]]).
Qed.

Lemma silent_publisher_publish channel msg :
  silent (Val:=Val) (publisher_publish channel msg).
Proof.
  intros w. unfold publisher_publish, await, cmd_publish. unfold_m.
  destruct (faults w) as [|[e|] fs]; [|done|];
    match goal with
    | |- context [deliver ?subs channel msg ?w'] =>
        destruct (silent_deliver subs channel msg w') as [Hf Hr]
    end;
    (split; [etrans; [exact Hf|done] | etrans; [exact Hr|done]]).
Qed.

Lemma silent_close_client :
  silent (Val:=Val) (close_if_present client client_disconnect).
Proof.
  unfold close_if_present, client_disconnect, on_client_end, enableFallbackMode.
  frame_tac.
Qed.
Lemma silent_close_publisher :
  silent (Val:=Val) (close_if_present publisher (socket_disconnect set_publisher)).
Proof. unfold close_if_present, socket_disconnect. frame_tac. Qed.
Lemma silent_close_subscriber :
  silent (Val:=Val) (close_if_present subscriber (socket_disconnect set_subscriber)).
Proof. unfold close_if_present, socket_disconnect. frame_tac. Qed.

Lemma silent_init : silent (Val:=Val) init.
Proof.
  intros w. unfold init, Promise_all3, attempt, client_connect, socket_connect,
    await, on_client_connect, on_client_ready, enableFallbackMode.
  unfold_m. proj_m.
  destruct (faults w) as [|[e1|] [|[e2|] [|[e3|] fs]]] eqn:Hf;
    repeat (progress (red_m; proj_m; rewrite ?Hf)); done.
Qed.

(** ** Invariants of the two stores

    The methods are verified once against any property [P] of the fallback
    store and the server that survives a write or a delete under a
    [session:] key; what the participant blocks and commands do to [P] is
    asked of the caller. *)

Section WorldInvariant.

Variable P : gmap string Stored → gmap string REntry → Prop.
Hypothesis P_insert_session : ∀ m r k v, P m r → P (<[session_key k := v]> m) r.
Hypothesis P_delete_session : ∀ m r k, P m r → P (delete (session_key k) m) r.
Hypothesis P_server_insert_session :
  ∀ m r k e, P m r → P m (<[session_key k := e]> r).
Hypothesis P_server_delete_session : ∀ m r k, P m r → P m (delete (session_key k) r).

#[local] Abbreviation I := (world_inv (Val:=Val) P).

Lemma spec_silent {A} (m : M A) : silent m → spec I m (λ _, True) true.
Proof.
  intros Hm w Hw. destruct (Hm w) as [Hf Hr]. unfold world_inv in *.
  destruct (m w) as [[a|e] w']; simpl in *; by rewrite Hf, Hr.
Qed.

Lemma spec_console_log msg b : spec I (console_log msg) (λ _, True) b.
Proof. intros w Hw. by unfold_m. Qed.

Lemma spec_console_error msg b : spec I (console_error msg) (λ _, True) b.
Proof. intros w Hw. by unfold_m. Qed.

Lemma spec_read {A} (f : World → A) b : spec I (read f) (λ _, True) b.
Proof. intros w Hw. by unfold_m. Qed.

Lemma spec_fallback_get k b : spec I (fallback_get k) (λ _, True) b.
Proof. intros w Hw. by unfold_m. Qed.

Lemma spec_Date_now b : spec I Date_now (λ _, True) b.
Proof. intros w Hw. by unfold_m. Qed.

Lemma spec_fallback_delete_session k b :
  spec I (fallback_delete (session_key k)) (λ _, True) b.
Proof. intros w Hw. unfold_m. split; [done|]. by apply P_delete_session. Qed.

Lemma spec_store_session_fallback k v ttl b :
  spec I (store_session_fallback k v ttl) (λ _, True) b.
Proof. intros w Hw. unfold_m. split; [done|]. by apply P_insert_session. Qed.

Lemma spec_client_setEx_session k ttl v :
  spec I (client_setEx (session_key k) ttl v) (λ _, True) true.
Proof.
  intros w Hw. unfold client_setEx, await, cmd_setEx, world_inv in *.
  destruct (faults w) as [|[e|] fs]; red_m; [|done|];
    destruct (ttl <=? 0); red_m; proj_m; (split; [done|]); try done;
    by apply P_server_insert_session.
Qed.

Lemma spec_client_del_session k :
  spec I (client_del (session_key k)) (λ _, True) true.
Proof.
  intros w Hw. unfold client_del, await, cmd_del, world_inv in *. unfold_m.
  destruct (faults w) as [|[e|] fs]; red_m; proj_m; (split; [done|]); try done;
    by apply P_server_delete_session.
Qed.

Create HintDb spec discriminated.
#[local] Hint Resolve spec_console_log spec_console_error spec_read
  spec_fallback_get spec_Date_now spec_fallback_delete_session
  spec_store_session_fallback spec_client_setEx_session
  spec_client_del_session : spec.
#[local] Hint Extern 1 (spec _ _ _ true) =>
  apply spec_silent;
  first [ apply silent_deref | apply silent_stringify | apply silent_parse
        | apply silent_client_get | apply silent_client_hGetAll
        | apply silent_client_ping | apply silent_duplicate_subscribe
        | apply silent_parse_all | apply silent_publisher_publish
        | apply silent_close_client | apply silent_close_publisher
        | apply silent_close_subscriber ] : spec.

Ltac spec_step :=
  lazymatch goal with
  | |- spec _ (try_catch _ _) _ _ => apply spec_try_catch; [| intros ?]
  | |- spec _ (mret _) _ _ => apply spec_ret; by eauto
  | |- spec _ (_ ≫= _) _ _ => eapply spec_bind; [by eauto with spec | intros ? ?]
  | |- spec _ (if negb ?c then _ else _) _ _ => destruct c; cbn [negb]
  | |- spec _ (if decide ?P then _ else _) _ _ => destruct (decide P)
  | |- spec _ (match ?x with _ => _ end) _ _ => destruct x
  | |- spec _ _ _ _ => by eauto with spec
  end.

Lemma setSessionState_spec k v ttl :
  spec I (setSessionState k v ttl) (λ r, r = true) false.
Proof. unfold setSessionState. cbn zeta. repeat spec_step. Qed.

Lemma getSessionState_spec k : spec I (getSessionState k) (λ _, True) false.
Proof. unfold getSessionState. cbn zeta. repeat spec_step. Qed.

Lemma deleteSessionState_spec k :
  spec I (deleteSessionState k) (λ r, r = true) false.
Proof. unfold deleteSessionState. cbn zeta. repeat spec_step. Qed.

Lemma addParticipant_spec s p :
  add_keeps I s p → spec I (addParticipant s p) (λ r, r = true) false.
Proof.
  intros (Hblock & HhSet & Hexpire). unfold addParticipant. cbn zeta.
  repeat spec_step.
Qed.

Lemma removeParticipant_spec s pid :
  remove_keeps I s pid → spec I (removeParticipant s pid) (λ r, r = true) false.
Proof.
  intros (Hblock & HhDel). unfold removeParticipant. cbn zeta. repeat spec_step.
Qed.

Lemma getParticipants_spec s (φ : Stored → Prop) :
  (∀ ps, φ (ParticipantList ps)) →
  (∀ b, spec I (participants_fallback s) φ b) →
  spec I (getParticipants s) φ false.
Proof. intros Hφ Hblock. unfold getParticipants. cbn zeta. repeat spec_step. Qed.

Lemma publishEvent_spec channel ev d :
  spec I (publishEvent toISOString channel ev d) (λ r, r = true) false.
Proof. unfold publishEvent. cbn zeta. repeat spec_step. Qed.

Lemma subscribeToEvents_spec channel cb :
  spec I (subscribeToEvents channel cb) (λ _, True) false.
Proof. unfold subscribeToEvents. cbn zeta. repeat spec_step. Qed.

Lemma healthCheck_spec : spec I healthCheck (λ _, True) false.
Proof. unfold healthCheck. cbn zeta. repeat spec_step. Qed.

Lemma disconnect_spec :
  (∀ m r, P m r → P ∅ r) → spec I disconnect (λ _, True) false.
Proof.
  intros Hempty. unfold disconnect.
  eapply spec_bind with (ψ := λ _, True).
  - repeat spec_step.
  - intros _ _ w Hw. unfold_m. split; [done|]. by eapply Hempty.
Qed.

(** [init] and the connection handlers only touch the client objects, the
    flag, the counter and the console. *)
Lemma init_after w : I w → I (after init w).
Proof.
  intros Hw. destruct (silent_init w) as [Hf Hr].
  unfold world_inv, after in *. by rewrite Hf, Hr.
Qed.
Lemma on_client_error_spec e : spec I (on_client_error e) (λ _, True) false.
Proof. intros w Hw. unfold on_client_error, enableFallbackMode. by unfold_m. Qed.
Lemma on_client_connect_spec : spec I on_client_connect (λ _, True) false.
Proof. intros w Hw. unfold on_client_connect. by unfold_m. Qed.
Lemma on_client_end_spec : spec I on_client_end (λ _, True) false.
Proof. intros w Hw. unfold on_client_end, enableFallbackMode. by unfold_m. Qed.

(** A step of a history keeps the property. *)
Lemma exec_world_inv c w : step_keeps P c → I w → I (exec toISOString c w).
Proof.
  intros Hc Hw. destruct c; cbn [exec step_keeps] in *.
  - by apply init_after.
  - eapply spec_after; [apply setSessionState_spec|exact Hw].
  - eapply spec_after; [apply getSessionState_spec|exact Hw].
  - eapply spec_after; [apply deleteSessionState_spec|exact Hw].
  - eapply spec_after; [apply addParticipant_spec, Hc|exact Hw].
  - eapply spec_after; [apply removeParticipant_spec, Hc|exact Hw].
  - eapply spec_after; [|exact Hw].
    apply getParticipants_spec with (φ := λ _, True); [done|].
    intros b w' Hw'. unfold_m. by destruct (fallbackStore w' !! _).
  - eapply spec_after; [apply publishEvent_spec|exact Hw].
  - eapply spec_after; [apply subscribeToEvents_spec|exact Hw].
  - eapply spec_after; [apply healthCheck_spec|exact Hw].
  - eapply spec_after; [apply disconnect_spec, Hc|exact Hw].
  - eapply spec_after; [apply on_client_error_spec|exact Hw].
  - eapply spec_after; [apply on_client_connect_spec|exact Hw].
  - eapply spec_after; [apply on_client_end_spec|exact Hw].
  - exact Hw.
  - exact Hw.
Qed.

Lemma run_world_inv history w :
  Forall (step_keeps P) history → I w → I (run toISOString history w).
Proof.
  intros Hk. revert w. induction Hk as [|c cs Hc _ IH]; intros w Hw; [done|].
  cbn. apply IH. by apply exec_world_inv.
Qed.

End WorldInvariant.

(** ** Invariants of the fallback store alone *)

Section StoreInvariant.

Variable P : gmap string Stored → Prop.
Hypothesis P_insert_session : ∀ m k v, P m → P (<[session_key k := v]> m).
Hypothesis P_delete_session : ∀ m k, P m → P (delete (session_key k) m).

#[local] Abbreviation I := (store_inv (Val:=Val) P).

(** Whatever leaves the fallback store alone keeps such a property. *)
Lemma spec_frames {A} (m : M A) : frames m → spec I m (λ _, True) true.
Proof.
  intros Hm w Hw. specialize (Hm w). unfold store_inv, world_inv in *.
  destruct (m w) as [[a|e] w']; simpl in *; by rewrite Hm.
Qed.

Lemma add_keeps_store s p :
  (∀ b, spec I (add_participant_fallback s p) (λ _, True) b) →
  add_keeps I s p.
Proof.
  intros Hblock. split; [done|]. split.
  - intros v. apply spec_frames, frames_client_hSet.
  - apply spec_frames, frames_client_expire.
Qed.

Lemma remove_keeps_store s pid :
  (∀ b, spec I (remove_participant_fallback s pid) (λ _, True) b) →
  remove_keeps I s pid.
Proof.
  intros Hblock. split; [done|]. apply spec_frames, frames_client_hDel.
Qed.

Lemma setSessionState_store k v ttl :
  spec I (setSessionState k v ttl) (λ r, r = true) false.
Proof. apply setSessionState_spec; auto. Qed.

Lemma getSessionState_store k : spec I (getSessionState k) (λ _, True) false.
Proof. apply getSessionState_spec; auto. Qed.

Lemma deleteSessionState_store k :
  spec I (deleteSessionState k) (λ r, r = true) false.
Proof. apply deleteSessionState_spec; auto. Qed.

Lemma addParticipant_store s p :
  (∀ b, spec I (add_participant_fallback s p) (λ _, True) b) →
  spec I (addParticipant s p) (λ r, r = true) false.
Proof. intros Hblock. by apply addParticipant_spec, add_keeps_store. Qed.

Lemma removeParticipant_store s pid :
  (∀ b, spec I (remove_participant_fallback s pid) (λ _, True) b) →
  spec I (removeParticipant s pid) (λ r, r = true) false.
Proof. intros Hblock. by apply removeParticipant_spec, remove_keeps_store. Qed.

(** A step of a history keeps the property, provided the participant
    blocks it runs and the final clearing of [disconnect] do. *)
Lemma exec_store_inv c w :
  match c with
  | CallAddParticipant s p => ∀ b, spec I (add_participant_fallback s p) (λ _, True) b
  | CallRemoveParticipant s pid =>
      ∀ b, spec I (remove_participant_fallback s pid) (λ _, True) b
  | CallDisconnect => P ∅
  | _ => True
  end →
  I w → I (exec toISOString c w).
Proof.
  intros Hc. apply exec_world_inv; auto.
  destruct c; cbn [step_keeps]; try exact Logic.I.
  - by apply add_keeps_store.
  - by apply remove_keeps_store.
  - auto.
Qed.

End StoreInvariant.

(** ** The shape invariant is kept and nothing escapes *)

Lemma store_wf_insert_session (m : gmap string Stored) k v :
  store_wf m → store_wf (<[session_key k := v]> m).
Proof.
  intros Hm s x. rewrite lookup_insert_ne; [apply Hm|].
  apply session_key_not_participants.
Qed.

Lemma store_wf_insert_list (m : gmap string Stored) k ps :
  store_wf m → store_wf (<[k := ParticipantList ps]> m).
Proof.
  intros Hm s x. destruct (decide (k = participants_key s)) as [->|Hne].
  - rewrite lookup_insert_eq. intros [= <-]. by exists ps.
  - rewrite lookup_insert_ne; [apply Hm | done].
Qed.

Lemma store_wf_delete (m : gmap string Stored) k : store_wf m → store_wf (delete k m).
Proof.
  intros Hm s x Hx. apply (Hm s).
  by apply lookup_delete_Some in Hx as [_ Hx].
Qed.

Lemma store_wf_empty : store_wf (∅ : gmap string Stored).
Proof. intros s x. by rewrite lookup_empty. Qed.

Lemma store_wf_delete_session (m : gmap string Stored) (k : string) :
  store_wf m → store_wf (delete (session_key k) m).
Proof. apply store_wf_delete. Qed.

(** Under the invariant [stored.filter] is always called on an array. *)
Lemma Inv_add_participant_fallback s p b :
  spec Inv (add_participant_fallback s p) (λ _, True) b.
Proof.
  intros w Hw. unfold_m.
  destruct (fallbackStore w !! participants_key s) as [[d ex|ps|]|] eqn:Hs; cbn.
  - destruct (Hw _ _ Hs) as [ps Hps]. discriminate.
  - split; [done|]. by apply store_wf_insert_list.
  - destruct (Hw _ _ Hs) as [ps Hps]. discriminate.
  - split; [done|]. by apply store_wf_insert_list.
Qed.

Lemma Inv_remove_participant_fallback s pid b :
  spec Inv (remove_participant_fallback s pid) (λ _, True) b.
Proof.
  intros w Hw. unfold_m.
  destruct (fallbackStore w !! participants_key s) as [[d ex|ps|]|] eqn:Hs; cbn.
  - destruct (Hw _ _ Hs) as [ps Hps]. discriminate.
  - split; [done|]. by apply store_wf_insert_list.
  - destruct (Hw _ _ Hs) as [ps Hps]. discriminate.
  - split; [done|]. by apply store_wf_insert_list.
Qed.

Lemma Inv_participants_fallback s b :
  spec Inv (participants_fallback s) (λ r, ∃ ps, r = ParticipantList ps) b.
Proof.
  intros w Hw. unfold_m.
  destruct (fallbackStore w !! participants_key s) as [v|] eqn:Hs; cbn.
  - split; [by apply (Hw s)|done].
  - split; [by eexists|done].
Qed.

(** Every step of a history keeps the invariant. *)
Lemma exec_Inv c w : Inv w → Inv (exec toISOString c w).
Proof.
  apply exec_store_inv;
    [apply store_wf_insert_session|apply store_wf_delete_session|].
  destruct c; try exact Logic.I.
  - apply Inv_add_participant_fallback.
  - apply Inv_remove_participant_fallback.
  - apply store_wf_empty.
Qed.

Lemma run_Inv history w : Inv w → Inv (run toISOString history w).
Proof.
  revert w. induction history as [|c cs IH]; intros w Hw; [done|].
  cbn. apply IH. by apply exec_Inv.
Qed.

Lemma construct_Inv env : Inv (construct env).
Proof. apply store_wf_empty. Qed.

(** The invariant holds in every state a freshly constructed service can
    reach. *)
Lemma reachable_Inv env history : Inv (run toISOString history (construct env)).
Proof. apply run_Inv, construct_Inv. Qed.

(** C1 (amended). On inputs of the types the methods are written for
    (string ids, a participant object with an [id]) every public operation
    has no failure path: started in a world whose fallback store has the
    shape the service gives it (which holds in every world reached by such
    calls), whatever the connectivity flag says and whichever commands the
    network fails, each of [setSessionState],
    [getSessionState], [deleteSessionState], [addParticipant],
    [removeParticipant], [getParticipants], [publishEvent] and
    [healthCheck] returns a value and raises nothing, and the five writers
    return [true]. *)
Theorem no_failure_path (w : World) :
  store_wf (fallbackStore w) →
  (∀ k v ttl, result (setSessionState k v ttl) w = Ok true) ∧
  (∀ k, ∃ r, result (getSessionState k) w = Ok r) ∧
  (∀ k, result (deleteSessionState k) w = Ok true) ∧
  (∀ s p, result (addParticipant s p) w = Ok true) ∧
  (∀ s pid, result (removeParticipant s pid) w = Ok true) ∧
  (∀ s, ∃ ps, result (getParticipants s) w = Ok (ParticipantList ps)) ∧
  (∀ ch ev d, result (publishEvent toISOString ch ev d) w = Ok true) ∧
  (∃ h, result healthCheck w = Ok h).
Proof.
  intros Hw. change (Inv w) in Hw.
  pose proof store_wf_insert_session as Hi.
  pose proof store_wf_delete_session as Hd.
  assert (Hlist : ∀ s, spec Inv (getParticipants s)
                         (λ r, ∃ ps, r = ParticipantList ps) false)
    by (intros; apply getParticipants_spec;
        eauto using Inv_participants_fallback).
  repeat split; intros.
  - destruct (spec_result _ _ _ _ (setSessionState_store _ Hi k v ttl) Hw)
      as (? & ? & ->); done.
  - destruct (spec_result _ _ _ _ (getSessionState_store _ Hd k) Hw)
      as (r & ? & _); eauto.
  - destruct (spec_result _ _ _ _ (deleteSessionState_store _ Hd k) Hw)
      as (? & ? & ->); done.
  - destruct (spec_result _ _ _ _
                (addParticipant_store _ s p (Inv_add_participant_fallback s p)) Hw)
      as (? & ? & ->); done.
  - destruct (spec_result _ _ _ _
                (removeParticipant_store _ s pid
                   (Inv_remove_participant_fallback s pid)) Hw)
      as (? & ? & ->); done.
  - destruct (spec_result _ _ _ _ (Hlist s) Hw) as (? & ? & ps & ->); eauto.
  - destruct (spec_result _ _ _ _ (publishEvent_spec (λ m _, store_wf m) ch ev d) Hw)
      as (? & ? & ->); done.
  - destruct (spec_result _ _ _ _ (healthCheck_spec (λ m _, store_wf m)) Hw)
      as (h & ? & _); eauto.
Qed.

(** ** What each method computes on each path *)

Lemma set_faults_id (w : World) : faults w = [] → set_faults [] w = w.
Proof. destruct w. cbn. by intros ->. Qed.

(** On a healthy network an awaited command just runs. *)
Lemma await_healthy {A} (cmd : M A) (w : World) :
  healthy w → await cmd w = cmd (set_faults (tail (faults w)) w).
Proof.
  unfold healthy, await. intros Hh.
  destruct (faults w) as [|[e|] fs] eqn:Hf; cbn.
  - by rewrite set_faults_id.
  - by apply Forall_cons in Hh as [? _].
  - done.
Qed.

Lemma healthy_tail (w : World) fs :
  healthy w → fs = tail (faults w) → Forall (λ f, f = None) fs.
Proof.
  unfold healthy. intros Hh ->. destruct (faults w); [done|].
  by apply Forall_cons in Hh as [_ ?].
Qed.

Lemma setSessionState_offline (w : World) k v ttl :
  isConnected w = false →
  setSessionState k v ttl w =
    (Ok true,
     set_console (console w ++ [(Info, "[Fallback] Session state stored: " +:+ k)])
       (set_fallbackStore
          (<[session_key k := SessionEntry v (now w + ttl * 1000)]> (fallbackStore w)) w)).
Proof. intros Hc. unfold setSessionState. unfold_m. by rewrite Hc. Qed.

Lemma getSessionState_offline (w : World) k :
  isConnected w = false →
  getSessionState k w =
    match fresh (fallbackStore w !! session_key k) (now w) with
    | Some d => (Ok (Some d), w)
    | None => (Ok None, set_fallbackStore (delete (session_key k) (fallbackStore w)) w)
    end.
Proof.
  intros Hc. unfold getSessionState. unfold_m. rewrite Hc; red_m.
  by destruct (fresh _ _).
Qed.

Lemma setSessionState_remote (w : World) k v ttl s :
  remote_mode w → JSON_stringify v = Some s → 0 < ttl →
  setSessionState k v ttl w =
    (Ok true,
     set_console (console w ++ [(Info, "Session state saved: " +:+ k)])
       (set_redis
          (<[session_key k := mkREntry (RString s) (Some (now w + ttl * 1000))]> (redis w))
          (set_faults (tail (faults w)) w))).
Proof.
  intros (Hc & [c Hcl] & Hh) Hs Httl.
  unfold setSessionState, deref, stringify, client_setEx. unfold_m.
  rewrite Hc; red_m. rewrite Hcl; red_m. rewrite Hs; red_m.
  rewrite await_healthy by done.
  unfold cmd_setEx. destruct (Z.leb_spec ttl 0); [lia|]. done.
Qed.

Lemma getSessionState_remote (w : World) k s v ex :
  remote_mode w →
  redis_lookup w (session_key k) = Some (mkREntry (RString s) ex) →
  s ≠ "" → JSON_parse s = Some v →
  getSessionState k w = (Ok (Some v), set_faults (tail (faults w)) w).
Proof.
  intros (Hc & [c Hcl] & Hh) Hl Hne Hp.
  unfold getSessionState, deref, client_get, parse. unfold_m.
  rewrite Hc; red_m. rewrite Hcl; red_m. rewrite await_healthy by done.
  unfold cmd_get. replace (redis_lookup (set_faults (tail (faults w)) w) (session_key k))
    with (redis_lookup w (session_key k)) by done. rewrite Hl; red_m.
  destruct (decide (s = "")); [done|]. by rewrite Hp.
Qed.

(** C4 (amended). Writing a session state and reading it back at once
    returns what was written, for every key and every positive TTL in whole
    seconds: for every value when the service is disconnected (both calls
    use the fallback store), and, when it is connected with the commands
    reaching the server, for a value that survives serialisation. *)
Theorem set_then_get (w : World) k v ttl :
  0 < ttl →
  isConnected w = false ∨ (remote_mode w ∧ roundtrips v) →
  result (setSessionState k v ttl) w = Ok true ∧
  result (getSessionState k) (after (setSessionState k v ttl) w) = Ok (Some v).
Proof.
  intros Httl [Hoff | [Hr (s & Hs & Hne & Hp)]]; unfold result, after.
  - rewrite setSessionState_offline by done. split; [done|]. cbn [fst snd].
    rewrite getSessionState_offline by done. cbn.
    rewrite lookup_insert_eq. cbn.
    destruct (Z.ltb_spec (now w) (now w + ttl * 1000)); [done|lia].
  - rewrite (setSessionState_remote _ _ _ _ s) by done. split; [done|]. cbn [fst snd].
    destruct Hr as (Hc & Hcl & Hh).
    erewrite getSessionState_remote; [done| |..|exact Hp]; [| |exact Hne].
    + split; [done|]. split; [done|]. by eapply healthy_tail.
    + unfold redis_lookup, live. cbn. rewrite lookup_insert_eq. cbn.
      destruct (Z.ltb_spec (now w) (now w + ttl * 1000)); [done|lia].
Qed.

(** ** Participants: the fallback path *)

Lemma with_without pid (ps : list Participant) :
  filter (λ p, id p = pid) (without pid ps) = [].
Proof.
  unfold without. induction ps as [|p ps IH]; [done|].
  rewrite filter_cons. case_decide; [|done].
  rewrite filter_cons. by case_decide.
Qed.

Lemma without_absent pid (ps : list Participant) :
  Forall (λ p, id p ≠ pid) ps → without pid ps = ps.
Proof.
  unfold without. induction 1 as [|p ps Hp Hps IH]; [done|].
  rewrite filter_cons. case_decide; [by f_equal|done].
Qed.

Lemma elem_of_without pid (p : Participant) ps :
  p ∈ ps → id p ≠ pid → p ∈ without pid ps.
Proof. intros Hin Hne. unfold without. by apply list_elem_of_filter. Qed.

Lemma addParticipant_offline (w : World) s p :
  isConnected w = false → store_wf (fallbackStore w) →
  addParticipant s p w =
    (Ok true,
     set_console
       (console w ++ [(Info, "[Fallback] Participant added: " +:+ id p +:+ " to " +:+ s)])
       (set_fallbackStore
          (<[participants_key s :=
               ParticipantList (without (id p) (fallback_participants w s) ++ [p])]>
             (fallbackStore w)) w)).
Proof.
  intros Hc Hwf. unfold addParticipant, fallback_participants. unfold_m.
  rewrite Hc; red_m.
  destruct (fallbackStore w !! participants_key s) as [[d ex|ps|]|] eqn:Hs; red_m;
    [|done| |done];
    destruct (Hwf _ _ Hs) as [ps Hps]; discriminate.
Qed.

Lemma participants_fallback_wf (w : World) s :
  store_wf (fallbackStore w) →
  participants_fallback s w = (Ok (ParticipantList (fallback_participants w s)), w).
Proof.
  intros Hwf. unfold fallback_participants. unfold_m.
  destruct (fallbackStore w !! participants_key s) as [[d ex|ps|]|] eqn:Hs;
    [|done| |done];
    destruct (Hwf _ _ Hs) as [ps Hps]; discriminate.
Qed.

Lemma getParticipants_offline (w : World) s :
  isConnected w = false → store_wf (fallbackStore w) →
  getParticipants s w = (Ok (ParticipantList (fallback_participants w s)), w).
Proof.
  intros Hc Hwf. unfold getParticipants.
  cbv beta iota zeta delta [mbind M_bind bind read try_catch].
  rewrite Hc; red_m. by rewrite participants_fallback_wf.
Qed.

(** ** Participants: the remote path *)

Lemma redis_lookup_Some (w : World) key e :
  redis_lookup w key = Some e → redis w !! key = Some e ∧ live (now w) e = true.
Proof.
  unfold redis_lookup. destruct (redis w !! key) as [e'|]; [|done].
  destruct (live (now w) e') eqn:Hl; [|done]. by intros [= ->].
Qed.

Lemma live_extended t v seconds : 0 < seconds →
  live t (mkREntry v (Some (t + seconds * 1000))) = true.
Proof. intros Hs. unfold live. cbn. apply Z.ltb_lt. lia. Qed.

Lemma addParticipant_remote (w : World) s p str :
  remote_mode w → JSON_stringify p = Some str →
  not_a_string w (participants_key s) →
  addParticipant s p w =
    (Ok true,
     set_console
       (console w ++ [(Info, "Participant added: " +:+ id p +:+ " to " +:+ s)])
       (set_redis
          (<[participants_key s :=
               mkREntry (RHash (<[id p := str]> (live_hash w (participants_key s))))
                 (Some (now w + 3600 * 1000))]> (redis w))
          (set_faults (tail (tail (faults w))) w))).
Proof.
  intros (Hc & [c Hcl] & Hh) Hs Hns.
  assert (Hh' : healthy (set_faults (tail (faults w)) w)).
  { unfold healthy. proj_m. by eapply healthy_tail. }
  unfold addParticipant, deref, stringify, client_hSet, client_expire. unfold_m.
  rewrite Hc; red_m. rewrite Hcl; red_m. rewrite Hs; red_m.
  rewrite await_healthy by done. unfold cmd_hSet, live_hash.
  replace (redis_lookup (set_faults (tail (faults w)) w) (participants_key s))
    with (redis_lookup w (participants_key s)) by done.
  destruct (redis_lookup w (participants_key s)) as [[[x|h] ex]|] eqn:Hl; red_m.
  - apply redis_lookup_Some in Hl as [Hl _].
    destruct (Hns _ Hl) as [h Hh0]. discriminate.
  - proj_m. rewrite Hcl; red_m. rewrite await_healthy; [|done].
    apply redis_lookup_Some in Hl as [_ Hlive].
    unfold cmd_expire, redis_lookup. proj_m. rewrite lookup_insert_eq.
    replace (live (now w) _) with true; red_m.
    by rewrite insert_insert_eq.
  - proj_m. rewrite Hcl; red_m. rewrite await_healthy; [|done].
    unfold cmd_expire, redis_lookup. proj_m. rewrite lookup_insert_eq.
    cbn [live rexpire]; red_m. by rewrite insert_insert_eq.
Qed.

Lemma parse_all_ok (vs : list string) (ps : list Participant) (w : World) :
  Forall2 (λ v p, JSON_parse v = Some p) vs ps → parse_all vs w = (Ok ps, w).
Proof.
  induction 1 as [|v p vs ps Hp _ IH]; [done|].
  cbn [parse_all]. unfold parse. unfold_m. rewrite Hp; red_m. by rewrite IH.
Qed.

Lemma getParticipants_remote (w : World) s h ex ps :
  remote_mode w →
  redis_lookup w (participants_key s) = Some (mkREntry (RHash h) ex) →
  Forall2 (λ v p, JSON_parse v = Some p) (map_to_list h).*2 ps →
  getParticipants s w = (Ok (ParticipantList ps), set_faults (tail (faults w)) w).
Proof.
  intros (Hc & [c Hcl] & Hh) Hl Hps.
  unfold getParticipants, deref, client_hGetAll. unfold_m.
  rewrite Hc; red_m. rewrite Hcl; red_m. rewrite await_healthy by done.
  unfold cmd_hGetAll.
  replace (redis_lookup (set_faults (tail (faults w)) w) (participants_key s))
    with (redis_lookup w (participants_key s)) by done.
  rewrite Hl; red_m. by rewrite (parse_all_ok _ ps).
Qed.

Lemma fields_read (l : list (string * string)) :
  (∀ f v, (f, v) ∈ l → ∃ p : Participant, JSON_parse v = Some p ∧ id p = f) →
  ∃ ps, Forall2 reads_as l ps.
Proof.
  induction l as [|[f v] l IH]; intros Hl.
  - exists []. constructor.
  - destruct (Hl f v) as (p & Hp & Hid); [left|].
    destruct IH as [ps Hps]; [intros; apply Hl; by right|].
    exists (p :: ps). by constructor.
Qed.

Lemma reads_as_none pid (l : list (string * string)) (ps : list Participant) :
  Forall2 reads_as l ps → pid ∉ l.*1 → filter (λ p, id p = pid) ps = [].
Proof.
  induction 1 as [|[f v] p l ps [Hp Hid] _ IH]; intros Hnin; [done|].
  rewrite fmap_cons in Hnin. cbn [fst snd] in *.
  apply not_elem_of_cons in Hnin as [Hne Hnin].
  rewrite filter_cons. case_decide; [congruence|]. by apply IH.
Qed.

Lemma reads_as_unique pid str r (l : list (string * string)) (ps : list Participant) :
  Forall2 reads_as l ps → NoDup l.*1 → (pid, str) ∈ l → JSON_parse str = Some r →
  filter (λ p, id p = pid) ps = [r].
Proof.
  induction 1 as [|[f v] p l ps [Hp Hid] Hrest IH]; intros Hnd Hin Hr.
  - by apply elem_of_nil in Hin.
  - rewrite fmap_cons in Hnd. cbn [fst snd] in *.
    apply NoDup_cons in Hnd as [Hf Hnd]. rewrite filter_cons.
    apply elem_of_cons in Hin as [[= <- <-]|Hin].
    + case_decide; [|done]. rewrite (reads_as_none _ _ _ Hrest Hf). congruence.
    + case_decide as Hpid.
      * exfalso. apply Hf. rewrite <- Hid, Hpid.
        apply list_elem_of_fmap. by exists (pid, str).
      * by apply IH.
Qed.

Lemma live_hash_fields (w : World) s f v :
  remote_participants_wf w s →
  live_hash w (participants_key s) !! f = Some v →
  ∃ p : Participant, JSON_parse v = Some p ∧ id p = f.
Proof.
  intros Hwf. unfold live_hash.
  destruct (redis_lookup w (participants_key s)) as [[[x|h] ex]|] eqn:Hl;
    [by rewrite lookup_empty| |by rewrite lookup_empty].
  apply redis_lookup_Some in Hl as [Hl _].
  destruct (Hwf _ Hl) as (h' & [= <-] & Hfields). apply Hfields.
Qed.

Lemma remote_wf_not_a_string (w : World) s :
  remote_participants_wf w s → not_a_string w (participants_key s).
Proof. intros Hwf e He. destruct (Hwf e He) as (h & Hh & _). by exists h. Qed.

Lemma remote_mode_after (w : World) c R :
  remote_mode w →
  remote_mode (set_console c (set_redis R (set_faults (tail (tail (faults w))) w))).
Proof.
  intros (Hc & Hcl & Hh). unfold remote_mode, healthy. proj_m.
  split; [done|]. split; [done|].
  eapply (healthy_tail (set_faults (tail (faults w)) w)); [|done].
  unfold healthy. proj_m. by eapply healthy_tail.
Qed.

(** C6 (amended). Adding two records that share an id to a session, one
    after the other, leaves exactly one record of that id in
    [getParticipants], the second one: whatever the session held before
    (records of that id included) when the service is disconnected; and,
    when the service is connected and the commands reach the server, for
    records that survive serialisation and a server hash that holds under
    every field a record of the id naming it.  Both calls return
    [true]. *)
Theorem addParticipant_upsert (w : World) s r1 r2 :
  id r1 = id r2 →
  (isConnected w = false ∧ store_wf (fallbackStore w)) ∨
  (remote_mode w ∧ roundtrips r1 ∧ roundtrips r2 ∧ remote_participants_wf w s) →
  result (addParticipant s r1) w = Ok true ∧
  result (addParticipant s r2) (after (addParticipant s r1) w) = Ok true ∧
  ∃ ps,
    result (getParticipants s)
      (after (addParticipant s r2) (after (addParticipant s r1) w))
    = Ok (ParticipantList ps) ∧
    filter (λ p, id p = id r2) ps = [r2].
Proof.
  intros Hid [[Hc Hwf] | (Hr & (s1 & Hs1 & _ & Hp1) & (s2 & Hs2 & _ & Hp2) & Hrw)];
    unfold result, after.
  - rewrite (addParticipant_offline w) by done. cbn [fst snd].
    rewrite addParticipant_offline;
      [|done|proj_m; by apply store_wf_insert_list]. cbn [fst snd].
    rewrite getParticipants_offline;
      [|done|proj_m; by do 2 apply store_wf_insert_list]. cbn [fst snd].
    do 2 (split; [done|]). eexists. split; [done|].
    unfold fallback_participants at 1. proj_m. rewrite lookup_insert_eq.
    unfold fallback_participants at 1. proj_m. rewrite lookup_insert_eq.
    rewrite filter_app, with_without, app_nil_l, filter_cons, filter_nil.
    by case_decide.
  - pose proof (remote_wf_not_a_string _ _ Hrw) as Hns.
    destruct Hr as (Hc & Hcl & Hh).
    rewrite (addParticipant_remote w s r1 s1) by done. cbn [fst snd].
    set (key := participants_key s). set (h0 := live_hash w key).
    set (R1 := <[key := _]> (redis w)).
    set (W1 := set_console _ (set_redis R1 _)).
    assert (HW1 : remote_mode W1).
    { by apply remote_mode_after. }
    assert (HL1 : redis_lookup W1 key
                  = Some (mkREntry (RHash (<[id r1 := s1]> h0)) (Some (now w + 3600 * 1000)))).
    { unfold redis_lookup. subst W1 R1. proj_m. rewrite lookup_insert_eq.
      by rewrite live_extended. }
    rewrite (addParticipant_remote W1 s r2 s2); [|done|done|]; last first.
    { intros e He. subst W1 R1. cbn [redis set_console set_redis] in He.
      rewrite lookup_insert_eq in He. injection He as <-. by eexists. }
    cbn [fst snd]. fold key. unfold live_hash at 1. rewrite HL1.
    rewrite Hid, insert_insert_eq.
    set (h2 := <[id r2 := s2]> h0).
    set (W2 := set_console _ (set_redis _ _)).
    assert (HW2 : remote_mode W2).
    { by apply remote_mode_after. }
    destruct (fields_read (map_to_list h2)) as [ps Hps].
    { intros f v Hfv. apply elem_of_map_to_list in Hfv. subst h2.
      destruct (decide (f = id r2)) as [->|Hne].
      - rewrite lookup_insert_eq in Hfv. injection Hfv as <-. by exists r2.
      - rewrite lookup_insert_ne in Hfv by done. by eapply live_hash_fields. }
    do 2 (split; [done|]). exists ps. split.
    + erewrite (getParticipants_remote W2 s h2 _ ps); [done|done| |].
      * unfold redis_lookup. subst W2. proj_m. fold key. rewrite lookup_insert_eq.
        by rewrite live_extended.
      * apply Forall2_fmap_l. eapply Forall2_impl; [exact Hps|]. by intros [f v] p [? _].
    + eapply reads_as_unique; [exact Hps|apply NoDup_fst_map_to_list| |exact Hp2].
      apply elem_of_map_to_list. subst h2. apply lookup_insert_eq.
Qed.

(** ** What [getParticipants] observes *)

Lemma participants_fallback_run (w : World) s :
  participants_fallback s w = (Ok (fallback_view w s), w).
Proof.
  unfold fallback_view. unfold_m.
  by destruct (fallbackStore w !! participants_key s).
Qed.

Lemma parse_all_run (vs : list string) (w : World) :
  parse_all vs w =
    (match parse_list vs with
     | Some ps => Ok ps
     | None => Throw (Error "Unexpected token in JSON")
     end, w).
Proof.
  induction vs as [|v vs IH]; [done|].
  cbn [parse_all parse_list]. unfold parse. unfold_m.
  destruct (JSON_parse v) as [p|]; [|done]. red_m. rewrite IH.
  by destruct (parse_list vs).
Qed.

Lemma getParticipants_result (w : World) s :
  result (getParticipants s) w = Ok (participants_view w s).
Proof.
  unfold result, getParticipants, participants_view, deref, client_hGetAll, await,
    cmd_hGetAll.
  cbv beta iota zeta delta [mbind M_bind bind mret M_ret ret read try_catch throw
    console_error update].
  destruct (isConnected w); red_m; [|by rewrite participants_fallback_run].
  destruct (client w) as [c|]; red_m; [|by rewrite participants_fallback_run].
  destruct (faults w) as [|[e|] fs]; red_m.
  - destruct (redis_lookup w (participants_key s)) as [[[x|h] ex]|]; red_m;
      [by rewrite participants_fallback_run| |done].
    rewrite parse_all_run. destruct (parse_list _); red_m; [done|].
    by rewrite participants_fallback_run.
  - by rewrite participants_fallback_run.
  - replace (redis_lookup (set_faults fs w) (participants_key s))
      with (redis_lookup w (participants_key s)) by done.
    destruct (redis_lookup w (participants_key s)) as [[[x|h] ex]|]; red_m;
      [by rewrite participants_fallback_run| |done].
    rewrite parse_all_run. destruct (parse_list _); red_m; [done|].
    by rewrite participants_fallback_run.
Qed.

(** The observation only depends on the flag, the client, the network,
    the server, the clock and the session's slot of the fallback store. *)
Lemma participants_view_ext (w1 w2 : World) s :
  isConnected w1 = isConnected w2 → client w1 = client w2 →
  faults w1 = faults w2 → redis w1 = redis w2 → now w1 = now w2 →
  fallback_view w1 s = fallback_view w2 s →
  participants_view w1 s = participants_view w2 s.
Proof.
  intros Hc Hcl Hf Hr Hn Hv. unfold participants_view, redis_lookup.
  by rewrite Hc, Hcl, Hf, Hr, Hn, Hv.
Qed.

(** ** Removing a record that is not there *)

Lemma fallback_view_wf (w : World) s :
  store_wf (fallbackStore w) →
  fallback_view w s = ParticipantList (fallback_participants w s).
Proof.
  intros Hwf. unfold fallback_view, fallback_participants.
  destruct (fallbackStore w !! participants_key s) as [[d ex|ps|]|] eqn:Hs;
    [|done| |done];
    destruct (Hwf _ _ Hs) as [ps Hps]; discriminate.
Qed.

Lemma absent_without (w : World) s pid :
  absent w s pid →
  without pid (fallback_participants w s) = fallback_participants w s.
Proof.
  intros [Hf _]. apply without_absent. unfold fallback_participants.
  destruct (fallbackStore w !! participants_key s) as [[d ex|ps|]|] eqn:Hs;
    [constructor|by apply Hf|constructor|constructor].
Qed.

(** The fallback block of [removeParticipant], for an absent id. *)
Lemma remove_participant_fallback_absent (w w0 : World) s pid :
  store_wf (fallbackStore w) → absent w s pid →
  fallbackStore w0 = fallbackStore w →
  remove_participant_fallback s pid w0 =
    (Ok tt,
     set_fallbackStore
       (<[participants_key s := ParticipantList (fallback_participants w s)]>
          (fallbackStore w0)) w0).
Proof.
  intros Hwf Habs Hf. pose proof (absent_without w s pid Habs) as Hw.
  unfold fallback_participants in *. unfold_m. rewrite Hf.
  destruct (fallbackStore w !! participants_key s) as [[d ex|ps|]|] eqn:Hs;
    [destruct (Hwf _ _ Hs) as [ps Hps]; discriminate|
    |destruct (Hwf _ _ Hs) as [ps Hps]; discriminate|];
    by rewrite ?Hf, Hw.
Qed.

Lemma untouched_of_store (w w' : World) s :
  store_wf (fallbackStore w) →
  isConnected w' = isConnected w → client w' = client w → redis w' = redis w →
  now w' = now w →
  fallbackStore w' =
    <[participants_key s := ParticipantList (fallback_participants w s)]>
      (fallbackStore w) →
  untouched_view w w' s.
Proof.
  intros Hwf Hc Hcl Hr Hn Hf. unfold untouched_view.
  do 4 (split; [done|]). rewrite (fallback_view_wf w) by done.
  unfold fallback_view. by rewrite Hf, lookup_insert_eq.
Qed.

Lemma removeParticipant_absent_run (w : World) s pid :
  store_wf (fallbackStore w) → absent w s pid →
  result (removeParticipant s pid) w = Ok true ∧
  untouched_view w (after (removeParticipant s pid) w) s.
Proof.
  intros Hwf Habs. unfold result, after, removeParticipant, deref, client_hDel, await.
  cbv beta iota zeta delta [mbind M_bind bind mret M_ret ret read try_catch throw
    console_error console_log update fst snd].
  destruct (isConnected w) eqn:Hc; red_m.
  2:{ rewrite (remove_participant_fallback_absent w) by done. split; [done|].
      apply untouched_of_store; [done|reflexivity..]. }
  destruct (client w) as [c|] eqn:Hcl; red_m.
  2:{ rewrite (remove_participant_fallback_absent w) by done. split; [done|].
      apply untouched_of_store; [done|reflexivity..]. }
  destruct (faults w) as [|[e|] fs] eqn:Hfs; red_m.
  - unfold cmd_hDel.
    destruct (redis_lookup w (participants_key s)) as [[[x|h] ex]|] eqn:Hl; red_m.
    + rewrite (remove_participant_fallback_absent w) by done. split; [done|].
      apply untouched_of_store; [done|reflexivity..].
    + apply redis_lookup_Some in Hl as [Hl _]. destruct Habs as [_ Hr].
      rewrite (Hr _ _ Hl). by split.
    + by split.
  - rewrite (remove_participant_fallback_absent w) by done. split; [done|].
    apply untouched_of_store; [done|reflexivity..].
  - unfold cmd_hDel.
    replace (redis_lookup (set_faults fs w) (participants_key s))
      with (redis_lookup w (participants_key s)) by done.
    destruct (redis_lookup w (participants_key s)) as [[[x|h] ex]|] eqn:Hl; red_m.
    + rewrite (remove_participant_fallback_absent w) by done. split; [done|].
      apply untouched_of_store; [done|reflexivity..].
    + apply redis_lookup_Some in Hl as [Hl _]. destruct Habs as [_ Hr].
      rewrite (Hr _ _ Hl). by split.
    + by split.
Qed.

(** Removing a participant id that the session does not hold raises
    nothing, returns [true], and leaves what [getParticipants] returns for
    the session unchanged, on every path: disconnected, connected, and
    connected with the removal command failing -- and whatever the network
    does to the read that follows. *)
Lemma removeParticipant_absent (w : World) s pid :
  store_wf (fallbackStore w) → absent w s pid →
  result (removeParticipant s pid) w = Ok true ∧
  ∀ fs, result (getParticipants s)
          (set_faults fs (after (removeParticipant s pid) w))
        = result (getParticipants s) (set_faults fs w).
Proof.
  intros Hwf Habs.
  destruct (removeParticipant_absent_run w s pid Hwf Habs)
    as (Hres & Hc & Hcl & Hr & Hn & Hv).
  split; [done|]. intros fs. rewrite !getParticipants_result. f_equal.
  by apply participants_view_ext.
Qed.

(** ** Fallback participants carry no expiry *)

Section Held.

Variables (s : string) (p : Participant).

Lemma held_insert_session m k v : held s p m → held s p (<[session_key k := v]> m).
Proof.
  intros [Hwf (ps & Hps & Hin)]. split; [by apply store_wf_insert_session|].
  exists ps. split; [|done]. rewrite lookup_insert_ne; [done|].
  apply session_key_not_participants.
Qed.

Lemma held_delete_session m k : held s p m → held s p (delete (session_key k) m).
Proof.
  intros [Hwf (ps & Hps & Hin)]. split; [by apply store_wf_delete|].
  exists ps. split; [|done]. rewrite lookup_delete_ne; [done|].
  apply session_key_not_participants.
Qed.

Lemma held_add s' p' b :
  ¬ (s' = s ∧ id p' = id p) →
  spec (store_inv (held s p)) (add_participant_fallback s' p') (λ _, True) b.
Proof.
  intros Hne w [Hwf (ps & Hps & Hin)]. unfold_m.
  destruct (fallbackStore w !! participants_key s') as [[d ex|ps'|]|] eqn:Hs'.
  3: (destruct (Hwf _ _ Hs') as [? ?]; discriminate).
  - destruct (Hwf _ _ Hs') as [? ?]. discriminate.
  - split; [done|]. unfold store_inv, world_inv. proj_m.
    split; [by apply store_wf_insert_list|].
    destruct (decide (s' = s)) as [->|Hs].
    + rewrite Hps in Hs'. injection Hs' as <-.
      eexists. split; [apply lookup_insert_eq|].
      apply elem_of_app. left. apply elem_of_without; [done|].
      intros Heq. by apply Hne.
    + exists ps. split; [|done]. rewrite lookup_insert_ne; [done|].
      intros Hk. by apply participants_key_inj in Hk.
  - split; [done|]. unfold store_inv, world_inv. proj_m.
    split; [by apply store_wf_insert_list|].
    exists ps. split; [|done]. rewrite lookup_insert_ne; [done|].
    intros Hk. apply participants_key_inj in Hk as ->. congruence.
Qed.

Lemma held_remove s' pid b :
  ¬ (s' = s ∧ pid = id p) →
  spec (store_inv (held s p)) (remove_participant_fallback s' pid) (λ _, True) b.
Proof.
  intros Hne w [Hwf (ps & Hps & Hin)]. unfold_m.
  destruct (fallbackStore w !! participants_key s') as [[d ex|ps'|]|] eqn:Hs'.
  3: (destruct (Hwf _ _ Hs') as [? ?]; discriminate).
  - destruct (Hwf _ _ Hs') as [? ?]. discriminate.
  - split; [done|]. unfold store_inv, world_inv. proj_m.
    split; [by apply store_wf_insert_list|].
    destruct (decide (s' = s)) as [->|Hs].
    + rewrite Hps in Hs'. injection Hs' as <-.
      eexists. split; [apply lookup_insert_eq|].
      apply elem_of_without; [done|]. intros Heq. by apply Hne.
    + exists ps. split; [|done]. rewrite lookup_insert_ne; [done|].
      intros Hk. by apply participants_key_inj in Hk.
  - split; [done|]. unfold store_inv, world_inv. proj_m.
    split; [by apply store_wf_insert_list|].
    exists ps. split; [|done]. rewrite lookup_insert_ne; [done|].
    intros Hk. apply participants_key_inj in Hk as ->. congruence.
Qed.

Lemma exec_held c w :
  keeps s (id p) c → store_inv (held s p) w → store_inv (held s p) (exec toISOString c w).
Proof.
  intros Hk. apply exec_store_inv;
    [apply held_insert_session|apply held_delete_session|].
  destruct c; try done; intros b; [by apply held_add|by apply held_remove].
Qed.

Lemma run_held history w :
  Forall (keeps s (id p)) history → store_inv (held s p) w →
  store_inv (held s p) (run toISOString history w).
Proof.
  intros Hk. revert w. induction Hk as [|c cs Hc _ IH]; intros w Hw; [done|].
  cbn. apply IH. by apply exec_held.
Qed.

End Held.

(** C10. A record added while the service is disconnected stays in what
    [getParticipants] returns in fallback mode after any history of calls,
    connection events, network faults and elapsed time, as long as the
    history contains no [removeParticipant] of its id from the session, no
    [addParticipant] of the same id to the session and no [disconnect].
    The remote path is different: a successful add leaves the session's
    key on the server with a deadline one hour ahead, and once that hour
    has passed the server returns no record for the session. *)
Theorem fallback_participants_never_expire (w : World) s p history :
  store_wf (fallbackStore w) → isConnected w = false →
  Forall (keeps s (id p)) history →
  (result (addParticipant s p) w = Ok true ∧
   ∃ ps,
     result (getParticipants s)
       (set_isConnected false
          (run toISOString history (after (addParticipant s p) w)))
     = Ok (ParticipantList ps) ∧ p ∈ ps) ∧
  (∀ (w0 : World) s0 (p0 : Participant) str,
     remote_mode w0 → JSON_stringify p0 = Some str →
     not_a_string w0 (participants_key s0) →
     (∃ e, redis (after (addParticipant s0 p0) w0) !! participants_key s0 = Some e ∧
           rexpire e = Some (now w0 + 3600 * 1000)) ∧
     ∀ ms, 3600 * 1000 ≤ ms →
       result (getParticipants s0)
         (exec toISOString (Tick ms) (after (addParticipant s0 p0) w0))
       = Ok (ParticipantList [])).
Proof.
  intros Hwf Hc Hk. split.
  - unfold result, after. rewrite addParticipant_offline by done. cbn [fst snd].
    split; [done|].
    set (w1 := set_console _ _).
    assert (H1 : store_inv (held s p) w1).
    { split; [by apply store_wf_insert_list|].
      eexists. split; [apply lookup_insert_eq|]. apply elem_of_app. right. by left. }
    pose proof (run_held s p history w1 Hk H1) as [Hwf' (ps & Hps & Hin)].
    exists ps. split; [|done].
    rewrite getParticipants_offline; [|done|done]. cbn [fst].
    unfold fallback_participants. proj_m. by rewrite Hps.
  - intros w0 s0 p0 str Hr Hs Hns. unfold after.
    rewrite (addParticipant_remote w0 s0 p0 str) by done. cbn [snd].
    split.
    + eexists. proj_m. split; [apply lookup_insert_eq|done].
    + intros ms Hms. rewrite getParticipants_result. f_equal.
      cbn [exec]. destruct Hr as (Hc0 & [c Hcl] & Hh).
      unfold participants_view. proj_m. rewrite Hc0, Hcl. cbn [negb].
      assert (Hf : Forall (λ f, f = None) (tail (tail (faults w0)))).
      { eapply (healthy_tail (set_faults (tail (faults w0)) w0)); [|done].
        unfold healthy. proj_m. by eapply healthy_tail. }
      unfold redis_lookup, live. proj_m. rewrite lookup_insert_eq. cbn [rexpire].
      destruct (Z.ltb_spec (now w0 + ms) (now w0 + 3600 * 1000)); [lia|].
      destruct (tail (tail (faults w0))) as [|[e|] fs]; [done| |done].
      by apply Forall_cons in Hf as [? _].
Qed.

(** ** A record that was never added is in neither store *)

Section NeverAdded.

Variables (s pid : string).

Lemma unadded_insert_session (m : gmap string Stored) r k v :
  unadded s pid m r → unadded s pid (<[session_key k := v]> m) r.
Proof.
  intros (Hwf & Hm & Hr). split; [by apply store_wf_insert_session|]. split; [|done].
  intros ps. rewrite lookup_insert_ne; [apply Hm|].
  apply session_key_not_participants.
Qed.

Lemma unadded_delete_session (m : gmap string Stored) r k :
  unadded s pid m r → unadded s pid (delete (session_key k) m) r.
Proof.
  intros (Hwf & Hm & Hr). split; [by apply store_wf_delete|]. split; [|done].
  intros ps. rewrite lookup_delete_ne; [apply Hm|].
  apply session_key_not_participants.
Qed.

Lemma unadded_server_insert_session (m : gmap string Stored) r k e :
  unadded s pid m r → unadded s pid m (<[session_key k := e]> r).
Proof.
  intros (Hwf & Hm & Hr). do 2 (split; [done|]).
  intros h ex. rewrite lookup_insert_ne; [apply Hr|].
  apply session_key_not_participants.
Qed.

Lemma unadded_server_delete (m : gmap string Stored) r k :
  unadded s pid m r → unadded s pid m (delete k r).
Proof.
  intros (Hwf & Hm & Hr). do 2 (split; [done|]).
  intros h ex Hh. apply lookup_delete_Some in Hh as [_ Hh]. by eapply Hr.
Qed.

Lemma unadded_server_delete_session (m : gmap string Stored) r k :
  unadded s pid m r → unadded s pid m (delete (session_key k) r).
Proof. apply unadded_server_delete. Qed.

Lemma unadded_clear (m : gmap string Stored) r : unadded s pid m r → unadded s pid (∅ : gmap string Stored) r.
Proof.
  intros (Hwf & Hm & Hr). split; [apply store_wf_empty|]. split; [|done].
  intros ps. by rewrite lookup_empty.
Qed.

(** Writing a hash to the server under a participants key. *)
Lemma unadded_server_insert (m : gmap string Stored) r s' h ex :
  unadded s pid m r → (s' = s → h !! pid = None) →
  unadded s pid m (<[participants_key s' := mkREntry (RHash h) ex]> r).
Proof.
  intros (Hwf & Hm & Hr) Hh. do 2 (split; [done|]).
  intros h' ex'. destruct (decide (s' = s)) as [->|Hs].
  - rewrite lookup_insert_eq. intros [= <- <-]. by apply Hh.
  - rewrite lookup_insert_ne; [apply Hr|].
    intros Hk. by apply participants_key_inj in Hk.
Qed.

(** Writing an array to the fallback store under a participants key. *)
Lemma unadded_insert (m : gmap string Stored) r s' ps :
  unadded s pid m r → (s' = s → Forall (λ p : Participant, id p ≠ pid) ps) →
  unadded s pid (<[participants_key s' := ParticipantList ps]> m) r.
Proof.
  intros (Hwf & Hm & Hr) Hps. split; [by apply store_wf_insert_list|]. split; [|done].
  intros ps'. destruct (decide (s' = s)) as [->|Hs].
  - rewrite lookup_insert_eq. intros [= <-]. by apply Hps.
  - rewrite lookup_insert_ne; [apply Hm|].
    intros Hk. by apply participants_key_inj in Hk.
Qed.

Lemma Forall_without (Q : Participant → Prop) x (ps : list Participant) :
  Forall Q ps → Forall Q (without x ps).
Proof.
  intros Hps. apply Forall_forall. intros p Hp.
  apply list_elem_of_filter in Hp as [_ Hp].
  by eapply Forall_forall in Hps.
Qed.

#[local] Abbreviation U := (world_inv (Val:=Val) (unadded s pid)).

Lemma unadded_stored_list (w : World) s' (ps : list Participant) :
  U w → fallbackStore w !! participants_key s' = Some (ParticipantList ps) →
  s' = s → Forall (λ p, id p ≠ pid) ps.
Proof. intros (_ & Hm & _) Hps ->. by apply Hm. Qed.

Lemma unadded_live_hash (w : World) s' h ex :
  U w → redis_lookup w (participants_key s') = Some (mkREntry (RHash h) ex) →
  s' = s → h !! pid = None.
Proof.
  intros (_ & _ & Hr) Hl ->. apply redis_lookup_Some in Hl as [Hl _]. by eapply Hr.
Qed.

Lemma unadded_add_block s' p' b :
  ¬ (s' = s ∧ id p' = pid) →
  spec U (add_participant_fallback s' p') (λ _, True) b.
Proof.
  intros Hne w Hw. pose proof Hw as (Hwf & _ & _). unfold_m.
  destruct (fallbackStore w !! participants_key s') as [[d ex|ps|]|] eqn:Hs'.
  3: (destruct (Hwf _ _ Hs') as [? ?]; discriminate).
  - destruct (Hwf _ _ Hs') as [? ?]. discriminate.
  - split; [done|]. unfold world_inv. proj_m. apply unadded_insert; [done|].
    intros ->. apply Forall_app. split.
    + apply Forall_without. by eapply unadded_stored_list.
    + apply Forall_singleton. intros Hid. by apply Hne.
  - split; [done|]. unfold world_inv. proj_m. apply unadded_insert; [done|].
    intros ->. apply Forall_singleton. intros Hid. by apply Hne.
Qed.

Lemma unadded_remove_block s' pid' b :
  spec U (remove_participant_fallback s' pid') (λ _, True) b.
Proof.
  intros w Hw. pose proof Hw as (Hwf & _ & _). unfold_m.
  destruct (fallbackStore w !! participants_key s') as [[d ex|ps|]|] eqn:Hs'.
  3: (destruct (Hwf _ _ Hs') as [? ?]; discriminate).
  - destruct (Hwf _ _ Hs') as [? ?]. discriminate.
  - split; [done|]. unfold world_inv. proj_m. apply unadded_insert; [done|].
    intros ->. apply Forall_without. by eapply unadded_stored_list.
  - split; [done|]. unfold world_inv. proj_m. apply unadded_insert; [done|].
    intros _. constructor.
Qed.

Lemma unadded_hSet s' f v :
  ¬ (s' = s ∧ f = pid) →
  spec U (client_hSet (participants_key s') f v) (λ _, True) true.
Proof.
  intros Hne w Hw. unfold client_hSet, await, cmd_hSet.
  assert (Hf : ∀ fs, U (set_faults fs w)) by done.
  destruct (faults w) as [|[e|] fs]; [|done|].
  - destruct (redis_lookup w (participants_key s')) as [[[x|h] ex]|] eqn:Hl;
      (split; [done|]); try done; unfold world_inv; proj_m;
      apply unadded_server_insert; try done; intros ->.
    + rewrite lookup_insert_ne; [by eapply unadded_live_hash|].
      intros ->. by apply Hne.
    + apply lookup_singleton_ne. intros ->. by apply Hne.
  - replace (redis_lookup (set_faults fs w) (participants_key s'))
      with (redis_lookup w (participants_key s')) by done.
    destruct (redis_lookup w (participants_key s')) as [[[x|h] ex]|] eqn:Hl;
      (split; [done|]); try done; unfold world_inv; proj_m;
      apply unadded_server_insert; try done; intros ->.
    + rewrite lookup_insert_ne; [by eapply unadded_live_hash|].
      intros ->. by apply Hne.
    + apply lookup_singleton_ne. intros ->. by apply Hne.
Qed.

Lemma unadded_cmd_expire s' t (w : World) :
  U w → U (cmd_expire (participants_key s') t w).2.
Proof.
  intros Hw. unfold cmd_expire.
  destruct (redis_lookup w (participants_key s')) as [[[x|h] ex]|] eqn:Hl;
    [| |done]; destruct (t <=? 0); cbn [snd]; unfold world_inv; proj_m.
  - by apply unadded_server_delete.
  - destruct Hw as (Hwf & Hm & Hr). do 2 (split; [done|]).
    intros h ex'. destruct (decide (s' = s)) as [->|Hs].
    + by rewrite lookup_insert_eq.
    + rewrite lookup_insert_ne; [apply Hr|].
      intros Hk. by apply participants_key_inj in Hk.
  - by apply unadded_server_delete.
  - apply unadded_server_insert; [done|]. by eapply unadded_live_hash.
Qed.

Lemma spec_of_total {A} (I : World → Prop) (m : M A) :
  (∀ w, I w → I (m w).2) → spec I m (λ _, True) true.
Proof.
  intros Hm w Hw. specialize (Hm w Hw). by destruct (m w) as [[a|e] w'].
Qed.

Lemma await_keeps {A} (I : World → Prop) (cmd : M A) :
  (∀ fs w, I w → I (set_faults fs w)) → (∀ w, I w → I (cmd w).2) →
  ∀ w, I w → I (await cmd w).2.
Proof.
  intros Hf Hcmd w Hw. unfold await.
  destruct (faults w) as [|[e|] fs]; [by apply Hcmd|by apply Hf|].
  by apply Hcmd, Hf.
Qed.

Lemma unadded_expire s' t :
  spec U (client_expire (participants_key s') t) (λ _, True) true.
Proof.
  apply spec_of_total, await_keeps; [done|]. apply unadded_cmd_expire.
Qed.

Lemma unadded_cmd_hDel s' f (w : World) :
  U w → U (cmd_hDel (participants_key s') f w).2.
Proof.
  intros Hw. unfold cmd_hDel.
  destruct (redis_lookup w (participants_key s')) as [[[x|h] ex]|] eqn:Hl;
    [done| |done].
  destruct (h !! f) eqn:Hhf; [|done]. cbv zeta.
  destruct (decide (delete f h = ∅)); cbn [snd]; unfold world_inv; proj_m.
  - by apply unadded_server_delete.
  - apply unadded_server_insert; [done|]. intros Hs.
    apply lookup_delete_None. right. by eapply unadded_live_hash.
Qed.

Lemma unadded_hDel s' f :
  spec U (client_hDel (participants_key s') f) (λ _, True) true.
Proof.
  apply spec_of_total, await_keeps; [done|]. apply unadded_cmd_hDel.
Qed.

Lemma not_adding_step_keeps (c : @Call Val) :
  not_adding s pid c → step_keeps (unadded s pid) c.
Proof.
  destruct c; try done; cbn [not_adding step_keeps].
  - intros Hne. split; [intros b; by apply unadded_add_block|]. split.
    + intros v. apply unadded_hSet. tauto.
    + apply unadded_expire.
  - intros _. split; [intros b; apply unadded_remove_block|apply unadded_hDel].
  - intros _. apply unadded_clear.
Qed.

Lemma run_unadded history (w : World) :
  Forall (not_adding s pid) history → U w → U (run toISOString history w).
Proof.
  intros Hh. apply run_world_inv;
    auto using unadded_insert_session, unadded_delete_session,
      unadded_server_insert_session, unadded_server_delete_session.
  eapply Forall_impl; [exact Hh|]. apply not_adding_step_keeps.
Qed.

End NeverAdded.

(** C7. In a world reached by any history that contains no
    [addParticipant] of the id to the session, from a world where neither
    store holds a record of that id for the session (a freshly constructed
    service on a server without the session's key, for one), removing the
    id raises nothing, returns [true], and leaves what [getParticipants]
    returns for the session unchanged -- on the disconnected path, the
    connected path and the path where the removal command fails, and
    whatever the network does to the read that follows. *)
Theorem removeParticipant_never_added (w0 : World) history s pid :
  store_wf (fallbackStore w0) → absent w0 s pid →
  Forall (not_adding s pid) history →
  result (removeParticipant s pid) (run toISOString history w0) = Ok true ∧
  ∀ fs, result (getParticipants s)
          (set_faults fs
             (after (removeParticipant s pid) (run toISOString history w0)))
        = result (getParticipants s) (set_faults fs (run toISOString history w0)).
Proof.
  intros Hwf [Hm Hr] Hh.
  assert (H0 : world_inv (unadded s pid) w0) by (split; [done|]; by split).
  destruct (run_unadded s pid history w0 Hh H0) as (Hwf' & Hm' & Hr').
  apply removeParticipant_absent; [done|]. by split.
Qed.

(** A freshly constructed service on a server that has no key for the
    session holds no record for it. *)
Lemma construct_absent (env : World) s pid :
  redis env !! participants_key s = None → absent (construct env) s pid.
Proof.
  intros Hr. split.
  - intros ps. unfold construct. proj_m. by rewrite lookup_empty.
  - intros h ex. unfold construct. proj_m. by rewrite Hr.
Qed.

(** ** Events, health and shutdown *)

(** C2. While the connectivity flag is false, [subscribeToEvents] raises
    nothing, registers no subscription and invokes no callback -- and it
    resolves to the literal [true], not to [null]: [null] is what the
    error path of the same method returns. *)
Theorem subscribeToEvents_offline (w : World) channel callback :
  isConnected w = false →
  result (subscribeToEvents channel callback) w = Ok JsTrue ∧
  subscriptions (after (subscribeToEvents channel callback) w) = subscriptions w ∧
  delivered (after (subscribeToEvents channel callback) w) = delivered w.
Proof.
  intros Hc. unfold result, after, subscribeToEvents. unfold_m. by rewrite Hc.
Qed.

(** The error path of the same method: when the connected branch raises
    (the subscriber object is missing), the call resolves to [null]. *)
Lemma subscribeToEvents_failure (w : World) channel callback :
  isConnected w = true → subscriber w = None →
  result (subscribeToEvents channel callback) w = Ok JsNull.
Proof.
  intros Hc Hs. unfold result, subscribeToEvents, deref. unfold_m.
  rewrite Hc; red_m. by rewrite Hs.
Qed.

(** C3 (amended). Whenever the connectivity flag is false [healthCheck]
    reports [connected = false], [status = "fallback"] and
    [mode = "in-memory"], and the liveness probe is not issued: the world,
    network schedule included, is left as it was. *)
Theorem healthCheck_offline (w : World) :
  isConnected w = false →
  healthCheck w = (Ok (mkHealth "fallback" "in-memory" false None), w).
Proof. intros Hc. unfold healthCheck. unfold_m. by rewrite Hc. Qed.

(** The two paths of [getSessionState] that read the fallback store, for an
    entry that is missing or has expired: the disconnected path deletes
    the key, the error path leaves the store as it is. *)
Lemma getSessionState_offline_stale (w : World) k :
  isConnected w = false →
  fresh (fallbackStore w !! session_key k) (now w) = None →
  result (getSessionState k) w = Ok None ∧
  fallbackStore (after (getSessionState k) w) = delete (session_key k) (fallbackStore w).
Proof.
  intros Hc Hf. unfold result, after. rewrite getSessionState_offline by done.
  by rewrite Hf.
Qed.

Lemma getSessionState_failure_stale (w : World) k e fs :
  isConnected w = true → is_Some (client w) → faults w = Some e :: fs →
  fresh (fallbackStore w !! session_key k) (now w) = None →
  result (getSessionState k) w = Ok None ∧
  fallbackStore (after (getSessionState k) w) = fallbackStore w.
Proof.
  intros Hc [c Hcl] Hfs Hf.
  unfold result, after, getSessionState, deref, client_get, await. unfold_m.
  rewrite Hc; red_m. rewrite Hcl; red_m. rewrite Hfs; red_m. proj_m.
  by rewrite Hf.
Qed.

(** C9. [disconnect] never raises and always ends with the fallback store
    empty, and when no close fails every client object that exists ends up
    closed.  But the three closes share one [try]: when the close of the
    command client fails, the error is logged and the publisher and the
    subscriber are not closed at all -- the three client objects are left
    as they were. *)
Theorem disconnect_best_effort (w : World) :
  result disconnect w = Ok tt ∧
  fallbackStore (after disconnect w) = ∅ ∧
  (Forall (λ f, f = None) (take (clients_present w) (faults w)) →
   closed_or_absent (client (after disconnect w)) ∧
   closed_or_absent (publisher (after disconnect w)) ∧
   closed_or_absent (subscriber (after disconnect w))) ∧
  (∀ e fs, is_Some (client w) → faults w = Some e :: fs →
   client (after disconnect w) = client w ∧
   publisher (after disconnect w) = publisher w ∧
   subscriber (after disconnect w) = subscriber w ∧
   console (after disconnect w)
   = (console w ++ [(Problem, "Error closing Redis connections: " +:+ message e)])%list).
Proof using Type.
  destruct w as [cl pu su ic rc mr st rd sb dl pg fa nw co].
  unfold result, after, clients_present, closed_or_absent.
  destruct cl as [c|], pu as [p|], su as [s|], fa as [|[e1|] [|[e2|] [|[e3|] fs]]];
    cbn; (split; [done|]); (split; [done|]); split.
  all: try (intros Hh; repeat (apply Forall_cons in Hh as [? Hh]); simplify_eq;
            repeat split; first [by left | by right]).
  all: intros e fs' [c' Hc'] Hfs; by simplify_eq.
Qed.

(** ** Reconnection *)

(** The strategy as the library calls it answers what [reconnectStrategy]
    computes. *)
Lemma reconnectStrategy_call_result (w : World) n :
  result (reconnectStrategy_call n) w = Ok (reconnectStrategy w n) ∧
  link (after (reconnectStrategy_call n) w) = link w ∧
  wire (after (reconnectStrategy_call n) w) = wire w ∧
  now (after (reconnectStrategy_call n) w) = now w ∧
  fallbackStore (after (reconnectStrategy_call n) w) = fallbackStore w.
Proof.
  unfold result, after, reconnectStrategy_call, reconnectStrategy,
    Backoff.reconnectStrategy.
  unfold_m. by destruct (maxRetries w <? n).
Qed.

(** Past the limit the library gives up at once: nothing but the log line
    of the strategy changes. *)
Lemma reconnecting_stops (w : World) fuel n :
  maxRetries w < n →
  reconnecting (S fuel) n w =
    (Ok (Some false),
     set_console (console w ++ [(Problem, "Redis max retries exceeded")]) w).
Proof.
  intros Hn. cbn [reconnecting]. unfold reconnectStrategy_call. unfold_m.
  by replace (maxRetries w <? n) with true by (symmetry; apply Z.ltb_lt; lia).
Qed.

(** While every try fails, the library retries up to the limit and then
    gives up; the service is left as it was. *)
Lemma reconnecting_gives_up (es : list Err) (w : World) fuel n rest :
  n + Z.of_nat (length es) = maxRetries w + 1 →
  faults w = ((Some <$> es) ++ rest)%list →
  (length es < fuel)%nat →
  result (reconnecting fuel n) w = Ok (Some false) ∧
  link (after (reconnecting fuel n) w) = link w ∧
  faults (after (reconnecting fuel n) w) = rest ∧
  redis (after (reconnecting fuel n) w) = redis w ∧
  fallbackStore (after (reconnecting fuel n) w) = fallbackStore w.
Proof.
  revert w fuel n. induction es as [|e es IH]; intros w fuel n Hn Hf Hfuel.
  - destruct fuel as [|fuel]; [cbn in Hfuel; lia|]. cbn in Hn, Hf.
    unfold result, after. rewrite reconnecting_stops by lia. by cbn.
  - destruct fuel as [|fuel]; [cbn in Hfuel; lia|]. cbn [length] in Hn, Hfuel.
    unfold result, after in *. cbn [reconnecting].
    unfold reconnectStrategy_call, client_connect, await. unfold_m.
    replace (maxRetries w <? n) with false by (symmetry; apply Z.ltb_ge; lia).
    red_m. proj_m. rewrite Hf. cbn [fmap list_fmap app]. red_m.
    match goal with
    | |- context [reconnecting fuel (n + 1) ?w1] =>
        destruct (IH w1 fuel (n + 1)) as (H1 & H2 & H3 & H4 & H5);
          [proj_m; lia|by proj_m|lia|]
    end.
    by destruct (reconnecting fuel (n + 1) _) as [[r|x] w'].
Qed.

(** C8. With the default maximum of five attempts the reconnect strategy
    answers attempt [n], for [1 <= n <= 5], with a delay of
    [min (n * 100) 3000] milliseconds, and every later attempt with the
    stop signal.  On that signal the client library gives up at once: it
    makes no further attempt (the network schedule and the clock are as
    they were) and the service is left as it was, so a service in fallback
    mode stays there.  When every try fails, the library that starts at
    attempt [n] retries up to attempt 5 and then gives up, again leaving
    the flag as it was. *)
Theorem reconnectStrategy_default (env : World) (n : Z) :
  1 ≤ n →
  (n ≤ 5 → reconnectStrategy (construct env) n = RetryAfter (Z.min (n * 100) 3000)) ∧
  (5 < n → reconnectStrategy (construct env) n = Stop) ∧
  (5 < n → ∀ (w : World) fuel,
     maxRetries w = 5 →
     result (reconnecting (S fuel) n) w = Ok (Some false) ∧
     link (after (reconnecting (S fuel) n) w) = link w ∧
     wire (after (reconnecting (S fuel) n) w) = wire w ∧
     now (after (reconnecting (S fuel) n) w) = now w ∧
     fallbackStore (after (reconnecting (S fuel) n) w) = fallbackStore w) ∧
  (n ≤ 6 → ∀ (w : World) (es : list Err) rest fuel,
     maxRetries w = 5 → isConnected w = false →
     Z.of_nat (length es) = 6 - n →
     faults w = ((Some <$> es) ++ rest)%list →
     (length es < fuel)%nat →
     result (reconnecting fuel n) w = Ok (Some false) ∧
     isConnected (after (reconnecting fuel n) w) = false ∧
     faults (after (reconnecting fuel n) w) = rest ∧
     redis (after (reconnecting fuel n) w) = redis w).
Proof.
  intros _. split; [|split; [|split]].
  - intros Hn. unfold reconnectStrategy, Backoff.reconnectStrategy, construct.
    proj_m. unfold Backoff.default_maxRetries. destruct (Z.ltb_spec 5 n); (done || lia).
  - intros Hn. unfold reconnectStrategy, Backoff.reconnectStrategy, construct.
    proj_m. unfold Backoff.default_maxRetries. destruct (Z.ltb_spec 5 n); (done || lia).
  - intros Hn w fuel Hm. unfold result, after.
    rewrite reconnecting_stops by lia. by cbn.
  - intros Hn w es rest fuel Hm Hc Hlen Hf Hfuel.
    destruct (reconnecting_gives_up es w fuel n rest) as (H1 & H2 & H3 & H4 & _);
      [lia|done|done|].
    split; [done|]. split; [|done]. unfold link in H2. simplify_eq. congruence.
Qed.

(** * Further properties *)

(** ** Components the data methods never change *)

Section Preserves.

Context {B : Type} (f : World → B).

Lemma preserves_ret {A} (a : A) : preserves f (mret a).
Proof. by intros w. Qed.

Lemma preserves_throw {A} e : preserves f (throw (A:=A) e).
Proof. by intros w. Qed.

Lemma preserves_read {A} (g : World → A) : preserves f (read g).
Proof. by intros w. Qed.

Lemma preserves_update (g : World → World) :
  (∀ w, f (g w) = f w) → preserves f (update g).
Proof. intros Hg w. apply Hg. Qed.

Lemma preserves_bind {A C} (m : M A) (k : A → M C) :
  preserves f m → (∀ a, preserves f (k a)) → preserves f (m ≫= k).
Proof.
  intros Hm Hk w. unfold mbind, M_bind, bind. specialize (Hm w).
  destruct (m w) as [[a|e] w']; [|done]. cbn [snd] in Hm.
  rewrite <- Hm. apply Hk.
Qed.

Lemma preserves_try_catch {A} (body : M A) handler :
  preserves f body → (∀ e, preserves f (handler e)) →
  preserves f (try_catch body handler).
Proof.
  intros Hb Hh w. unfold try_catch. specialize (Hb w).
  destruct (body w) as [[a|e] w']; [done|]. cbn [snd] in Hb.
  rewrite <- Hb. apply Hh.
Qed.

Lemma preserves_await {A} (cmd : M A) :
  (∀ x w, f (set_faults x w) = f w) → preserves f cmd → preserves f (await cmd).
Proof.
  intros Hf Hcmd w. unfold await.
  destruct (faults w) as [|[e|] fs]; [apply Hcmd|apply Hf|].
  rewrite Hcmd. apply Hf.
Qed.

(** The component reads neither the console, nor the network schedule,
    nor the two stores; where a lemma needs it, nor the deliveries. *)
Hypothesis f_console : ∀ x w, f (set_console x w) = f w.
Hypothesis f_faults : ∀ x w, f (set_faults x w) = f w.
Hypothesis f_redis : ∀ x w, f (set_redis x w) = f w.
Hypothesis f_store : ∀ x w, f (set_fallbackStore x w) = f w.
Hypothesis f_delivered : ∀ x w, f (set_delivered x w) = f w.

Lemma preserves_console_log msg : preserves f (console_log msg).
Proof. intros w. apply f_console. Qed.

Lemma preserves_console_error msg : preserves f (console_error msg).
Proof. intros w. apply f_console. Qed.

Lemma preserves_fallback_set k v : preserves f (fallback_set k v).
Proof. intros w. apply f_store. Qed.

Lemma preserves_fallback_delete k : preserves f (fallback_delete k).
Proof. intros w. apply f_store. Qed.

Lemma preserves_deref g n : preserves f (deref g n).
Proof. intros w. unfold deref. unfold_m. by destruct (g w). Qed.

Lemma preserves_stringify {A} `{JSON A} (a : A) : preserves f (stringify a).
Proof. intros w. unfold stringify. by destruct (JSON_stringify a). Qed.

Lemma preserves_parse {A} `{JSON A} s : preserves f (parse (A:=A) s).
Proof. intros w. unfold parse. by destruct (JSON_parse s). Qed.

Lemma preserves_as_array stored : preserves f (as_array stored).
Proof. intros w. by destruct stored as [[| |]|]. Qed.

Ltac server_tac :=
  apply preserves_await; [apply f_faults|]; intros w;
  cbv beta delta [cmd_setEx cmd_get cmd_del cmd_hSet cmd_expire cmd_hDel
    cmd_hGetAll cmd_ping update read];
  repeat (case_match || case_decide); simplify_eq/=; try done;
  apply f_redis.

Lemma preserves_client_setEx k t v : preserves f (client_setEx k t v).
Proof. unfold client_setEx. server_tac. Qed.
Lemma preserves_client_get k : preserves f (client_get k).
Proof. unfold client_get. server_tac. Qed.
Lemma preserves_client_del k : preserves f (client_del k).
Proof. unfold client_del. server_tac. Qed.
Lemma preserves_client_hSet k x v : preserves f (client_hSet k x v).
Proof. unfold client_hSet. server_tac. Qed.
Lemma preserves_client_expire k t : preserves f (client_expire k t).
Proof. unfold client_expire. server_tac. Qed.
Lemma preserves_client_hDel k x : preserves f (client_hDel k x).
Proof.
  unfold client_hDel. apply preserves_await; [apply f_faults|]. intros w.
  unfold cmd_hDel.
  destruct (redis_lookup w k) as [[[s|h] ex]|]; [done| |done].
  destruct (h !! x); [|done]. cbv zeta.
  destruct (decide (delete x h = ∅)); apply f_redis.
Qed.
Lemma preserves_client_hGetAll k : preserves f (client_hGetAll k).
Proof. unfold client_hGetAll. server_tac. Qed.
Lemma preserves_client_ping : preserves f client_ping.
Proof. unfold client_ping. server_tac. Qed.
Lemma preserves_duplicate_subscribe c cb : preserves f (duplicate_subscribe c cb).
Proof. by intros w. Qed.

Lemma preserves_parse_all vs : preserves f (parse_all vs).
Proof.
  induction vs as [|v vs IH]; [apply preserves_ret|]. cbn [parse_all].
  apply preserves_bind; [apply preserves_parse|intros p].
  apply preserves_bind; [apply IH|intros ps]. apply preserves_ret.
Qed.

Lemma preserves_listener cb msg : preserves f (listener cb msg).
Proof.
  unfold listener. apply preserves_try_catch.
  - apply preserves_bind; [apply preserves_parse|intros env].
    apply preserves_update. intros w. apply f_delivered.
  - intros e. apply preserves_console_error.
Qed.

Lemma preserves_deliver subs channel msg : preserves f (deliver subs channel msg).
Proof.
  induction subs as [|[ch cb] subs IH]; [apply preserves_ret|]. cbn [deliver].
  apply preserves_bind; [|intros _; apply IH].
  case_decide; [apply preserves_listener|apply preserves_ret].
Qed.

Lemma preserves_publisher_publish channel msg :
  preserves f (publisher_publish channel msg).
Proof.
  unfold publisher_publish. apply preserves_await; [apply f_faults|].
  unfold cmd_publish. apply preserves_bind; [apply preserves_read|intros subs].
  apply preserves_deliver.
Qed.

Create HintDb pres discriminated.
#[local] Hint Resolve preserves_ret preserves_throw preserves_read
  preserves_console_log preserves_console_error preserves_fallback_set
  preserves_fallback_delete preserves_deref preserves_stringify preserves_parse
  preserves_as_array preserves_client_setEx preserves_client_get
  preserves_client_del preserves_client_hSet preserves_client_expire
  preserves_client_hDel preserves_client_hGetAll preserves_client_ping
  preserves_duplicate_subscribe preserves_parse_all
  preserves_publisher_publish : pres.

Ltac pres_step :=
  lazymatch goal with
  | |- preserves _ (try_catch _ _) => apply preserves_try_catch; [| intros ?]
  | |- preserves _ (_ ≫= _) => apply preserves_bind; [| intros ?]
  | |- preserves _ (if negb ?c then _ else _) => destruct c; cbn [negb]
  | |- preserves _ (if decide ?P then _ else _) => destruct (decide P)
  | |- preserves _ (match ?x with _ => _ end) => destruct x
  | |- preserves _ _ => by eauto with pres
  end.

Ltac pres_op :=
  cbv beta zeta delta [setSessionState getSessionState deleteSessionState
    addParticipant removeParticipant getParticipants publishEvent
    subscribeToEvents healthCheck store_session_fallback
    add_participant_fallback remove_participant_fallback participants_fallback
    fallback_get Date_now];
  repeat pres_step.

Lemma preserves_setSessionState k v ttl : preserves f (setSessionState k v ttl).
Proof. pres_op. Qed.
Lemma preserves_getSessionState k : preserves f (getSessionState k).
Proof. pres_op. Qed.
Lemma preserves_deleteSessionState k : preserves f (deleteSessionState k).
Proof. pres_op. Qed.
Lemma preserves_addParticipant s p : preserves f (addParticipant s p).
Proof. pres_op. Qed.
Lemma preserves_removeParticipant s pid : preserves f (removeParticipant s pid).
Proof. pres_op. Qed.
Lemma preserves_getParticipants s : preserves f (getParticipants s).
Proof. pres_op. Qed.
Lemma preserves_publishEvent ch ev d :
  preserves f (publishEvent toISOString ch ev d).
Proof. pres_op. Qed.
Lemma preserves_subscribeToEvents ch cb : preserves f (subscribeToEvents ch cb).
Proof. pres_op. Qed.
Lemma preserves_healthCheck : preserves f healthCheck.
Proof. pres_op. Qed.

(** Every data call of a history leaves the component alone. *)
Lemma exec_data_call_steps (c : @Call Val) w :
  is_data_call c → f (exec toISOString c w) = f w.
Proof.
  destruct c; try done; intros _; cbn [exec]; unfold after.
  - apply preserves_setSessionState.
  - apply preserves_getSessionState.
  - apply preserves_deleteSessionState.
  - apply preserves_addParticipant.
  - apply preserves_removeParticipant.
  - apply preserves_getParticipants.
  - apply preserves_publishEvent.
  - apply preserves_subscribeToEvents.
  - apply preserves_healthCheck.
Qed.


End Preserves.

Lemma exec_data_call {B} (f : World → B) :
  beside_data f → ∀ (c : @Call Val) w, is_data_call c → f (exec toISOString c w) = f w.
Proof.
  intros (H1 & H2 & H3 & H4 & _ & H6) c w Hc. by apply exec_data_call_steps.
Qed.

Lemma link_beside_data : beside_data (link (Val:=Val)).
Proof. by repeat split. Qed.

Lemma ambient_beside_data : beside_data (ambient (Val:=Val)).
Proof. by repeat split. Qed.

(** X1. No data or event method ever changes what the service knows about
    its connection -- the flag [isConnected], the three client objects, the
    retry counter and its bound -- nor the clock: whatever the network does
    to the commands of a call, a failed command is absorbed by the call and
    the flag stays as it was.  Only [init], [disconnect] and the connection
    events change the link. *)
Theorem data_calls_keep_link (c : @Call Val) (w : World) :
  is_data_call c →
  link (exec toISOString c w) = link w ∧
  ambient (exec toISOString c w) = ambient w.
Proof.
  intros Hc. split.
  - by apply exec_data_call; [apply link_beside_data|].
  - by apply exec_data_call; [apply ambient_beside_data|].
Qed.

(** ** While disconnected nothing leaves the process *)

Ltac offline_tac Hc :=
  unfold wire, after; unfold_m; rewrite Hc; red_m;
  repeat case_match; simplify_eq/=; done.

Lemma offline_setSessionState (w : World) k v ttl :
  isConnected w = false → wire (after (setSessionState k v ttl) w) = wire w.
Proof. intros Hc. unfold setSessionState. offline_tac Hc. Qed.

Lemma offline_getSessionState (w : World) k :
  isConnected w = false → wire (after (getSessionState k) w) = wire w.
Proof. intros Hc. unfold getSessionState. offline_tac Hc. Qed.

Lemma offline_deleteSessionState (w : World) k :
  isConnected w = false → wire (after (deleteSessionState k) w) = wire w.
Proof. intros Hc. unfold deleteSessionState. offline_tac Hc. Qed.

Lemma offline_addParticipant (w : World) s p :
  isConnected w = false → wire (after (addParticipant s p) w) = wire w.
Proof. intros Hc. unfold addParticipant. offline_tac Hc. Qed.

Lemma offline_removeParticipant (w : World) s pid :
  isConnected w = false → wire (after (removeParticipant s pid) w) = wire w.
Proof. intros Hc. unfold removeParticipant. offline_tac Hc. Qed.

Lemma offline_getParticipants (w : World) s :
  isConnected w = false → wire (after (getParticipants s) w) = wire w.
Proof. intros Hc. unfold getParticipants. offline_tac Hc. Qed.

Lemma offline_publishEvent (w : World) ch ev d :
  isConnected w = false → wire (after (publishEvent toISOString ch ev d) w) = wire w.
Proof. intros Hc. unfold publishEvent. offline_tac Hc. Qed.

Lemma offline_subscribeToEvents (w : World) ch cb :
  isConnected w = false → wire (after (subscribeToEvents ch cb) w) = wire w.
Proof. intros Hc. unfold subscribeToEvents. offline_tac Hc. Qed.

Lemma offline_healthCheck (w : World) :
  isConnected w = false → wire (after healthCheck w) = wire w.
Proof. intros Hc. unfold healthCheck. offline_tac Hc. Qed.

(** While the connectivity flag is false no data or event method sends
    anything, nor consumes anything of the network schedule. *)
Lemma exec_offline_wire (c : @Call Val) (w : World) :
  is_data_call c → isConnected w = false →
  wire (exec toISOString c w) = wire w.
Proof.
  destruct c; try done; intros _ Hc; cbn [exec].
  - by apply offline_setSessionState.
  - by apply offline_getSessionState.
  - by apply offline_deleteSessionState.
  - by apply offline_addParticipant.
  - by apply offline_removeParticipant.
  - by apply offline_getParticipants.
  - by apply offline_publishEvent.
  - by apply offline_subscribeToEvents.
  - by apply offline_healthCheck.
Qed.

(** ** [init] and [disconnect] *)


(** What [init] leaves alone. *)
Lemma init_keeps (w : World) :
  redis (after init w) = redis w ∧
  subscriptions (after init w) = subscriptions w ∧
  delivered (after init w) = delivered w ∧
  maxRetries (after init w) = maxRetries w ∧
  (retryCount (after init w) = retryCount w ∨ retryCount (after init w) = 0).
Proof using Type.
  destruct w as [cl pu su ic rc mr st rd sb dl pg fa nw co].
  unfold after.
  destruct fa as [|[e1|] [|[e2|] [|[e3|] fs]]]; cbn;
    repeat split; try done; first [by left | by right].
Qed.

(** What [disconnect] leaves alone: it can only lower the flag. *)
Lemma disconnect_keeps (w : World) :
  (isConnected (after disconnect w) = isConnected w ∨
   isConnected (after disconnect w) = false) ∧
  redis (after disconnect w) = redis w ∧
  subscriptions (after disconnect w) = subscriptions w ∧
  delivered (after disconnect w) = delivered w ∧
  now (after disconnect w) = now w ∧
  maxRetries (after disconnect w) = maxRetries w ∧
  retryCount (after disconnect w) = retryCount w ∧
  fallbackStore (after disconnect w) = ∅.
Proof using Type.
  destruct w as [cl pu su ic rc mr st rd sb dl pg fa nw co].
  unfold after.
  destruct cl as [c|], pu as [p|], su as [s|], fa as [|[e1|] [|[e2|] [|[e3|] fs]]];
    cbn; repeat split; try done; first [by left | by right].
Qed.

(** ** The flag only rises on a [connect] event *)

Lemma exec_without_connect (c : @Call Val) (w : World) :
  c ≠ CallInit → c ≠ ClientConnect → isConnected w = false →
  isConnected (exec toISOString c w) = false ∧
  redis (exec toISOString c w) = redis w ∧
  subscriptions (exec toISOString c w) = subscriptions w ∧
  delivered (exec toISOString c w) = delivered w.
Proof.
  intros Hni Hne Hc.
  assert (Hdata : is_data_call c →
            isConnected (exec toISOString c w) = false ∧
            redis (exec toISOString c w) = redis w ∧
            subscriptions (exec toISOString c w) = subscriptions w ∧
            delivered (exec toISOString c w) = delivered w).
  { intros Hd. pose proof (exec_data_call link link_beside_data c w Hd) as Hl.
    pose proof (exec_offline_wire c w Hd Hc) as Hw.
    unfold link, wire in *. simplify_eq. by rewrite Hc in *. }
  destruct c; try (by apply Hdata); cbn [exec].
  - destruct (disconnect_keeps w) as (Hi & Hr & Hs & Hd' & _).
    split; [destruct Hi as [->| ->]; done|done].
  - unfold after, on_client_error, enableFallbackMode. by unfold_m.
  - unfold after, on_client_end, enableFallbackMode. by unfold_m.
  - done.
  - done.
Qed.

(** X3. A service whose flag is false stays disconnected until [init] runs
    or a [connect] event arrives: through any history without these two --
    calls, [disconnect], error and end events, elapsed time, network
    faults -- the flag stays false, the server is never written to and no
    subscription or delivery is made. *)
Theorem no_connect_event_no_traffic (w : World) (history : list (@Call Val)) :
  isConnected w = false →
  Forall (λ c, c ≠ CallInit ∧ c ≠ ClientConnect) history →
  isConnected (run toISOString history w) = false ∧
  redis (run toISOString history w) = redis w ∧
  subscriptions (run toISOString history w) = subscriptions w ∧
  delivered (run toISOString history w) = delivered w.
Proof.
  intros Hc Hh. revert w Hc.
  induction Hh as [|c cs [Hni Hne] _ IH]; intros w Hc; [done|]. cbn [run foldl].
  destruct (exec_without_connect c w Hni Hne Hc) as (Hc' & Hr & Hs & Hd).
  destruct (IH _ Hc') as (? & Hr' & Hs' & Hd').
  by rewrite <- Hr, <- Hs, <- Hd.
Qed.

(** ** Session state: what a read observes *)

Lemma getSessionState_result (w : World) k :
  result (getSessionState k) w = Ok (session_view w k).
Proof.
  unfold result, getSessionState, session_view, deref, client_get, await, cmd_get,
    parse.
  unfold_m.
  destruct (isConnected w); red_m; [|by destruct (fresh _ _)].
  destruct (client w) as [c|]; red_m; [|by destruct (fresh _ _)].
  destruct (faults w) as [|[e|] fs]; red_m; proj_m.
  - destruct (redis_lookup w (session_key k)) as [[[s|h] ex]|]; red_m;
      [|by destruct (fresh _ _)|done].
    destruct (decide (s = "")); [done|].
    destruct (JSON_parse s); red_m; [done|]. by destruct (fresh _ _).
  - by destruct (fresh _ _).
  - replace (redis_lookup (set_faults fs w) (session_key k))
      with (redis_lookup w (session_key k)) by done.
    destruct (redis_lookup w (session_key k)) as [[[s|h] ex]|]; red_m;
      [|by destruct (fresh _ _)|done].
    destruct (decide (s = "")); [done|].
    destruct (JSON_parse s); red_m; [done|]. by destruct (fresh _ _).
Qed.

(** On a healthy connection the read is what the server holds. *)
Lemma session_view_remote (w : World) k :
  remote_mode w →
  session_view w k =
    match redis_lookup w (session_key k) with
    | None => None
    | Some (mkREntry (RString s) _) =>
        if decide (s = "") then None
        else match JSON_parse s with
             | Some v => Some v
             | None => fresh (fallbackStore w !! session_key k) (now w)
             end
    | Some (mkREntry (RHash _) _) => fresh (fallbackStore w !! session_key k) (now w)
    end.
Proof.
  intros (Hc & [c Hcl] & Hh). unfold session_view. rewrite Hc, Hcl. cbn [negb].
  unfold healthy in Hh. destruct (faults w) as [|[e|] fs]; [done| |done].
  by apply Forall_cons in Hh as [? _].
Qed.

Lemma session_view_offline (w : World) k :
  isConnected w = false →
  session_view w k = fresh (fallbackStore w !! session_key k) (now w).
Proof. intros Hc. unfold session_view. by rewrite Hc. Qed.

(** When the next command fails the read is what the fallback store
    holds. *)
Lemma session_view_failure (w : World) k e fs :
  faults w = Some e :: fs →
  session_view w k = fresh (fallbackStore w !! session_key k) (now w).
Proof.
  intros Hf. unfold session_view. rewrite Hf.
  destruct (isConnected w); [|done]. cbn [negb]. by destruct (client w).
Qed.

Lemma remote_mode_healthy_tail (w : World) : remote_mode w → healthy (set_faults (tail (faults w)) w).
Proof. intros (_ & _ & Hh). unfold healthy. proj_m. by eapply healthy_tail. Qed.

Lemma deleteSessionState_offline (w : World) k :
  isConnected w = false →
  deleteSessionState k w =
    (Ok true,
     set_console (console w ++ [(Info, "[Fallback] Session state deleted: " +:+ k)])
       (set_fallbackStore (delete (session_key k) (fallbackStore w)) w)).
Proof. intros Hc. unfold deleteSessionState. unfold_m. by rewrite Hc. Qed.

Lemma deleteSessionState_remote (w : World) k :
  remote_mode w →
  deleteSessionState k w =
    (Ok true,
     set_console (console w ++ [(Info, "Session state deleted: " +:+ k)])
       (set_redis (delete (session_key k) (redis w))
          (set_faults (tail (faults w)) w))).
Proof.
  intros (Hc & [c Hcl] & Hh). unfold deleteSessionState, deref, client_del. unfold_m.
  rewrite Hc; red_m. rewrite Hcl; red_m. by rewrite await_healthy.
Qed.

Lemma remote_mode_after_one (w : World) c R :
  remote_mode w →
  remote_mode (set_console c (set_redis R (set_faults (tail (faults w)) w))).
Proof.
  intros (Hc & Hcl & Hh). unfold remote_mode, healthy. proj_m.
  split; [done|]. split; [done|]. by eapply healthy_tail.
Qed.

(** X4. After [deleteSessionState] a read of the same key returns [null],
    whatever was stored under it: in fallback mode and on a healthy
    connection alike.  The call returns [true] even when there was nothing
    to delete. *)
Theorem delete_then_get (w : World) k :
  isConnected w = false ∨ remote_mode w →
  result (deleteSessionState k) w = Ok true ∧
  result (getSessionState k) (after (deleteSessionState k) w) = Ok None.
Proof.
  intros [Hc|Hr]; unfold after; rewrite getSessionState_result.
  - unfold result. rewrite deleteSessionState_offline by done. cbn [fst snd].
    split; [done|]. f_equal. rewrite session_view_offline by done.
    proj_m. by rewrite lookup_delete_eq.
  - unfold result. rewrite deleteSessionState_remote by done. cbn [fst snd].
    split; [done|]. f_equal.
    rewrite session_view_remote by (by apply remote_mode_after_one).
    unfold redis_lookup. proj_m. by rewrite lookup_delete_eq.
Qed.

(** X5. A session state written with a TTL of [ttl] seconds is returned by
    a read made [ms] milliseconds later exactly when [ms < ttl * 1000]; from
    [ttl * 1000] on the read returns [null].  This holds in fallback mode
    (there for every [ttl]: a TTL of zero or less is never readable) and on
    a healthy connection for a positive TTL and a value that survives
    serialisation. *)
Theorem session_state_expiry (w : World) k v ttl ms :
  isConnected w = false ∨ (remote_mode w ∧ roundtrips v ∧ 0 < ttl) →
  result (getSessionState k)
    (exec toISOString (Tick ms) (after (setSessionState k v ttl) w))
  = Ok (if decide (ms < ttl * 1000) then Some v else None).
Proof.
  intros [Hc|(Hr & (s & Hs & Hne & Hp) & Httl)]; unfold after;
    rewrite getSessionState_result; f_equal; cbn [exec].
  - rewrite setSessionState_offline by done. cbn [snd].
    rewrite session_view_offline by done. proj_m. rewrite lookup_insert_eq.
    cbn [fresh]. case_decide; destruct (Z.ltb_spec (now w + ms) (now w + ttl * 1000));
      (done || lia).
  - rewrite (setSessionState_remote _ _ _ _ s) by done. cbn [snd].
    rewrite session_view_remote.
    2:{ destruct Hr as (Hc & Hcl & Hh). unfold remote_mode, healthy. proj_m.
        split; [done|]. split; [done|]. by eapply healthy_tail. }
    unfold redis_lookup, live. proj_m. rewrite lookup_insert_eq. cbn [rexpire].
    case_decide; destruct (Z.ltb_spec (now w + ms) (now w + ttl * 1000));
      try lia; [|done].
    destruct (decide (s = "")); [done|]. by rewrite Hp.
Qed.

(** A write leaves a healthy connection healthy, whatever it wrote. *)
Lemma setSessionState_keeps_remote (w : World) k v ttl :
  remote_mode w → remote_mode (after (setSessionState k v ttl) w).
Proof.
  intros (Hc & [c Hcl] & Hh). unfold remote_mode, healthy in *.
  unfold after, setSessionState, deref, stringify, client_setEx, await, cmd_setEx.
  unfold_m. rewrite Hc; red_m. rewrite Hcl; red_m.
  destruct (JSON_stringify v) as [s|]; red_m; [|by proj_m; rewrite Hc, Hcl; eauto].
  destruct (faults w) as [|[e|] fs] eqn:Hf; red_m.
  - destruct (ttl <=? 0); red_m; proj_m; rewrite Hc, Hcl, ?Hf; eauto.
  - by apply Forall_cons in Hh as [? _].
  - apply Forall_cons in Hh as [_ Hh].
    destruct (ttl <=? 0); red_m; proj_m; rewrite Hc, Hcl; eauto.
Qed.

(** X6. The last write wins: after two writes to the same key, the second
    with a positive TTL, a read returns the second value, whatever the
    first write was -- in fallback mode, and on a healthy connection for a
    second value that survives serialisation. *)
Theorem last_write_wins (w : World) k v1 t1 v2 t2 :
  0 < t2 →
  isConnected w = false ∨ (remote_mode w ∧ roundtrips v2) →
  result (getSessionState k)
    (after (setSessionState k v2 t2) (after (setSessionState k v1 t1) w))
  = Ok (Some v2).
Proof.
  intros Ht2 [Hc|(Hr & (s2 & Hs2 & Hne & Hp))].
  - unfold after; rewrite getSessionState_result; f_equal.
    rewrite (setSessionState_offline w) by done. cbn [snd].
    rewrite setSessionState_offline by done. cbn [snd].
    rewrite session_view_offline by done. proj_m. rewrite lookup_insert_eq.
    cbn [fresh]. destruct (Z.ltb_spec (now w) (now w + t2 * 1000)); (done || lia).
  - pose proof (setSessionState_keeps_remote w k v1 t1 Hr) as Hr1.
    set (w1 := after (setSessionState k v1 t1) w) in *.
    unfold after at 1. rewrite getSessionState_result. f_equal.
    rewrite (setSessionState_remote w1 _ _ _ s2) by done. cbn [snd].
    rewrite session_view_remote by (by apply remote_mode_after_one).
    unfold redis_lookup, live. proj_m. rewrite lookup_insert_eq. cbn [rexpire].
    destruct (Z.ltb_spec (now w1) (now w1 + t2 * 1000)); [|lia].
    destruct (decide (s2 = "")); [done|]. by rewrite Hp.
Qed.

(** The write when the command fails: the value lands in the fallback
    store, the server is as before. *)
Lemma setSessionState_failure (w : World) k v ttl e fs :
  isConnected w = true → faults w = Some e :: fs →
  result (setSessionState k v ttl) w = Ok true ∧
  fallbackStore (after (setSessionState k v ttl) w)
  = <[session_key k := SessionEntry v (now w + ttl * 1000)]> (fallbackStore w) ∧
  redis (after (setSessionState k v ttl) w) = redis w ∧
  now (after (setSessionState k v ttl) w) = now w ∧
  (faults (after (setSessionState k v ttl) w) = fs ∨
   faults (after (setSessionState k v ttl) w) = Some e :: fs) ∧
  (is_Some (client w) → is_Some (JSON_stringify v) →
   faults (after (setSessionState k v ttl) w) = fs).
Proof.
  intros Hc Hf.
  unfold result, after, setSessionState, deref, stringify, client_setEx, await.
  unfold_m. rewrite Hc; red_m.
  destruct (client w) as [c|], (JSON_stringify v) as [s|];
    red_m; proj_m; rewrite ?Hf; red_m; proj_m;
    repeat split; try done; try first [by left | by right].
  all: intros;
    repeat match goal with
      | H : is_Some None |- _ => destruct H as [? ?]; discriminate
      end.
Qed.

(** A read never writes to the server. *)
Lemma getSessionState_keeps_server (w : World) k :
  redis (after (getSessionState k) w) = redis w.
Proof.
  apply (spec_after (world_inv (λ _ r, r = redis w)) _ (λ _, True) false); [|done].
  apply getSessionState_spec; auto.
Qed.

(** X7. A value whose write failed is still served while reads fail: when
    a connected service finds the next two commands failing, the write
    returns [true], the value goes to the fallback store, and the read
    that follows returns it (for a positive TTL).  The server is not
    written to. *)
Theorem set_then_get_on_errors (w : World) k v ttl e1 e2 fs :
  0 < ttl → isConnected w = true → faults w = Some e1 :: Some e2 :: fs →
  result (setSessionState k v ttl) w = Ok true ∧
  result (getSessionState k) (after (setSessionState k v ttl) w) = Ok (Some v) ∧
  redis (after (getSessionState k) (after (setSessionState k v ttl) w)) = redis w.
Proof.
  intros Httl Hc Hf.
  destruct (setSessionState_failure w k v ttl e1 (Some e2 :: fs) Hc Hf)
    as (Hres & Hstore & Hredis & Hnow & Hfaults & _).
  split; [done|]. split.
  - rewrite getSessionState_result. f_equal.
    assert (∃ e fs', faults (after (setSessionState k v ttl) w) = Some e :: fs')
      as (e & fs' & Hf') by (destruct Hfaults as [-> | ->]; eauto).
    rewrite (session_view_failure _ _ e fs') by done.
    rewrite Hstore, Hnow, lookup_insert_eq. cbn [fresh].
    destruct (Z.ltb_spec (now w) (now w + ttl * 1000)); (done || lia).
  - rewrite <- Hredis. apply getSessionState_keeps_server.
Qed.

(** X8. A write that fell back is not seen by a read that reaches the
    server: when the write command fails and the following read succeeds,
    the read returns what the server holds -- [null] if it has no such
    key -- although the write returned [true]. *)
Theorem fallen_back_write_is_not_read (w : World) k v ttl e fs :
  isConnected w = true → is_Some (client w) → is_Some (JSON_stringify v) →
  faults w = Some e :: fs → Forall (λ x, x = None) fs →
  redis_lookup w (session_key k) = None →
  result (setSessionState k v ttl) w = Ok true ∧
  result (getSessionState k) (after (setSessionState k v ttl) w) = Ok None ∧
  fallbackStore (after (setSessionState k v ttl) w) !! session_key k
  = Some (SessionEntry v (now w + ttl * 1000)).
Proof.
  intros Hc Hcl Hs Hf Hh Hl.
  destruct (setSessionState_failure w k v ttl e fs Hc Hf)
    as (Hres & Hstore & Hredis & Hnow & _ & Hfaults).
  specialize (Hfaults Hcl Hs).
  pose proof (preserves_setSessionState link (λ _ _, eq_refl) (λ _ _, eq_refl)
                (λ _ _, eq_refl) (λ _ _, eq_refl) k v ttl w) as Hlink.
  fold (after (setSessionState k v ttl) w) in Hlink. unfold link in Hlink.
  split; [done|]. split; [|by rewrite Hstore, lookup_insert_eq].
  rewrite getSessionState_result. f_equal.
  rewrite session_view_remote.
  - unfold redis_lookup in *. by rewrite Hredis, Hnow, Hl.
  - injection Hlink as Hi Hcl' _ _ _ _. unfold remote_mode, healthy.
    by rewrite Hi, Hcl', Hfaults.
Qed.

(** X9. The two stores are not mirrored.  A state written on a healthy
    connection is not in the fallback store: if the connection then ends,
    a read returns [null] (unless an older fallback entry for the key is
    still fresh). *)
Theorem connected_write_lost_on_end (w : World) k v ttl str :
  remote_mode w → JSON_stringify v = Some str → 0 < ttl →
  fresh (fallbackStore w !! session_key k) (now w) = None →
  result (setSessionState k v ttl) w = Ok true ∧
  result (getSessionState k)
    (exec toISOString ClientEnd (after (setSessionState k v ttl) w))
  = Ok None.
Proof.
  intros Hr Hs Httl Hfresh. split.
  - unfold result. by rewrite (setSessionState_remote _ _ _ _ str).
  - rewrite getSessionState_result. f_equal. cbn [exec]. unfold after.
    rewrite (setSessionState_remote _ _ _ _ str) by done. cbn [snd].
    unfold on_client_end, enableFallbackMode. unfold_m.
    by rewrite session_view_offline.
Qed.

(** X10. Conversely, a state written in fallback mode is not on the server:
    once the [connect] event arrives, a read on the healthy connection
    returns what the server holds -- [null] if it has no such key. *)
Theorem offline_write_hidden_on_connect (w : World) k v ttl :
  isConnected w = false → is_Some (client w) → healthy w →
  redis_lookup w (session_key k) = None →
  result (setSessionState k v ttl) w = Ok true ∧
  result (getSessionState k)
    (exec toISOString ClientConnect (after (setSessionState k v ttl) w))
  = Ok None ∧
  fallbackStore (exec toISOString ClientConnect (after (setSessionState k v ttl) w))
    !! session_key k
  = Some (SessionEntry v (now w + ttl * 1000)).
Proof.
  intros Hc Hcl Hh Hl. split.
  - unfold result. by rewrite setSessionState_offline.
  - rewrite getSessionState_result. cbn [exec]. unfold after.
    rewrite setSessionState_offline by done. cbn [snd].
    unfold on_client_connect. unfold_m. split.
    + f_equal. rewrite session_view_remote.
      * unfold redis_lookup in *. proj_m. by rewrite Hl.
      * unfold remote_mode, healthy. by proj_m.
    + proj_m. apply lookup_insert_eq.
Qed.

(** ** Participants: ids stay unique *)

Lemma without_ids x (ps : list Participant) :
  NoDup (id <$> ps) → NoDup (id <$> without x ps) ∧ x ∉ id <$> without x ps.
Proof.
  unfold without. induction ps as [|p ps IH]; intros Hnd.
  - split; [constructor|]. apply not_elem_of_nil.
  - rewrite fmap_cons in Hnd. apply NoDup_cons in Hnd as [Hp Hnd].
    destruct (IH Hnd) as [IH1 IH2]. rewrite filter_cons. case_decide as Hx.
    + rewrite fmap_cons. split.
      * apply NoDup_cons. split; [|done]. intros Hin. apply Hp.
        apply list_elem_of_fmap in Hin as (q & -> & Hq).
        apply list_elem_of_filter in Hq as [_ Hq].
        apply list_elem_of_fmap. by exists q.
      * apply not_elem_of_cons. split; [by intros ->|done].
    + done.
Qed.

Lemma unique_ids_insert_session (m : gmap string Stored) k v :
  unique_ids m → unique_ids (<[session_key k := v]> m).
Proof.
  intros [Hwf Hu]. split; [by apply store_wf_insert_session|].
  intros s ps. rewrite lookup_insert_ne; [apply Hu|].
  apply session_key_not_participants.
Qed.

Lemma unique_ids_delete_session (m : gmap string Stored) k :
  unique_ids m → unique_ids (delete (session_key k) m).
Proof.
  intros [Hwf Hu]. split; [by apply store_wf_delete|].
  intros s ps. rewrite lookup_delete_ne; [apply Hu|].
  apply session_key_not_participants.
Qed.

Lemma unique_ids_insert (m : gmap string Stored) s ps :
  unique_ids m → NoDup (id <$> ps) →
  unique_ids (<[participants_key s := ParticipantList ps]> m).
Proof.
  intros [Hwf Hu] Hps. split; [by apply store_wf_insert_list|].
  intros s' ps'. destruct (decide (s = s')) as [->|Hs].
  - rewrite lookup_insert_eq. by intros [= <-].
  - rewrite lookup_insert_ne; [apply Hu|].
    intros Hk. by apply participants_key_inj in Hk.
Qed.

Lemma unique_ids_empty : unique_ids (∅ : gmap string Stored).
Proof. split; [apply store_wf_empty|]. intros s ps. by rewrite lookup_empty. Qed.

Lemma unique_ids_add_block s p b :
  spec (store_inv (Val:=Val) unique_ids) (add_participant_fallback s p) (λ _, True) b.
Proof.
  intros w Hw. pose proof Hw as [Hwf Hu]. unfold_m.
  destruct (fallbackStore w !! participants_key s) as [[d ex|ps|]|] eqn:Hs.
  3: (destruct (Hwf _ _ Hs) as [? ?]; discriminate).
  - destruct (Hwf _ _ Hs) as [? ?]. discriminate.
  - split; [done|]. unfold store_inv, world_inv. proj_m.
    apply unique_ids_insert; [done|].
    destruct (without_ids (id p) ps (Hu _ _ Hs)) as [Hnd Hnin].
    rewrite fmap_app. apply NoDup_app. split; [done|]. split.
    + intros x Hx Hx'. apply list_elem_of_singleton in Hx'. by subst x.
    + apply NoDup_singleton.
  - split; [done|]. unfold store_inv, world_inv. proj_m.
    apply unique_ids_insert; [done|]. apply NoDup_singleton.
Qed.

Lemma unique_ids_remove_block s pid b :
  spec (store_inv (Val:=Val) unique_ids) (remove_participant_fallback s pid)
    (λ _, True) b.
Proof.
  intros w Hw. pose proof Hw as [Hwf Hu]. unfold_m.
  destruct (fallbackStore w !! participants_key s) as [[d ex|ps|]|] eqn:Hs.
  3: (destruct (Hwf _ _ Hs) as [? ?]; discriminate).
  - destruct (Hwf _ _ Hs) as [? ?]. discriminate.
  - split; [done|]. unfold store_inv, world_inv. proj_m.
    apply unique_ids_insert; [done|]. by apply without_ids, (Hu s).
  - split; [done|]. unfold store_inv, world_inv. proj_m.
    apply unique_ids_insert; [done|]. constructor.
Qed.

Lemma exec_unique_ids (c : @Call Val) (w : World) :
  store_inv unique_ids w → store_inv unique_ids (exec toISOString c w).
Proof.
  apply exec_store_inv;
    [apply unique_ids_insert_session|apply unique_ids_delete_session|].
  destruct c; try exact Logic.I.
  - intros b. apply unique_ids_add_block.
  - intros b. apply unique_ids_remove_block.
  - apply unique_ids_empty.
Qed.

(** X11. The fallback registry never holds two records of one id: if the
    ids of every session's array are pairwise distinct, they still are
    after any history of calls, events, faults and elapsed time, and what
    [getParticipants] returns in fallback mode has no repeated id.  A
    freshly constructed service starts that way. *)
Theorem participant_ids_stay_unique (w : World) (history : list (@Call Val)) s :
  unique_ids (fallbackStore w) →
  ∃ ps,
    result (getParticipants s) (set_isConnected false (run toISOString history w))
    = Ok (ParticipantList ps) ∧
    NoDup (id <$> ps).
Proof.
  intros Hw.
  assert (Hrun : store_inv unique_ids (run toISOString history w)).
  { revert w Hw. induction history as [|c cs IH]; intros w Hw; [done|].
    cbn. apply IH. by apply exec_unique_ids. }
  destruct Hrun as [Hwf Hu]. eexists. unfold result.
  rewrite getParticipants_offline; [|done|done]. cbn [fst]. split; [done|].
  unfold fallback_participants. proj_m.
  destruct (fallbackStore (run toISOString history w) !! participants_key s)
    as [[d ex|ps|]|] eqn:Hs; [constructor|by apply (Hu s)|constructor|constructor].
Qed.

Lemma construct_unique_ids (env : World) : unique_ids (fallbackStore (construct env)).
Proof. apply unique_ids_empty. Qed.

(** ** Participants: removal *)

Lemma participants_view_remote (w : World) s :
  remote_mode w →
  participants_view w s =
    match redis_lookup w (participants_key s) with
    | None => ParticipantList []
    | Some (mkREntry (RHash h) _) =>
        match parse_list (map_to_list h).*2 with
        | Some ps => ParticipantList ps
        | None => fallback_view w s
        end
    | Some (mkREntry (RString _) _) => fallback_view w s
    end.
Proof.
  intros (Hc & [c Hcl] & Hh). unfold participants_view. rewrite Hc, Hcl. cbn [negb].
  unfold healthy in Hh. destruct (faults w) as [|[e|] fs]; [done| |done].
  by apply Forall_cons in Hh as [? _].
Qed.

Lemma parse_list_reads (l : list (string * string)) (ps : list Participant) :
  Forall2 reads_as l ps → parse_list l.*2 = Some ps.
Proof.
  induction 1 as [|[f v] p l ps [Hp _] _ IH]; [done|].
  rewrite fmap_cons. cbn [parse_list snd] in *. by rewrite Hp, IH.
Qed.

(** What a well-formed hash reads as: one record per field, none of an id
    the hash has no field for. *)
Lemma hash_reads (h : gmap string string) pid :
  (∀ f v, h !! f = Some v → ∃ p : Participant, JSON_parse v = Some p ∧ id p = f) →
  h !! pid = None →
  ∃ ps, parse_list (map_to_list h).*2 = Some ps ∧ Forall (λ p, id p ≠ pid) ps.
Proof.
  intros Hwf Hpid.
  destruct (fields_read (map_to_list h)) as [ps Hps].
  { intros f v Hfv. apply elem_of_map_to_list in Hfv. by apply Hwf. }
  exists ps. split; [by apply parse_list_reads|].
  assert (Hnin : pid ∉ (map_to_list h).*1).
  { intros Hin. apply list_elem_of_fmap in Hin as ([f v] & -> & Hin).
    apply elem_of_map_to_list in Hin. cbn in Hpid. congruence. }
  clear Hwf Hpid. revert Hnin.
  induction Hps as [|[f v] p l ps' [Hp Hid] _ IH]; intros Hnin; [constructor|].
  rewrite fmap_cons in Hnin. apply not_elem_of_cons in Hnin as [Hne Hnin].
  constructor; [cbn in *; congruence|by apply IH].
Qed.

Lemma removeParticipant_remote (w : World) s pid :
  remote_mode w → not_a_string w (participants_key s) →
  removeParticipant s pid w =
    (Ok true,
     set_console
       (console w ++ [(Info, "Participant removed: " +:+ pid +:+ " from " +:+ s)])
       (cmd_hDel (participants_key s) pid (set_faults (tail (faults w)) w)).2).
Proof.
  intros (Hc & [c Hcl] & Hh) Hns.
  unfold removeParticipant, deref, client_hDel. unfold_m.
  rewrite Hc; red_m. rewrite Hcl; red_m. rewrite await_healthy by done.
  unfold cmd_hDel.
  replace (redis_lookup (set_faults (tail (faults w)) w) (participants_key s))
    with (redis_lookup w (participants_key s)) by done.
  destruct (redis_lookup w (participants_key s)) as [[[x|h] ex]|] eqn:Hl.
  - apply redis_lookup_Some in Hl as [Hl _]. destruct (Hns _ Hl) as [h Hh0].
    discriminate.
  - destruct (h !! pid); [|done]. cbv zeta. by destruct (decide (delete pid h = ∅)).
  - done.
Qed.

(** X12. After [removeParticipant] no record of that id is left in what
    [getParticipants] returns for the session: in fallback mode, where the
    other records are kept in their order, and on a healthy connection
    whose hash for the session holds under every field a record of the id
    naming it, as [addParticipant] writes it. *)
Theorem remove_then_gone (w : World) s pid :
  (isConnected w = false ∧ store_wf (fallbackStore w)) ∨
  (remote_mode w ∧ remote_participants_wf w s) →
  result (removeParticipant s pid) w = Ok true ∧
  ∃ ps,
    result (getParticipants s) (after (removeParticipant s pid) w)
    = Ok (ParticipantList ps) ∧
    Forall (λ p, id p ≠ pid) ps ∧
    (isConnected w = false → ps = without pid (fallback_participants w s)).
Proof.
  intros [[Hc Hwf]|[Hr Hrw]].
  - unfold result, after.
    assert (Hrun : removeParticipant s pid w =
      (Ok true,
       set_console
         (console w ++
            [(Info, "[Fallback] Participant removed: " +:+ pid +:+ " from " +:+ s)])
         (set_fallbackStore
            (<[participants_key s :=
                 ParticipantList (without pid (fallback_participants w s))]>
               (fallbackStore w)) w))).
    { unfold removeParticipant, fallback_participants. unfold_m. rewrite Hc; red_m.
      destruct (fallbackStore w !! participants_key s) as [[d ex|ps|]|] eqn:Hs; red_m;
        [|done| |done];
        destruct (Hwf _ _ Hs) as [ps Hps]; discriminate. }
    rewrite Hrun. cbn [fst snd]. split; [done|].
    rewrite getParticipants_offline; [|done|proj_m; by apply store_wf_insert_list].
    cbn [fst]. eexists. split; [done|].
    unfold fallback_participants at 1 3. proj_m. rewrite lookup_insert_eq.
    split; [|done]. apply Forall_forall. intros p Hp.
    by apply list_elem_of_filter in Hp as [? _].
  - pose proof (remote_wf_not_a_string _ _ Hrw) as Hns.
    split; [unfold result; by rewrite removeParticipant_remote|].
    unfold after. rewrite removeParticipant_remote by done. cbn [snd].
    rewrite getParticipants_result.
    destruct Hr as (Hc & Hcl & Hh).
    assert (Hh' : Forall (λ f, f = None) (tail (faults w))) by by eapply healthy_tail.
    set (w1 := set_faults (tail (faults w)) w).
    assert (Hsame : redis_lookup w1 (participants_key s)
                    = redis_lookup w (participants_key s)) by done.
    cut (∃ ps, participants_view
                 (set_console
                    (console w ++
                       [(Info, "Participant removed: " +:+ pid +:+ " from " +:+ s)])
                    (cmd_hDel (participants_key s) pid w1).2) s = ParticipantList ps
               ∧ Forall (λ p, id p ≠ pid) ps).
    { intros (ps & -> & Hps). exists ps. split; [done|]. split; [done|].
      intros Hoff. congruence. }
    unfold cmd_hDel. rewrite Hsame.
    destruct (redis_lookup w (participants_key s)) as [[[x|h] ex]|] eqn:Hl.
    + apply redis_lookup_Some in Hl as [Hl _]. destruct (Hns _ Hl) as [h Hh0].
      discriminate.
    + pose proof Hl as Hl0. apply redis_lookup_Some in Hl0 as [Hl0 Hlive].
      destruct (Hrw _ Hl0) as (h' & [= <-] & Hfields).
      destruct (h !! pid) as [v|] eqn:Hpid; cbv zeta.
      * destruct (decide (delete pid h = ∅)) as [He|He]; cbn [snd].
        -- exists []. split; [|constructor].
           rewrite participants_view_remote by (by subst w1).
           unfold redis_lookup. subst w1. proj_m. by rewrite lookup_delete_eq.
        -- destruct (hash_reads (delete pid h) pid) as (ps & Hps & Hall).
           { intros f x Hx. apply lookup_delete_Some in Hx as [_ Hx]. by apply Hfields. }
           { apply lookup_delete_eq. }
           exists ps. split; [|done].
           rewrite participants_view_remote by (by subst w1).
           unfold redis_lookup. subst w1. proj_m. rewrite lookup_insert_eq.
           replace (live (now w) _) with true by done. by rewrite Hps.
      * cbn [snd]. destruct (hash_reads h pid Hfields Hpid) as (ps & Hps & Hall).
        exists ps. split; [|done].
        rewrite participants_view_remote by (by subst w1).
        replace (redis_lookup _ _) with (redis_lookup w (participants_key s)) by done.
        by rewrite Hl, Hps.
    + cbn [snd]. exists []. split; [|constructor].
      rewrite participants_view_remote by (by subst w1).
      replace (redis_lookup _ _) with (redis_lookup w (participants_key s)) by done.
      by rewrite Hl.
Qed.

(** X13. [addParticipant] issues two commands; when the first (HSET)
    succeeds -- the key holds no string -- and the second (EXPIRE) fails,
    the call still returns [true] and the record ends up in both stores: in
    the server's hash, whose deadline is not refreshed (it keeps the one it
    had; a hash created by this very call has none at all), and in the
    fallback array. *)
Theorem add_with_failed_expire (w : World) s p str e fs :
  isConnected w = true → is_Some (client w) → JSON_stringify p = Some str →
  faults w = None :: Some e :: fs →
  not_a_string w (participants_key s) →
  store_wf (fallbackStore w) →
  result (addParticipant s p) w = Ok true ∧
  redis (after (addParticipant s p) w) !! participants_key s
  = Some (mkREntry (RHash (<[id p := str]> (live_hash w (participants_key s))))
            (match redis_lookup w (participants_key s) with
             | Some old => rexpire old
             | None => None
             end)) ∧
  p ∈ fallback_participants (after (addParticipant s p) w) s.
Proof.
  intros Hc [c Hcl] Hs Hf Hns Hwf.
  unfold result, after, fallback_participants, live_hash, addParticipant, deref,
    stringify, client_hSet, client_expire, await, cmd_hSet.
  unfold_m. rewrite Hc; red_m. rewrite Hcl; red_m. rewrite Hs; red_m.
  rewrite Hf; red_m.
  replace (redis_lookup (set_faults (Some e :: fs) w) (participants_key s))
    with (redis_lookup w (participants_key s)) by done.
  destruct (redis_lookup w (participants_key s)) as [[[x|h] ex]|] eqn:Hl; red_m.
  - apply redis_lookup_Some in Hl as [Hl _]. destruct (Hns _ Hl) as [h Hh]. discriminate.
  - proj_m. rewrite Hcl; red_m. proj_m.
    destruct (fallbackStore w !! participants_key s) as [[d ex'|ps|]|] eqn:Hst; red_m;
      proj_m.
    + destruct (Hwf _ _ Hst) as [? ?]. discriminate.
    + split; [done|]. split; [apply lookup_insert_eq|]. rewrite lookup_insert_eq.
      apply elem_of_app. right. by left.
    + destruct (Hwf _ _ Hst) as [? ?]. discriminate.
    + split; [done|]. split; [apply lookup_insert_eq|]. rewrite lookup_insert_eq.
      by left.
  - proj_m. rewrite Hcl; red_m. proj_m.
    destruct (fallbackStore w !! participants_key s) as [[d ex'|ps|]|] eqn:Hst; red_m;
      proj_m.
    + destruct (Hwf _ _ Hst) as [? ?]. discriminate.
    + split; [done|]. split; [apply lookup_insert_eq|]. rewrite lookup_insert_eq.
      apply elem_of_app. right. by left.
    + destruct (Hwf _ _ Hst) as [? ?]. discriminate.
    + split; [done|]. split; [apply lookup_insert_eq|]. rewrite lookup_insert_eq.
      by left.
Qed.

(** ** Sessions do not interfere *)

Lemma pinned_insert_session K a b (m : gmap string Stored) (r : gmap string REntry) k v :
  K ≠ session_key k → wf_pinned K a b m r → wf_pinned K a b (<[session_key k := v]> m) r.
Proof.
  intros Hk (Hwf & H1 & H2). split; [by apply store_wf_insert_session|].
  split; [|done]. by rewrite lookup_insert_ne.
Qed.

Lemma pinned_insert_list K a b (m : gmap string Stored) (r : gmap string REntry) k ps :
  K ≠ k → wf_pinned K a b m r → wf_pinned K a b (<[k := ParticipantList ps]> m) r.
Proof.
  intros Hk (Hwf & H1 & H2). split; [by apply store_wf_insert_list|].
  split; [|done]. by rewrite lookup_insert_ne.
Qed.

Lemma pinned_delete_store K a b (m : gmap string Stored) (r : gmap string REntry) k :
  K ≠ k → wf_pinned K a b m r → wf_pinned K a b (delete k m) r.
Proof.
  intros Hk (Hwf & H1 & H2). split; [by apply store_wf_delete|].
  split; [|done]. by rewrite lookup_delete_ne.
Qed.

Lemma pinned_insert_server K a b (m : gmap string Stored) (r : gmap string REntry) k e :
  K ≠ k → wf_pinned K a b m r → wf_pinned K a b m (<[k := e]> r).
Proof.
  intros Hk (Hwf & H1 & H2). split; [done|]. split; [done|].
  by rewrite lookup_insert_ne.
Qed.

Lemma pinned_delete_server K a b (m : gmap string Stored) (r : gmap string REntry) k :
  K ≠ k → wf_pinned K a b m r → wf_pinned K a b m (delete k r).
Proof.
  intros Hk (Hwf & H1 & H2). split; [done|]. split; [done|].
  by rewrite lookup_delete_ne.
Qed.

Lemma add_keeps_pinned K a b s p :
  K ≠ participants_key s → add_keeps (world_inv (Val:=Val) (wf_pinned K a b)) s p.
Proof.
  intros Hk. split; [|split].
  - intros b0 w Hw. pose proof Hw as [Hwf _]. unfold world_inv in *. unfold_m.
    destruct (fallbackStore w !! participants_key s) as [[d ex|ps|]|] eqn:Hs; red_m.
    3: (destruct (Hwf _ _ Hs) as [? ?]; discriminate).
    + destruct (Hwf _ _ Hs) as [? ?]. discriminate.
    + split; [done|]. proj_m. by apply pinned_insert_list.
    + split; [done|]. proj_m. by apply pinned_insert_list.
  - intros v w Hw. unfold client_hSet, await, cmd_hSet, world_inv in *.
    destruct (faults w) as [|[e|] fs]; red_m; [|done|].
    + destruct (redis_lookup w _) as [[[x|h] ex]|]; red_m; (split; [done|]);
        proj_m; try done; by apply pinned_insert_server.
    + replace (redis_lookup (set_faults fs w) (participants_key s))
        with (redis_lookup w (participants_key s)) by done.
      destruct (redis_lookup w _) as [[[x|h] ex]|]; red_m; (split; [done|]);
        proj_m; try done; by apply pinned_insert_server.
  - intros w Hw. unfold client_expire, await, cmd_expire, world_inv in *.
    destruct (faults w) as [|[e|] fs]; red_m; [|done|].
    + destruct (redis_lookup w _) as [[x ex]|]; red_m; (split; [done|]);
        proj_m; try done; by apply pinned_insert_server.
    + replace (redis_lookup (set_faults fs w) (participants_key s))
        with (redis_lookup w (participants_key s)) by done.
      destruct (redis_lookup w _) as [[x ex]|]; red_m; (split; [done|]);
        proj_m; try done; by apply pinned_insert_server.
Qed.

Lemma remove_keeps_pinned K a b s pid :
  K ≠ participants_key s →
  remove_keeps (world_inv (Val:=Val) (wf_pinned K a b)) s pid.
Proof.
  intros Hk. split.
  - intros b0 w Hw. pose proof Hw as [Hwf _]. unfold world_inv in *. unfold_m.
    destruct (fallbackStore w !! participants_key s) as [[d ex|ps|]|] eqn:Hs; red_m.
    3: (destruct (Hwf _ _ Hs) as [? ?]; discriminate).
    + destruct (Hwf _ _ Hs) as [? ?]. discriminate.
    + split; [done|]. proj_m. by apply pinned_insert_list.
    + split; [done|]. proj_m. by apply pinned_insert_list.
  - intros w Hw. unfold client_hDel, await, cmd_hDel, world_inv in *.
    destruct (faults w) as [|[e|] fs]; red_m; [|done|].
    + destruct (redis_lookup w _) as [[[x|h] ex]|]; red_m; [done| |done].
      destruct (h !! pid); [|done]. cbv zeta.
      destruct (decide (delete pid h = ∅)); (split; [done|]); proj_m;
        [by apply pinned_delete_server|by apply pinned_insert_server].
    + replace (redis_lookup (set_faults fs w) (participants_key s))
        with (redis_lookup w (participants_key s)) by done.
      destruct (redis_lookup w _) as [[[x|h] ex]|]; red_m; [done| |done].
      destruct (h !! pid); [|done]. cbv zeta.
      destruct (decide (delete pid h = ∅)); (split; [done|]); proj_m;
        [by apply pinned_delete_server|by apply pinned_insert_server].
Qed.

(** A key of the participants namespace is out of reach of every data
    call but the two writers of its own session. *)
Lemma exec_pinned_participants (c : @Call Val) (w : World) s a b :
  leaves_participants s c →
  world_inv (wf_pinned (participants_key s) a b) w →
  world_inv (wf_pinned (participants_key s) a b) (exec toISOString c w).
Proof.
  intros [Hd Hc] Hw. apply exec_world_inv; [..|done].
  - intros m r k v. apply pinned_insert_session.
    intros Hk. by apply eq_sym, session_key_not_participants in Hk.
  - intros m r k. apply pinned_delete_store.
    intros Hk. by apply eq_sym, session_key_not_participants in Hk.
  - intros m r k e. apply pinned_insert_server.
    intros Hk. by apply eq_sym, session_key_not_participants in Hk.
  - intros m r k. apply pinned_delete_server.
    intros Hk. by apply eq_sym, session_key_not_participants in Hk.
  - destruct c; try done; cbn [step_keeps].
    + apply add_keeps_pinned. intros Hk. by apply participants_key_inj in Hk.
    + apply remove_keeps_pinned. intros Hk. by apply participants_key_inj in Hk.
Qed.

Lemma participants_view_local (w1 w2 : World) s :
  isConnected w1 = isConnected w2 → client w1 = client w2 →
  faults w1 = faults w2 → now w1 = now w2 →
  redis w1 !! participants_key s = redis w2 !! participants_key s →
  fallbackStore w1 !! participants_key s = fallbackStore w2 !! participants_key s →
  participants_view w1 s = participants_view w2 s.
Proof.
  intros Hc Hcl Hf Hn Hr Hv. unfold participants_view, redis_lookup, fallback_view.
  by rewrite Hc, Hcl, Hf, Hr, Hn, Hv.
Qed.

Lemma session_view_local (w1 w2 : World) k :
  isConnected w1 = isConnected w2 → client w1 = client w2 →
  faults w1 = faults w2 → now w1 = now w2 →
  redis w1 !! session_key k = redis w2 !! session_key k →
  fallbackStore w1 !! session_key k = fallbackStore w2 !! session_key k →
  session_view w1 k = session_view w2 k.
Proof.
  intros Hc Hcl Hf Hn Hr Hv. unfold session_view, redis_lookup.
  by rewrite Hc, Hcl, Hf, Hr, Hn, Hv.
Qed.

(** X14. The participants of one session are out of reach of every call
    about something else: after any sequence of data and event calls
    among which no [addParticipant] or [removeParticipant] names the
    session, [getParticipants] returns for it what it would have returned
    before, under every schedule of network failures.  The fallback store
    is assumed to have the shape the service gives it. *)
Theorem participants_isolated (w : World) (history : list (@Call Val)) s fs :
  store_wf (fallbackStore w) →
  Forall (leaves_participants s) history →
  result (getParticipants s) (set_faults fs (run toISOString history w))
  = result (getParticipants s) (set_faults fs w).
Proof.
  intros Hwf Hh. rewrite !getParticipants_result. f_equal.
  cut (link (run toISOString history w) = link w ∧
       ambient (run toISOString history w) = ambient w ∧
       world_inv (wf_pinned (participants_key s)
                    (fallbackStore w !! participants_key s)
                    (redis w !! participants_key s)) (run toISOString history w)).
  { intros (Hl & Ha & _ & H1 & H2). unfold link, ambient in *. simplify_eq.
    apply participants_view_local; proj_m; done. }
  revert w Hwf. induction Hh as [|c cs Hc _ IH]; intros w Hwf; [done|].
  cbn [run foldl].
  destruct (exec_pinned_participants c w s _ _ Hc (conj Hwf (conj eq_refl eq_refl)))
    as (Hwf' & H1 & H2).
  destruct (IH (exec toISOString c w) Hwf') as (Hl & Ha & Hp).
  pose proof Hc as [Hd _].
  rewrite (exec_data_call link link_beside_data c w Hd) in Hl.
  rewrite (exec_data_call ambient ambient_beside_data c w Hd) in Ha.
  split; [done|]. split; [done|]. by rewrite H1, H2 in Hp.
Qed.

Ltac pinned_tac :=
  unfold_m; repeat (case_match || case_decide); simplify_eq/=; proj_m;
  rewrite ?lookup_insert_ne, ?lookup_delete_ne by done; done.

Lemma setSessionState_pinned K a b k v ttl :
  K ≠ session_key k →
  spec (world_inv (Val:=Val) (pinned K a b)) (setSessionState k v ttl) (λ _, True) false.
Proof.
  intros Hk w [H1 H2].
  assert (session_key k ≠ K) by done.
  unfold setSessionState, deref, stringify, client_setEx, await, cmd_setEx,
    world_inv, pinned.
  pinned_tac.
Qed.

Lemma getSessionState_pinned K a b k :
  K ≠ session_key k →
  spec (world_inv (Val:=Val) (pinned K a b)) (getSessionState k) (λ _, True) false.
Proof.
  intros Hk w [H1 H2].
  assert (session_key k ≠ K) by done.
  unfold getSessionState, deref, parse, client_get, await, cmd_get, world_inv, pinned.
  unfold_m. destruct (isConnected w); red_m.
  - destruct (client w) as [c|]; red_m; [|pinned_tac].
    destruct (faults w) as [|[e|] fs]; red_m; [|pinned_tac|].
    + destruct (redis_lookup w (session_key k)) as [[[x|h] ex]|]; red_m; pinned_tac.
    + destruct (redis_lookup (set_faults fs w) (session_key k)) as [[[x|h] ex]|];
        red_m; pinned_tac.
  - pinned_tac.
Qed.

Lemma deleteSessionState_pinned K a b k :
  K ≠ session_key k →
  spec (world_inv (Val:=Val) (pinned K a b)) (deleteSessionState k) (λ _, True) false.
Proof.
  intros Hk w [H1 H2].
  assert (session_key k ≠ K) by done.
  unfold deleteSessionState, deref, client_del, await, cmd_del, world_inv, pinned.
  pinned_tac.
Qed.

Lemma exec_pinned_session (c : @Call Val) (w : World) k a b :
  leaves_session k c →
  world_inv (wf_pinned (session_key k) a b) w →
  world_inv (wf_pinned (session_key k) a b) (exec toISOString c w).
Proof.
  intros [Hd Hc] [Hwf Hw].
  assert (Hne : ∀ k', k' ≠ k → session_key k ≠ session_key k').
  { intros k' Hk' Hk. by apply session_key_inj in Hk. }
  change (Inv w) in Hwf. change (world_inv (pinned (session_key k) a b) w) in Hw.
  destruct c; try done; cbn [exec].
  - split.
    + eapply (spec_after Inv); [|done].
      apply setSessionState_store, store_wf_insert_session.
    + eapply spec_after; [by apply setSessionState_pinned, Hne|done].
  - split.
    + eapply (spec_after Inv); [|done].
      apply getSessionState_store, store_wf_delete_session.
    + eapply spec_after; [by apply getSessionState_pinned, Hne|done].
  - split.
    + eapply (spec_after Inv); [|done].
      apply deleteSessionState_store, store_wf_delete_session.
    + eapply spec_after; [by apply deleteSessionState_pinned, Hne|done].
  - eapply spec_after; [|by split]. apply addParticipant_spec.
    apply add_keeps_pinned, session_key_not_participants.
  - eapply spec_after; [|by split]. apply removeParticipant_spec.
    apply remove_keeps_pinned, session_key_not_participants.
  - eapply spec_after; [|by split].
    apply getParticipants_spec with (φ := λ _, True); [done|].
    intros b0 w' Hw'. unfold_m. by destruct (fallbackStore w' !! _).
  - eapply spec_after; [apply publishEvent_spec|by split].
  - eapply spec_after; [apply subscribeToEvents_spec|by split].
  - eapply spec_after; [apply healthCheck_spec|by split].
Qed.

(** X15. The state of one session is out of reach of every call about
    something else: after any sequence of data and event calls among which
    no [setSessionState], [getSessionState] or [deleteSessionState] names
    the session, [getSessionState] returns for it what it would have
    returned before, under every schedule of network failures.  In
    particular no participant call ever changes a session's state. *)
Theorem session_isolated (w : World) (history : list (@Call Val)) k fs :
  store_wf (fallbackStore w) →
  Forall (leaves_session k) history →
  result (getSessionState k) (set_faults fs (run toISOString history w))
  = result (getSessionState k) (set_faults fs w).
Proof.
  intros Hwf Hh. rewrite !getSessionState_result. f_equal.
  cut (link (run toISOString history w) = link w ∧
       ambient (run toISOString history w) = ambient w ∧
       world_inv (wf_pinned (session_key k)
                    (fallbackStore w !! session_key k)
                    (redis w !! session_key k)) (run toISOString history w)).
  { intros (Hl & Ha & _ & H1 & H2). unfold link, ambient in *. simplify_eq.
    apply session_view_local; proj_m; done. }
  revert w Hwf. induction Hh as [|c cs Hc _ IH]; intros w Hwf; [done|].
  cbn [run foldl].
  destruct (exec_pinned_session c w k _ _ Hc (conj Hwf (conj eq_refl eq_refl)))
    as (Hwf' & H1 & H2).
  destruct (IH (exec toISOString c w) Hwf') as (Hl & Ha & Hp).
  pose proof Hc as [Hd _].
  rewrite (exec_data_call link link_beside_data c w Hd) in Hl.
  rewrite (exec_data_call ambient ambient_beside_data c w Hd) in Ha.
  split; [done|]. split; [done|]. by rewrite H1, H2 in Hp.
Qed.

(** ** Events *)





(** X18. The caller cannot tell a lost event from a sent one: when the
    publisher object is missing, the event does not serialise or the
    command fails, [publishEvent] still returns [true], and no callback is
    invoked. *)
Theorem publish_loss_is_silent (w : World) ch ev d :
  isConnected w = true →
  publisher w = None ∨
  JSON_stringify (mkEnvelope ev d (toISOString (now w))) = None ∨
  (∃ e fs, faults w = Some e :: fs) →
  result (publishEvent toISOString ch ev d) w = Ok true ∧
  delivered (after (publishEvent toISOString ch ev d) w) = delivered w ∧
  isConnected (after (publishEvent toISOString ch ev d) w) = true.
Proof.
  intros Hc Hcase.
  unfold result, after, publishEvent, deref, stringify, publisher_publish, await,
    cmd_publish.
  unfold_m. rewrite Hc; red_m.
  destruct (JSON_stringify (mkEnvelope ev d (toISOString (now w)))) as [msg|] eqn:Hs;
    red_m; [|done].
  destruct (publisher w) as [p|] eqn:Hpub; red_m; [|done].
  destruct Hcase as [?|[?|(e & fs & Hf)]]; [done|done|].
  rewrite Hf; red_m. by proj_m.
Qed.

(** X19. The listener shields the subscriber from malformed messages: a
    message that does not parse is handed to no callback and raises
    nothing; each listener of the channel logs one error, and the
    subscriptions stay in place. *)
Theorem malformed_message_is_dropped (subs : list (string * nat)) ch msg (w : World) :
  JSON_parse (A:=Envelope Val) msg = None →
  result (deliver subs ch msg) w = Ok tt ∧
  delivered (after (deliver subs ch msg) w) = delivered w ∧
  subscriptions (after (deliver subs ch msg) w) = subscriptions w ∧
  length (console (after (deliver subs ch msg) w))
  = (length (console w) + length (filter (λ sub, sub.1 = ch) subs))%nat.
Proof.
  intros Hp. unfold result, after. revert w.
  induction subs as [|[ch' cb] subs IH]; intros w.
  - cbn. repeat split; try done; lia.
  - cbn [deliver]. unfold_m.
    destruct (decide (ch' = ch)) as [->|Hne].
    + rewrite filter_cons_True by done.
      unfold listener, parse. unfold_m. rewrite Hp. red_m.
      destruct (IH (set_console
                      (console w ++
                         [(Problem, "Redis message parse error: " +:+
                                    message (Error "Unexpected token in JSON"))]) w))
        as (H1 & H2 & H3 & H4).
      destruct (deliver subs ch msg _) as [[[]|e] w']; [|done].
      cbn [fst snd] in *. revert H4. proj_m. rewrite length_app. cbn [length].
      intros H4. repeat split; try done.
      etrans; [exact H4|]. rewrite <- Nat.add_assoc. reflexivity.
    + rewrite filter_cons_False by done.
      red_m. destruct (IH w) as (H1 & H2 & H3 & H4).
      by destruct (deliver subs ch msg w) as [[[]|e] w'].
Qed.

(** ** Health *)

(** X20. On a service that believes it is connected, [healthCheck] reports
    what the probe says: status [connected] exactly when the reply is
    [PONG] and [error] for any other reply, with mode [redis].  When the
    probe fails it reports mode [in-memory], status [fallback] and
    [connected: false] with the error's message -- but it does not switch
    the service to fallback mode: the flag is still true afterwards. *)
Theorem healthCheck_connected (w : World) :
  isConnected w = true →
  (is_Some (client w) → (∀ e, head (faults w) ≠ Some (Some e)) →
   result healthCheck w
   = Ok (mkHealth (if decide (pong w = "PONG") then "connected" else "error")
           "redis" true None)) ∧
  (∀ e fs, is_Some (client w) → faults w = Some e :: fs →
   result healthCheck w = Ok (mkHealth "fallback" "in-memory" false (Some (message e)))) ∧
  (client w = None →
   ∃ msg, result healthCheck w = Ok (mkHealth "fallback" "in-memory" false (Some msg))) ∧
  isConnected (after healthCheck w) = true.
Proof.
  intros Hc. unfold result, after, healthCheck, deref, client_ping, await, cmd_ping.
  unfold_m. rewrite Hc; red_m.
  destruct (client w) as [c|] eqn:Hcl; red_m;
    [destruct (faults w) as [|[e|] fs] eqn:Hf; red_m; proj_m; rewrite ?Hc|];
    repeat split; intros; simplify_eq/=; try done;
    try (by eexists);
    repeat match goal with
      | H : is_Some None |- _ => by destruct H
      | H : ∀ e, Some (Some ?x) ≠ Some (Some e) |- _ => by destruct (H x)
      end.
Qed.

(** ** Reconnection and shutdown over the lifetime of the service *)

Lemma exec_retry_fields (c : @Call Val) (w : World) :
  maxRetries (exec toISOString c w) = maxRetries w ∧
  (retryCount (exec toISOString c w) = retryCount w ∨
   retryCount (exec toISOString c w) = 0).
Proof.
  assert (Hdata : is_data_call c →
            maxRetries (exec toISOString c w) = maxRetries w ∧
            (retryCount (exec toISOString c w) = retryCount w ∨
             retryCount (exec toISOString c w) = 0)).
  { intros Hd. pose proof (exec_data_call link link_beside_data c w Hd) as Hl.
    unfold link in Hl. simplify_eq. split; [done|by left]. }
  destruct c; try (by apply Hdata); cbn [exec].
  - by destruct (init_keeps w) as (_ & _ & _ & Hm & Hr).
  - destruct (disconnect_keeps w) as (_ & _ & _ & _ & _ & Hm & Hr & _).
    split; [done|by left].
  - unfold after, on_client_error, enableFallbackMode. unfold_m. split; [done|by left].
  - unfold after, on_client_connect. unfold_m. split; [done|by right].
  - unfold after, on_client_end, enableFallbackMode. unfold_m. split; [done|by left].
  - split; [done|by left].
  - split; [done|by left].
Qed.

(** X21. Nothing ever changes the reconnect limit or counts a retry: through
    every history of a freshly constructed service [maxRetries] is 5 and
    [retryCount] is 0.  So the reconnect strategy answers attempt [n] with
    a delay of [n * 100] milliseconds up to the fifth attempt and with the
    stop signal afterwards; the cap of 3000 milliseconds is never the
    minimum. *)
Theorem reconnect_limit_is_fixed (env : World) (history : list (@Call Val)) (n : Z) :
  maxRetries (run toISOString history (construct env)) = 5 ∧
  retryCount (run toISOString history (construct env)) = 0 ∧
  reconnectStrategy (run toISOString history (construct env)) n
  = (if decide (5 < n) then Stop else RetryAfter (n * 100)).
Proof.
  assert (H : ∀ w : World, maxRetries w = 5 → retryCount w = 0 →
            maxRetries (run toISOString history w) = 5 ∧
            retryCount (run toISOString history w) = 0).
  { induction history as [|c cs IH]; intros w Hm Hr; [done|].
    cbn [run foldl]. destruct (exec_retry_fields c w) as [Hm' Hr'].
    apply IH; [congruence|destruct Hr'; congruence]. }
  destruct (H (construct env)) as [Hm Hr]; [done|done|].
  split; [done|]. split; [done|].
  unfold reconnectStrategy, Backoff.reconnectStrategy. rewrite Hm.
  case_decide; destruct (Z.ltb_spec 5 n); try lia; [done|].
  f_equal. lia.
Qed.

(** X22. What [disconnect] does to the flag and to later reads.  When the
    command client exists and its close succeeds, the [end] event raised
    inside the call has lowered [isConnected] when [disconnect] returns;
    when there is no command client, or its close fails, the flag is left
    as it was.  Whenever the flag is false afterwards every read finds
    nothing: [getSessionState] returns [null] and [getParticipants] the
    empty array, for every session. *)
Theorem disconnect_forgets_everything (w : World) k s :
  (is_Some (client w) → (∀ e, head (faults w) ≠ Some (Some e)) →
   isConnected (after disconnect w) = false) ∧
  (client w = None ∨ (∃ e fs, faults w = Some e :: fs) →
   isConnected (after disconnect w) = isConnected w) ∧
  (isConnected (after disconnect w) = false →
   result (getSessionState k) (after disconnect w) = Ok None ∧
   result (getParticipants s) (after disconnect w) = Ok (ParticipantList [])).
Proof.
  split; [|split].
  - destruct w as [cl pu su ic rc mr st rd sb dl pg fa nw co].
    unfold after. intros [c Hc] Hf. cbn in Hc, Hf. subst cl.
    destruct pu as [p|], su as [s'|], fa as [|[e1|] [|[e2|] [|[e3|] fs]]]; cbn;
      try done; by destruct (Hf e1).
  - destruct w as [cl pu su ic rc mr st rd sb dl pg fa nw co].
    unfold after. cbn. intros [->|(e & fs & ->)].
    + by destruct pu as [p|], su as [s'|], fa as [|[e1|] [|[e2|] fs]].
    + by destruct cl as [c|], pu as [p|], su as [s'|], fs as [|[e2|] [|[e3|] fs]].
  - intros Hi. destruct (disconnect_keeps w) as (_ & _ & _ & _ & _ & _ & _ & Hf).
    rewrite getSessionState_result, getParticipants_result.
    unfold session_view, participants_view, fallback_view. rewrite Hi, Hf. cbn [negb].
    by rewrite !lookup_empty.
Qed.

(** ** Participants on the server expire together *)

(** X23. On the server the participants of a session share one deadline,
    which every [addParticipant] moves to one hour from now: until then
    [getParticipants] returns what it returned right after the call, and
    from then on the empty array -- every record of the session is gone at
    once, whenever it was added. *)
Theorem remote_participants_expire_together (w : World) s p str ms :
  remote_mode w → JSON_stringify p = Some str →
  not_a_string w (participants_key s) →
  result (getParticipants s) (exec toISOString (Tick ms) (after (addParticipant s p) w))
  = if decide (ms < 3600 * 1000)
    then result (getParticipants s) (after (addParticipant s p) w)
    else Ok (ParticipantList []).
Proof.
  intros Hr Hs Hns. unfold after.
  rewrite (addParticipant_remote w s p str) by done. cbn [snd exec].
  rewrite !getParticipants_result.
  destruct Hr as (Hc & Hcl & Hh).
  assert (Hh2 : Forall (λ f, f = None) (tail (tail (faults w)))).
  { unfold healthy in Hh. destruct (faults w) as [|x [|y fs]]; try done.
    apply Forall_cons in Hh as [_ Hh]. by apply Forall_cons in Hh as [_ Hh]. }
  rewrite !participants_view_remote by done.
  unfold redis_lookup. proj_m. rewrite lookup_insert_eq. unfold live. cbn [rexpire].
  replace (now w <? now w + 3600 * 1000) with true by (symmetry; apply Z.ltb_lt; lia).
  case_decide.
  - replace (now w + ms <? now w + 3600 * 1000) with true
      by (symmetry; apply Z.ltb_lt; lia).
    done.
  - replace (now w + ms <? now w + 3600 * 1000) with false
      by (symmetry; apply Z.ltb_ge; lia).
    done.
Qed.

(** ** [addParticipant] beyond its type *)

(** At a participant object the method that accepts [null] is the typed
    one. *)
Lemma addParticipant_any_typed (w : World) s p :
  addParticipant_any s (Some p) w = addParticipant s p w.
Proof.
  unfold addParticipant_any, addParticipant, add_any_fallback, id_of, stringify_any.
  unfold_m. reflexivity.
Qed.

(** At [null], on a disconnected service: when the session holds a
    participant, [filter] raises in the body and again in the handler; when
    it holds none, the body stores the [null], the log line raises, and
    [filter] raises in the handler on the [null] just stored. *)
Lemma addParticipant_null_holding (w : World) s q ps :
  isConnected w = false →
  fallbackStore w !! participants_key s = Some (ParticipantList (q :: ps)) →
  result (addParticipant_any s None) w
  = Throw (Error "Cannot read properties of null (reading 'id')").
Proof.
  intros Hc Hs. unfold result, addParticipant_any, add_any_fallback, id_of.
  unfold_m. rewrite Hc; red_m. rewrite Hs; red_m. proj_m. by rewrite Hs.
Qed.

Lemma addParticipant_null_fresh (w : World) s :
  isConnected w = false →
  fallbackStore w !! participants_key s = None →
  result (addParticipant_any s None) w
  = Throw (Error "Cannot read properties of null (reading 'id')") ∧
  fallbackStore (after (addParticipant_any s None) w) !! participants_key s
  = Some JustNull.
Proof.
  intros Hc Hs. unfold result, after, addParticipant_any, add_any_fallback, id_of.
  unfold_m. rewrite Hc; red_m. rewrite Hs; red_m. proj_m.
  rewrite lookup_insert_eq. red_m. proj_m. by rewrite lookup_insert_eq.
Qed.

End Properties.

(** * Concrete runs *)

Import Sample.

Lemma online_remote_mode : remote_mode online.
Proof. split; [done|]. split; [by eexists|]. constructor. Qed.

Lemma roundtrips_bool (b : bool) : roundtrips b.
Proof. destruct b; eexists; (split; [reflexivity|]); split; done. Qed.

Lemma roundtrips_participant (p : Participant bool) : roundtrips p.
Proof.
  destruct p as [i []]; eexists; (split; [reflexivity|]); split; done.
Qed.

Lemma offline_wf : store_wf (fallbackStore offline).
Proof. apply store_wf_empty. Qed.

Lemma with_bob_wf : store_wf (fallbackStore with_bob).
Proof. apply store_wf_insert_list, store_wf_empty. Qed.

Lemma with_bob_no_ghost : absent with_bob "s" "ghost".
Proof.
  split.
  - intros ps Hps. vm_compute in Hps. injection Hps as <-.
    by repeat constructor.
  - intros h ex Hh. by vm_compute in Hh.
Qed.

Lemma busy_day_keeps : Forall (keeps "s" "p1") busy_day.
Proof. repeat constructor; cbn; by intros [? ?]. Qed.

(** [no_failure_path] on a connected service whose next command fails. *)
Lemma no_failure_path_witness :
  store_wf (fallbackStore flaky) ∧
  result (setSessionState "abc" true 10) flaky = Ok true ∧
  result (addParticipant "s" alice) flaky = Ok true ∧
  result (publishEvent clock_string "room" "joined" true) flaky = Ok true.
Proof.
  split; [apply offline_wf|].
  destruct (no_failure_path clock_string flaky offline_wf)
    as (Hset & _ & _ & Hadd & _ & _ & Hpub & _).
  split; [apply Hset|]. split; [apply Hadd|apply Hpub].
Defined.

(** [subscribeToEvents_offline] on a freshly constructed service. *)
Lemma subscribeToEvents_offline_witness :
  isConnected offline = false ∧
  result (subscribeToEvents "room" 7) offline = Ok JsTrue ∧
  subscriptions (after (subscribeToEvents "room" 7) offline) = subscriptions offline ∧
  delivered (after (subscribeToEvents "room" 7) offline) = delivered offline.
Proof.
  split; [reflexivity|].
  apply (subscribeToEvents_offline offline "room" 7). reflexivity.
Defined.

(** C3, as stated, fails: on a disconnected service [healthCheck] reports
    [connected = false] but its [mode] is ["in-memory"], not
    ["fallback"]. *)
Lemma healthCheck_mode_counterexample :
  isConnected offline = false ∧
  ∃ h, result healthCheck offline = Ok h ∧ connected h = false ∧
       mode h = "in-memory" ∧ mode h ≠ "fallback".
Proof. split; [reflexivity|]. eexists. by repeat split. Qed.

(** [healthCheck_offline] on a freshly constructed service. *)
Lemma healthCheck_offline_witness :
  isConnected offline = false ∧
  healthCheck offline = (Ok (mkHealth "fallback" "in-memory" false None), offline).
Proof.
  split; [reflexivity|]. apply (healthCheck_offline offline). reflexivity.
Defined.

(** [set_then_get] on both backends, with a TTL of ten seconds. *)
Lemma set_then_get_witness :
  0 < 10 ∧
  result (getSessionState "abc") (after (setSessionState "abc" true 10) offline)
  = Ok (Some true) ∧
  result (getSessionState "abc") (after (setSessionState "abc" true 10) online)
  = Ok (Some true).
Proof.
  split; [lia|]. split.
  - apply (set_then_get offline "abc" true 10); [lia|]. left. reflexivity.
  - apply (set_then_get online "abc" true 10); [lia|]. right.
    split; [apply online_remote_mode|apply roundtrips_bool].
Defined.

(** C5. On the error path an expired entry is reported absent but stays in
    the fallback store; on the disconnected path the same entry is
    deleted. *)
Theorem getSessionState_error_path_keeps_expired :
  fresh (fallbackStore stale !! session_key "abc") (now stale) = None ∧
  result (getSessionState "abc") stale = Ok None ∧
  fallbackStore (after (getSessionState "abc") stale) !! session_key "abc"
  = Some (SessionEntry true 500) ∧
  fallbackStore (after (getSessionState "abc") (set_isConnected false stale))
    !! session_key "abc"
  = None.
Proof.
  assert (Hf : fresh (fallbackStore stale !! session_key "abc") (now stale) = None)
    by (unfold stale; cbn [fallbackStore set_fallbackStore];
        by rewrite lookup_insert_eq).
  split; [exact Hf|].
  destruct (getSessionState_failure_stale stale "abc" (Error "ECONNRESET") [])
    as [Hr Hs]; [done|by eexists|done|exact Hf|].
  split; [exact Hr|]. split.
  - rewrite Hs. unfold stale. cbn [fallbackStore set_fallbackStore].
    apply lookup_insert_eq.
  - destruct (getSessionState_offline_stale (set_isConnected false stale) "abc")
      as [_ Hd]; [done|exact Hf|].
    rewrite Hd. apply lookup_delete_eq.
Qed.

(** [addParticipant_upsert] on both backends: [alice'] replaces [alice]. *)
Lemma addParticipant_upsert_witness :
  id alice = id alice' ∧
  (∃ ps, result (getParticipants "s")
           (after (addParticipant "s" alice') (after (addParticipant "s" alice) with_bob))
         = Ok (ParticipantList ps) ∧
         filter (λ p, id p = id alice') ps = [alice']) ∧
  (∃ ps, result (getParticipants "s")
           (after (addParticipant "s" alice') (after (addParticipant "s" alice) online))
         = Ok (ParticipantList ps) ∧
         filter (λ p, id p = id alice') ps = [alice']).
Proof.
  split; [reflexivity|]. split.
  - apply (addParticipant_upsert with_bob "s" alice alice'); [reflexivity|].
    left. split; [reflexivity|apply with_bob_wf].
  - apply (addParticipant_upsert online "s" alice alice'); [reflexivity|].
    right. split; [apply online_remote_mode|].
    split; [apply roundtrips_participant|]. split; [apply roundtrips_participant|].
    intros e He. by vm_compute in He.
Defined.

Lemma busy_day_no_ghost : Forall (not_adding "s" "ghost") busy_day.
Proof. repeat constructor; cbn; by intros [? ?]. Qed.

(** [removeParticipant_never_added] for an id no call of the day adds. *)
Lemma removeParticipant_never_added_witness :
  store_wf (fallbackStore with_bob) ∧ absent with_bob "s" "ghost" ∧
  Forall (not_adding "s" "ghost") busy_day ∧
  result (removeParticipant "s" "ghost") (run clock_string busy_day with_bob) = Ok true ∧
  result (getParticipants "s")
    (set_faults [] (after (removeParticipant "s" "ghost")
                      (run clock_string busy_day with_bob)))
  = result (getParticipants "s") (set_faults [] (run clock_string busy_day with_bob)).
Proof.
  split; [apply with_bob_wf|]. split; [apply with_bob_no_ghost|].
  split; [apply busy_day_no_ghost|].
  destruct (removeParticipant_never_added clock_string with_bob busy_day "s" "ghost"
              with_bob_wf with_bob_no_ghost busy_day_no_ghost) as [Hr Hsame].
  split; [exact Hr|]. exact (Hsame []).
Defined.

(** [reconnectStrategy_default]: the third and the sixth attempt, and a
    service in fallback mode whose five retries all fail. *)
Lemma reconnectStrategy_default_witness :
  reconnectStrategy offline 3 = RetryAfter 300 ∧ reconnectStrategy offline 6 = Stop ∧
  result (reconnecting 1 6) unreachable = Ok (Some false) ∧
  faults (after (reconnecting 1 6) unreachable) = faults unreachable ∧
  result (reconnecting 10 1) unreachable = Ok (Some false) ∧
  isConnected (after (reconnecting 10 1) unreachable) = false ∧
  faults (after (reconnecting 10 1) unreachable) = [] ∧
  redis (after (reconnecting 10 1) unreachable) = redis unreachable.
Proof.
  destruct (reconnectStrategy_default quiet 3) as (H3 & _); [lia|].
  destruct (reconnectStrategy_default quiet 6) as (_ & H6 & Hstop & _); [lia|].
  destruct (reconnectStrategy_default quiet 1) as (_ & _ & _ & Hloop); [lia|].
  split; [apply H3; lia|]. split; [apply H6; lia|].
  destruct (Hstop ltac:(lia) unreachable 0%nat eq_refl) as (Hr & _ & Hw & _).
  split; [exact Hr|]. split; [exact (f_equal snd Hw)|].
  apply (Hloop ltac:(lia) unreachable (replicate 5 (Error "ECONNREFUSED")) [] 10%nat);
    [reflexivity|reflexivity|reflexivity|reflexivity|cbn; lia].
Defined.

(** [disconnect_best_effort] on a service whose [init] could not connect:
    the close of the command client fails and the other two clients are
    not closed; and on a healthy, connected service. *)
Lemma disconnect_best_effort_witness :
  result disconnect never_opened = Ok tt ∧
  fallbackStore (after disconnect never_opened) = ∅ ∧
  publisher (after disconnect never_opened) = Some Idle ∧
  subscriber (after disconnect never_opened) = Some Idle ∧
  client (after disconnect online) = Some Closed ∧
  publisher (after disconnect online) = Some Closed ∧
  subscriber (after disconnect online) = Some Closed.
Proof.
  destruct (disconnect_best_effort never_opened) as (Hr & Hempty & _ & Hskip).
  destruct (Hskip (Error "The client is closed") []) as (_ & Hp & Hs & _);
    [by eexists|reflexivity|].
  destruct (disconnect_best_effort online) as (_ & _ & Hclosed & _).
  destruct (Hclosed (Forall_nil_2 _)) as ([Hc'|Hc'] & [Hp'|Hp'] & [Hs'|Hs']);
    try discriminate.
  by repeat split.
Defined.

(** C1, as stated, fails: handed [null] for a participant,
    [addParticipant] raises from its own handler, on a service that holds
    a participant for the session and on a fresh one, where it first
    stores the [null]. *)
Lemma no_failure_path_counterexample :
  store_wf (fallbackStore with_bob) ∧
  result (addParticipant_any "s" None) with_bob
  = Throw (Error "Cannot read properties of null (reading 'id')") ∧
  result (addParticipant_any "s" None) offline
  = Throw (Error "Cannot read properties of null (reading 'id')") ∧
  fallbackStore (after (addParticipant_any "s" None) offline) !! participants_key "s"
  = Some JustNull.
Proof.
  split; [apply with_bob_wf|]. split.
  - apply (addParticipant_null_holding with_bob "s" bob []); [reflexivity|].
    apply lookup_insert_eq.
  - apply (addParticipant_null_fresh offline "s"); reflexivity.
Qed.

Lemma online_js_remote_mode : remote_mode online_js.
Proof. split; [done|]. split; [by eexists|]. constructor. Qed.

(** C4, as stated, fails on the remote backend: a date written on a
    healthy connection is read back as a string. *)
Lemma set_then_get_counterexample :
  0 < 10 ∧ remote_mode online_js ∧
  result (setSessionState "abc" new_year 10) online_js = Ok true ∧
  result (getSessionState "abc") (after (setSessionState "abc" new_year 10) online_js)
  = Ok (Some (JsString "2024-01-01T00:00:00.000Z")) ∧
  result (getSessionState "abc") (after (setSessionState "abc" new_year 10) online_js)
  ≠ Ok (Some new_year).
Proof.
  split; [lia|]. split; [apply online_js_remote_mode|].
  assert (Hget : result (getSessionState "abc")
                   (after (setSessionState "abc" new_year 10) online_js)
                 = Ok (Some (JsString "2024-01-01T00:00:00.000Z"))).
  { unfold after, result.
    rewrite (setSessionState_remote online_js "abc" new_year 10
               "'2024-01-01T00:00:00.000Z");
      [|apply online_js_remote_mode|reflexivity|lia].
    cbn [snd].
    rewrite (getSessionState_remote _ "abc" "'2024-01-01T00:00:00.000Z"
               (JsString "2024-01-01T00:00:00.000Z") (Some (1000 + 10 * 1000)));
      [done|by apply remote_mode_after_one, online_js_remote_mode| |done|done].
    unfold redis_lookup. cbn [redis set_redis set_console now set_faults].
    by rewrite lookup_insert_eq. }
  split; [|split; [exact Hget|rewrite Hget; discriminate]].
  unfold result.
  by rewrite (setSessionState_remote online_js "abc" new_year 10
                "'2024-01-01T00:00:00.000Z");
    [|apply online_js_remote_mode|reflexivity|lia].
Qed.

(** C6, as stated, fails on the remote backend: of two dated records
    added on a healthy connection the one returned holds a string where
    the second record holds a date. *)
Lemma addParticipant_upsert_counterexample :
  id joined_early = id joined_late ∧ remote_mode online_js ∧
  result (getParticipants "s")
    (after (addParticipant "s" joined_late)
       (after (addParticipant "s" joined_early) online_js))
  = Ok (ParticipantList [mkParticipant "p1" (JsString "2024-06-30T12:00:00.000Z")]) ∧
  mkParticipant "p1" (JsString "2024-06-30T12:00:00.000Z") ≠ joined_late.
Proof.
  split; [reflexivity|]. split; [apply online_js_remote_mode|].
  split; [vm_compute; reflexivity|discriminate].
Qed.

(** [fallback_participants_never_expire] over a day of activity. *)
Lemma fallback_participants_never_expire_witness :
  store_wf (fallbackStore offline) ∧ isConnected offline = false ∧
  Forall (keeps "s" (id alice)) busy_day ∧
  ∃ ps,
    result (getParticipants "s")
      (set_isConnected false
         (run clock_string busy_day (after (addParticipant "s" alice) offline)))
    = Ok (ParticipantList ps) ∧ alice ∈ ps.
Proof.
  split; [apply offline_wf|]. split; [reflexivity|]. split; [apply busy_day_keeps|].
  apply (fallback_participants_never_expire clock_string offline "s" alice busy_day
           offline_wf eq_refl busy_day_keeps).
Defined.

(** * Concrete runs of the further properties *)

Lemma dropped_healthy : healthy dropped.
Proof. constructor. Qed.

Lemma online_server_wf s : remote_participants_wf online s.
Proof. intros e He. by vm_compute in He. Qed.

Lemma online_not_a_string key : not_a_string online key.
Proof. intros e He. by vm_compute in He. Qed.

Lemma with_bob_unique : unique_ids (fallbackStore with_bob).
Proof.
  split; [apply with_bob_wf|]. intros s ps Hps.
  unfold with_bob in Hps. cbn [fallbackStore set_fallbackStore] in Hps.
  apply lookup_insert_Some in Hps as [[_ [= <-]]|[_ Hps]].
  - apply NoDup_singleton.
  - by rewrite lookup_empty in Hps.
Qed.

Lemma no_link_has_no_connect :
  Forall (λ c, c ≠ CallInit ∧ c ≠ ClientConnect) no_link.
Proof. repeat constructor; discriminate. Qed.

Lemma with_pair_wf : store_wf (fallbackStore with_pair).
Proof. apply store_wf_insert_list, store_wf_empty. Qed.

Lemma seated_remote_mode : remote_mode seated.
Proof. split; [done|]. split; [by eexists|]. constructor. Qed.

Lemma seated_server_wf : remote_participants_wf seated "s".
Proof.
  intros e He. unfold seated in He. cbn [redis set_redis] in He.
  rewrite lookup_insert_eq in He. injection He as <-.
  eexists. split; [reflexivity|]. intros f v Hf.
  apply lookup_insert_Some in Hf as [[<- <-]|[_ Hf]]; [by eexists|].
  apply lookup_insert_Some in Hf as [[<- <-]|[_ Hf]]; [by eexists|].
  by rewrite lookup_empty in Hf.
Qed.

Lemma elsewhere_leaves_participants : Forall (leaves_participants "s") elsewhere.
Proof. repeat constructor; discriminate. Qed.

Lemma elsewhere_leaves_session : Forall (leaves_session "abc") elsewhere.
Proof. repeat constructor; discriminate. Qed.

(** [data_calls_keep_link] for an [addParticipant] whose command fails. *)
Lemma data_calls_keep_link_witness :
  is_data_call (CallAddParticipant "s" alice) ∧
  link (exec clock_string (CallAddParticipant "s" alice) flaky) = link flaky ∧
  ambient (exec clock_string (CallAddParticipant "s" alice) flaky) = ambient flaky.
Proof.
  split; [exact Logic.I|].
  apply (data_calls_keep_link clock_string (CallAddParticipant "s" alice) flaky).
  exact Logic.I.
Defined.

(** [no_connect_event_no_traffic] for a history with calls, faults, an
    error event and a shutdown. *)
Lemma no_connect_event_no_traffic_witness :
  isConnected with_bob = false ∧
  Forall (λ c, c ≠ CallInit ∧ c ≠ ClientConnect) no_link ∧
  isConnected (run clock_string no_link with_bob) = false ∧
  redis (run clock_string no_link with_bob) = redis with_bob ∧
  subscriptions (run clock_string no_link with_bob) = subscriptions with_bob ∧
  delivered (run clock_string no_link with_bob) = delivered with_bob.
Proof.
  split; [reflexivity|]. split; [apply no_link_has_no_connect|].
  apply (no_connect_event_no_traffic clock_string with_bob no_link);
    [reflexivity|apply no_link_has_no_connect].
Defined.

(** [delete_then_get] on both backends. *)
Lemma delete_then_get_witness :
  isConnected offline = false ∧ remote_mode online ∧
  result (getSessionState "abc") (after (deleteSessionState "abc") offline) = Ok None ∧
  result (getSessionState "abc") (after (deleteSessionState "abc") online) = Ok None.
Proof.
  split; [reflexivity|]. split; [apply online_remote_mode|]. split.
  - apply (delete_then_get offline "abc"). left. reflexivity.
  - apply (delete_then_get online "abc"). right. apply online_remote_mode.
Defined.

(** [session_state_expiry] with a TTL of ten seconds, read five and ten
    seconds later. *)
Lemma session_state_expiry_witness :
  isConnected offline = false ∧
  (remote_mode online ∧ roundtrips true ∧ 0 < 10) ∧
  result (getSessionState "abc")
    (exec clock_string (Tick 5000) (after (setSessionState "abc" true 10) offline))
  = Ok (Some true) ∧
  result (getSessionState "abc")
    (exec clock_string (Tick 10000) (after (setSessionState "abc" true 10) online))
  = Ok None.
Proof.
  split; [reflexivity|].
  split; [split; [apply online_remote_mode|split; [apply roundtrips_bool|lia]]|].
  split.
  - apply (session_state_expiry clock_string offline "abc" true 10 5000).
    left. reflexivity.
  - apply (session_state_expiry clock_string online "abc" true 10 10000).
    right. split; [apply online_remote_mode|split; [apply roundtrips_bool|lia]].
Defined.

(** [last_write_wins] on both backends; on the server the first write
    has a TTL of zero. *)
Lemma last_write_wins_witness :
  0 < 20 ∧ isConnected offline = false ∧ remote_mode online ∧ roundtrips false ∧
  result (getSessionState "abc")
    (after (setSessionState "abc" false 20) (after (setSessionState "abc" true 10) offline))
  = Ok (Some false) ∧
  result (getSessionState "abc")
    (after (setSessionState "abc" false 20) (after (setSessionState "abc" true 0) online))
  = Ok (Some false).
Proof.
  split; [lia|]. split; [reflexivity|]. split; [apply online_remote_mode|].
  split; [apply roundtrips_bool|]. split.
  - apply (last_write_wins offline "abc" true 10 false 20); [lia|].
    left. reflexivity.
  - apply (last_write_wins online "abc" true 0 false 20); [lia|]. right.
    split; [apply online_remote_mode|apply roundtrips_bool].
Defined.

(** [set_then_get_on_errors] during an outage of two commands. *)
Lemma set_then_get_on_errors_witness :
  0 < 10 ∧ isConnected outage = true ∧
  faults outage = [Some (Error "ECONNRESET"); Some (Error "ETIMEDOUT")] ∧
  result (setSessionState "abc" true 10) outage = Ok true ∧
  result (getSessionState "abc") (after (setSessionState "abc" true 10) outage)
  = Ok (Some true) ∧
  redis (after (getSessionState "abc") (after (setSessionState "abc" true 10) outage))
  = redis outage.
Proof.
  split; [lia|]. split; [reflexivity|]. split; [reflexivity|].
  apply (set_then_get_on_errors outage "abc" true 10
           (Error "ECONNRESET") (Error "ETIMEDOUT") []);
    [lia|reflexivity|reflexivity].
Defined.

(** [fallen_back_write_is_not_read] when only the write fails. *)
Lemma fallen_back_write_is_not_read_witness :
  isConnected flaky = true ∧ faults flaky = [Some (Error "ECONNRESET")] ∧
  redis_lookup flaky (session_key "abc") = None ∧
  result (setSessionState "abc" true 10) flaky = Ok true ∧
  result (getSessionState "abc") (after (setSessionState "abc" true 10) flaky) = Ok None ∧
  fallbackStore (after (setSessionState "abc" true 10) flaky) !! session_key "abc"
  = Some (SessionEntry true (now flaky + 10 * 1000)).
Proof.
  split; [reflexivity|]. split; [reflexivity|]. split; [reflexivity|].
  apply (fallen_back_write_is_not_read flaky "abc" true 10 (Error "ECONNRESET") []);
    [reflexivity|by eexists|by eexists|reflexivity|constructor|reflexivity].
Defined.

(** [connected_write_lost_on_end] on a healthy connection. *)
Lemma connected_write_lost_on_end_witness :
  remote_mode online ∧ 0 < 10 ∧
  fresh (fallbackStore online !! session_key "abc") (now online) = None ∧
  result (setSessionState "abc" true 10) online = Ok true ∧
  result (getSessionState "abc")
    (exec clock_string ClientEnd (after (setSessionState "abc" true 10) online))
  = Ok None.
Proof.
  split; [apply online_remote_mode|]. split; [lia|]. split; [reflexivity|].
  apply (connected_write_lost_on_end clock_string online "abc" true 10 "true");
    [apply online_remote_mode|reflexivity|lia|reflexivity].
Defined.

(** [offline_write_hidden_on_connect] on a service whose flag dropped. *)
Lemma offline_write_hidden_on_connect_witness :
  isConnected dropped = false ∧ healthy dropped ∧
  redis_lookup dropped (session_key "abc") = None ∧
  result (setSessionState "abc" true 10) dropped = Ok true ∧
  result (getSessionState "abc")
    (exec clock_string ClientConnect (after (setSessionState "abc" true 10) dropped))
  = Ok None ∧
  fallbackStore
    (exec clock_string ClientConnect (after (setSessionState "abc" true 10) dropped))
    !! session_key "abc"
  = Some (SessionEntry true (now dropped + 10 * 1000)).
Proof.
  split; [reflexivity|]. split; [apply dropped_healthy|]. split; [reflexivity|].
  apply (offline_write_hidden_on_connect clock_string dropped "abc" true 10);
    [reflexivity|by eexists|apply dropped_healthy|reflexivity].
Defined.

(** [participant_ids_stay_unique] after a day of activity. *)
Lemma participant_ids_stay_unique_witness :
  unique_ids (fallbackStore with_bob) ∧
  ∃ ps,
    result (getParticipants "s")
      (set_isConnected false (run clock_string busy_day with_bob))
    = Ok (ParticipantList ps) ∧
    NoDup (id <$> ps).
Proof.
  split; [apply with_bob_unique|].
  apply (participant_ids_stay_unique clock_string with_bob busy_day "s").
  apply with_bob_unique.
Defined.

(** [remove_then_gone] on both backends, for a session that holds two
    participants: the other one stays. *)
Lemma remove_then_gone_witness :
  (isConnected with_pair = false ∧ store_wf (fallbackStore with_pair)) ∧
  (remote_mode seated ∧ remote_participants_wf seated "s") ∧
  result (getParticipants "s") (after (removeParticipant "s" "p2") with_pair)
  = Ok (ParticipantList [alice]) ∧
  (∃ ps,
     result (getParticipants "s") (after (removeParticipant "s" "p2") seated)
     = Ok (ParticipantList ps) ∧
     Forall (λ p, id p ≠ "p2") ps) ∧
  result (getParticipants "s") (after (removeParticipant "s" "p2") seated)
  = Ok (ParticipantList [alice]).
Proof.
  split; [split; [reflexivity|apply with_pair_wf]|].
  split; [split; [apply seated_remote_mode|apply seated_server_wf]|].
  split; [|split].
  - destruct (remove_then_gone with_pair "s" "p2") as (_ & ps & Hps & _ & Hrest);
      [left; split; [reflexivity|apply with_pair_wf]|].
    rewrite Hps, (Hrest eq_refl). reflexivity.
  - destruct (remove_then_gone seated "s" "p2") as (_ & ps & Hps & Hall & _);
      [right; split; [apply seated_remote_mode|apply seated_server_wf]|].
    exists ps. split; [exact Hps|exact Hall].
  - vm_compute. reflexivity.
Defined.

(** [add_with_failed_expire] when HSET succeeds and EXPIRE times out: on a
    hash that has a deadline, which it keeps, and on a server without the
    key, where the new hash has none. *)
Lemma add_with_failed_expire_witness :
  isConnected seated_half_open = true ∧
  faults seated_half_open = [None; Some (Error "ETIMEDOUT")] ∧
  not_a_string seated_half_open (participants_key "s") ∧
  store_wf (fallbackStore seated_half_open) ∧
  result (addParticipant "s" alice') seated_half_open = Ok true ∧
  redis (after (addParticipant "s" alice') seated_half_open) !! participants_key "s"
  = Some (mkREntry (RHash (<["p1" := "Fp1"]> (<["p1" := "Tp1"]> (<["p2" := "Tp2"]> ∅))))
            (Some 5000)) ∧
  alice' ∈ fallback_participants (after (addParticipant "s" alice') seated_half_open) "s" ∧
  redis (after (addParticipant "s" alice) half_open) !! participants_key "s"
  = Some (mkREntry (RHash (<["p1" := "Tp1"]> ∅)) None).
Proof.
  assert (Hns : not_a_string seated_half_open (participants_key "s"))
    by apply remote_wf_not_a_string, seated_server_wf.
  split; [reflexivity|]. split; [reflexivity|]. split; [exact Hns|].
  split; [apply offline_wf|].
  destruct (add_with_failed_expire seated_half_open "s" alice' "Fp1"
              (Error "ETIMEDOUT") []) as (Hr & Hh & Hin);
    [reflexivity|by eexists|reflexivity|reflexivity|exact Hns|apply offline_wf|].
  destruct (add_with_failed_expire half_open "s" alice "Tp1" (Error "ETIMEDOUT") [])
    as (_ & Hh' & _);
    [reflexivity|by eexists|reflexivity|reflexivity|apply online_not_a_string
    |apply offline_wf|].
  split; [exact Hr|]. split; [|split; [exact Hin|]].
  - rewrite Hh. reflexivity.
  - rewrite Hh'. reflexivity.
Defined.

(** [participants_isolated]: calls about other sessions and about session
    state, read under a failing and under a healthy network. *)
Lemma participants_isolated_witness :
  store_wf (fallbackStore with_bob) ∧
  Forall (leaves_participants "s") elsewhere ∧
  result (getParticipants "s")
    (set_faults [Some (Error "ECONNRESET")] (run clock_string elsewhere with_bob))
  = result (getParticipants "s") (set_faults [Some (Error "ECONNRESET")] with_bob) ∧
  result (getParticipants "s") (set_faults [] (run clock_string elsewhere online))
  = result (getParticipants "s") (set_faults [] online).
Proof.
  split; [apply with_bob_wf|]. split; [apply elsewhere_leaves_participants|]. split.
  - apply (participants_isolated clock_string with_bob elsewhere "s");
      [apply with_bob_wf|apply elsewhere_leaves_participants].
  - apply (participants_isolated clock_string online elsewhere "s");
      [apply offline_wf|apply elsewhere_leaves_participants].
Defined.

(** [session_isolated] for the same calls and the state of [abc]. *)
Lemma session_isolated_witness :
  store_wf (fallbackStore stale) ∧
  Forall (leaves_session "abc") elsewhere ∧
  result (getSessionState "abc") (set_faults [] (run clock_string elsewhere stale))
  = result (getSessionState "abc") (set_faults [] stale).
Proof.
  assert (Hwf : store_wf (fallbackStore stale))
    by apply store_wf_insert_session, store_wf_empty.
  split; [exact Hwf|]. split; [apply elsewhere_leaves_session|].
  apply (session_isolated clock_string stale elsewhere "abc");
    [exact Hwf|apply elsewhere_leaves_session].
Defined.



(** [publish_loss_is_silent] when the publish command fails. *)
Lemma publish_loss_is_silent_witness :
  isConnected flaky = true ∧ faults flaky = [Some (Error "ECONNRESET")] ∧
  result (publishEvent clock_string "room" "joined" true) flaky = Ok true ∧
  delivered (after (publishEvent clock_string "room" "joined" true) flaky)
  = delivered flaky ∧
  isConnected (after (publishEvent clock_string "room" "joined" true) flaky) = true.
Proof.
  split; [reflexivity|]. split; [reflexivity|].
  apply (publish_loss_is_silent clock_string flaky "room" "joined" true);
    [reflexivity|].
  right. right. by eexists _, _.
Defined.

(** [malformed_message_is_dropped] for a message two listeners receive. *)
Lemma malformed_message_is_dropped_witness :
  JSON_parse (A:=Envelope bool) "garbage" = None ∧
  result (deliver (subscriptions listening) "room" "garbage") listening = Ok tt ∧
  delivered (after (deliver (subscriptions listening) "room" "garbage") listening)
  = delivered listening ∧
  length (console (after (deliver (subscriptions listening) "room" "garbage") listening))
  = 2%nat.
Proof.
  split; [reflexivity|].
  destruct (malformed_message_is_dropped (subscriptions listening) "room" "garbage"
              listening) as (Hr & Hd & _ & Hc); [reflexivity|].
  split; [exact Hr|]. split; [exact Hd|exact Hc].
Defined.

(** [healthCheck_connected] when the probe answers and when it fails. *)
Lemma healthCheck_connected_witness :
  isConnected online = true ∧ isConnected flaky = true ∧
  result healthCheck online = Ok (mkHealth "connected" "redis" true None) ∧
  result healthCheck flaky
  = Ok (mkHealth "fallback" "in-memory" false (Some "ECONNRESET")) ∧
  isConnected (after healthCheck flaky) = true.
Proof.
  split; [reflexivity|]. split; [reflexivity|].
  destruct (healthCheck_connected online) as (Hok & _ & _ & _); [reflexivity|].
  destruct (healthCheck_connected flaky) as (_ & Hfail & _ & Hflag); [reflexivity|].
  split; [apply Hok; [by eexists|by intros e]|].
  split; [|exact Hflag].
  apply (Hfail (Error "ECONNRESET") []); [by eexists|reflexivity].
Defined.

(** [remote_participants_expire_together]: an hour after the last add the
    session has no participants. *)
Lemma remote_participants_expire_together_witness :
  remote_mode online ∧ JSON_stringify alice = Some "Tp1" ∧
  not_a_string online (participants_key "s") ∧
  result (getParticipants "s")
    (exec clock_string (Tick 3600000) (after (addParticipant "s" alice) online))
  = Ok (ParticipantList []) ∧
  result (getParticipants "s")
    (exec clock_string (Tick 3599999) (after (addParticipant "s" alice) online))
  = result (getParticipants "s") (after (addParticipant "s" alice) online).
Proof.
  split; [apply online_remote_mode|]. split; [reflexivity|].
  split; [apply online_not_a_string|]. split.
  - apply (remote_participants_expire_together clock_string online "s" alice "Tp1"
             3600000);
      [apply online_remote_mode|reflexivity|apply online_not_a_string].
  - apply (remote_participants_expire_together clock_string online "s" alice "Tp1"
             3599999);
      [apply online_remote_mode|reflexivity|apply online_not_a_string].
Defined.


(** [disconnect_forgets_everything] on a connected service that holds a
    session state in its fallback store. *)
Lemma disconnect_forgets_everything_witness :
  isConnected (after disconnect stale) = true ∧
  isConnected (after disconnect online) = false ∧
  result (getSessionState "abc") (after disconnect online) = Ok None ∧
  result (getParticipants "s") (after disconnect online) = Ok (ParticipantList []).
Proof.
  destruct (disconnect_forgets_everything stale "abc" "s") as (_ & Hkeep & _).
  destruct (disconnect_forgets_everything online "abc" "s") as (Hdrop & _ & Hreads).
  assert (Hoff : isConnected (after disconnect online) = false)
    by (apply Hdrop; [by eexists|by intros e]).
  split; [apply Hkeep; right; by eexists _, _|]. split; [exact Hoff|].
  apply Hreads, Hoff.
Defined.
